(** * The audio processor hook and the WAV encoder of the vocal studio

    A shallow embedding of [useAudioProcessor] (the hook that owns the
    Web Audio graph, the parameter mapping, the transport and the offline
    export) and of [audioBufferToWav] (the 16-bit PCM encoder of the
    export button), followed by the properties the specification states
    about them, and by further properties of the hook, of the handlers of
    the page that drives it, and of the two visualizers.

    Conventions of the embedding:
    - a JavaScript number is an exact rational ([Q]); the values the hook
      computes with (slider positions, seconds, decibels) are finite.
      The hook computes in binary64, which rounds: a theorem that depends
      on which way a comparison of the hook falls takes that comparison,
      between the values as the hook computes them, as a hypothesis, and
      the module [Binary64] has the lines that make such comparisons,
      with the operations of binary64 ([PrimFloat]);
    - a [useRef] cell is a field of the record [Hook]; a cell that may hold
      [null] is an [option];
    - objects that are reached through closures or through the audio graph
      (source readers, the per-play reverb send gain) live in a store and
      are named by their index, so that aliasing is kept;
    - a call that may throw returns a [Result]; [try { .. } catch (e) {}]
      is [tryIgnore];
    - [ctx.currentTime] is read from the platform, so every read is an
      argument of the operation that makes it; [Math.random()] is a
      sequence of draws with a cursor. *)

From Stdlib Require Import QArith ZArith Lia Lqa Qround.
From stdpp Require Import base list.
From Stdlib Require String Ascii Floats.

Open Scope Q_scope.

(** ** JavaScript numbers and exceptions *)

(** [x < y] and [x >= y] on numbers. *)
Definition Qltb (x y : Q) : bool := negb (Qle_bool y x).
Definition Qgeb (x y : Q) : bool := Qle_bool y x.

(** [Math.max(x, y)] and [Math.min(x, y)]. *)
Definition Math_max (x y : Q) : Q := if Qltb x y then y else x.
Definition Math_min (x y : Q) : Q := if Qltb y x then y else x.

Inductive Exn : Type :=
| InvalidStateError
| RangeError
| TypeError
| NotSupportedError.

Inductive Result (A : Type) : Type :=
| Ok (a : A)
| Raise (e : Exn).
Arguments Ok {A} a.
Arguments Raise {A} e.

Definition bind {A B : Type} (r : Result A) (k : A -> Result B) : Result B :=
  match r with
  | Ok a => k a
  | Raise e => Raise e
  end.

Notation "x <- r ;; k" := (bind r (fun x => k))
  (at level 100, r at next level, right associativity).

(** [try { r } catch (e) {}]: the effect of [r] when it returns, nothing
    when it throws. *)
Definition tryIgnore {A : Type} (r : Result A) (unchanged : A) : A :=
  match r with
  | Ok a => a
  | Raise _ => unchanged
  end.

(** ** The control state handed to the hook *)

Record AudioProcessorControls : Type := mkControls {
  pitch : Q;
  booster : bool;
  roomSize : Q;
  fullRoom : bool;
  bass : Q;
  treble : Q;
  beautify : bool;
  mastered : bool;
  (** [eqBands] itself may be missing (the hook tests it), and so may any
      of its entries ([undefined]). *)
  eqBands : option (list (option Q));
  cutStart : Q;
  cutEnd : Q
}.

(** [controls.eqBands && controls.eqBands[i] !== undefined], and the entry
    when the test passes.  An index past the end of a JavaScript array
    reads [undefined]. *)
Definition eqBandAt (controls : AudioProcessorControls) (i : nat) : option Q :=
  match eqBands controls with
  | Some bands =>
      match bands !! i with
      | Some (Some v) => Some v
      | _ => None
      end
  | None => None
  end.

(** ** Web Audio objects *)

(** An [AudioParam]: its intrinsic [value] and the linear ramps scheduled
    on it, the most recently scheduled first, each with its target and its
    end time. *)
Record AudioParam : Type := mkParam {
  value : Q;
  ramps : list (Q * Q)
}.

Definition param (v : Q) : AudioParam := mkParam v [].

(** [p.value = v] *)
Definition setValue (v : Q) (p : AudioParam) : AudioParam :=
  mkParam v (ramps p).

(** [p.linearRampToValueAtTime(v, t)]: a negative end time is a
    [RangeError]. *)
Definition linearRampToValueAtTime (v t : Q) (p : AudioParam) : Result AudioParam :=
  if Qltb t 0 then Raise RangeError
  else Ok (mkParam (value p) ((v, t) :: ramps p)).

(** The value a parameter rests at once its ramps have run out: the target
    of the last ramp scheduled (the hook schedules every ramp at
    [now + 0.1] with [now] the running clock), or the intrinsic value when
    nothing was scheduled. *)
Definition settled (p : AudioParam) : Q :=
  match ramps p with
  | (v, _) :: _ => v
  | [] => value p
  end.

Inductive BiquadFilterType : Type := lowpass | peaking | lowshelf | highshelf.

Record BiquadFilterNode : Type := mkBiquad {
  filterType : BiquadFilterType;
  frequency : Q;
  qFactor : Q;
  filterGain : AudioParam
}.

(** [ctx.createBiquadFilter()] *)
Definition createBiquadFilter : BiquadFilterNode :=
  mkBiquad lowpass 350 1 (param 0).

(** [node.gain.linearRampToValueAtTime(v, t)] on a filter. *)
Definition rampFilterGain (v t : Q) (n : BiquadFilterNode) : Result BiquadFilterNode :=
  g <- linearRampToValueAtTime v t (filterGain n) ;;
  Ok (mkBiquad (filterType n) (frequency n) (qFactor n) g).

Record GainNode : Type := mkGain { gain : AudioParam }.

(** [ctx.createGain()] *)
Definition createGain : GainNode := mkGain (param 1).

Record DynamicsCompressorNode : Type := mkCompressor {
  threshold : Q;
  knee : Q;
  ratio : Q
}.

(** [ctx.createDynamicsCompressor()] *)
Definition createDynamicsCompressor : DynamicsCompressorNode :=
  mkCompressor (-24) 30 12.

Record AnalyserNode : Type := mkAnalyser { fftSize : Z }.

(** A decoded or rendered buffer: [numberOfChannels], [length] (in sample
    frames), [sampleRate] and the channel arrays of [getChannelData]. *)
Record AudioBuffer : Type := mkBuffer {
  numberOfChannels : Z;
  frameLength : Z;
  sampleRate : Z;
  getChannelData : list (list Q)
}.

(** [buffer.duration], in seconds. *)
Definition duration (b : AudioBuffer) : Q :=
  inject_Z (frameLength b) / inject_Z (sampleRate b).

Record ConvolverNode : Type := mkConvolver { impulse : option (list (list Q)) }.

(** An [AudioBufferSourceNode]: [started] holds the arguments of the one
    [start(when, offset, duration)] call it accepted. *)
Record AudioBufferSourceNode : Type := mkSource {
  buffer : option AudioBuffer;
  detune : AudioParam;
  started : option (Q * Q * Q);
  stopped : bool;
  onended : bool
}.

(** [ctx.createBufferSource()] *)
Definition createBufferSource : AudioBufferSourceNode :=
  mkSource None (param 0) None false false.

(** [source.start(when, offset, duration)]: a second start is an
    [InvalidStateError], a negative argument a [RangeError]. *)
Definition sourceStart (when offset dur : Q) (s : AudioBufferSourceNode)
  : Result AudioBufferSourceNode :=
  match started s with
  | Some _ => Raise InvalidStateError
  | None =>
      if Qltb when 0 || Qltb offset 0 || Qltb dur 0 then Raise RangeError
      else Ok (mkSource (buffer s) (detune s) (Some (when, offset, dur))
                        (stopped s) (onended s))
  end.

(** [source.stop()]: an [InvalidStateError] on a source that was never
    started. *)
Definition sourceStop (s : AudioBufferSourceNode) : Result AudioBufferSourceNode :=
  match started s with
  | None => Raise InvalidStateError
  | Some _ => Ok (mkSource (buffer s) (detune s) (started s) true (onended s))
  end.

Inductive ContextState : Type := suspended | running | closed.

Record AudioContext : Type := mkContext {
  ctxState : ContextState;
  ctxSampleRate : Q
}.

(** The nodes of a graph.  Source readers and reverb send gains are made
    anew by every [play]; their index in the store tells them apart. *)
Inductive NodeId : Type :=
| NSource (p : nat)
| NEq (i : nat)
| NBass
| NTreble
| NCompressor
| NRoomGain (r : nat)
| NReverb
| NGain
| NAnalyser
| NDestination.

#[global] Instance NodeId_eq_dec : EqDecision NodeId.
Proof. solve_decision. Defined.

Definition Edge : Type := (NodeId * NodeId)%type.

(** [a.connect(b)]: connecting a pair that is already connected changes
    nothing. *)
Definition connect (a b : NodeId) (es : list Edge) : list Edge :=
  if decide ((a, b) ∈ es) then es else es ++ [(a, b)].

(** [a.disconnect()]: every outgoing connection of [a] goes. *)
Definition disconnect (a : NodeId) (es : list Edge) : list Edge :=
  filter (fun e => e.1 <> a) es.

(** ** The reverb impulse *)

(** [Math.random()]: the draws the engine will hand out, and how many
    were taken. *)
Record Rand : Type := mkRand {
  draws : N -> Q;
  cursor : N
}.

(** One channel loop of [createReverbBuffer], from index [i] on, for the
    [frames] indices left in the channel array: the body at index [i]
    takes the draw numbered [first + i]. *)
Fixpoint reverbChannel (draw : N -> Q) (first : N) (length : Q) (i : N) (frames : nat)
  : list Q :=
  match frames with
  | O => []
  | S rest =>
      let decay := (1 - inject_Z (Z.of_N i) / length) ^ 4 in
      (draw (first + i)%N * 2 - 1) * decay
        :: reverbChannel draw first length (N.succ i) rest
  end.

(** [createReverbBuffer(ctx, duration)].  The buffer has
    [sampleRate * duration] frames, truncated as [createBuffer] does; each
    of the two channel loops runs while [i < length] and draws once per
    iteration, so a channel takes [ceil(length)] draws. *)
Definition createReverbBuffer (rate dur : Q) (rnd : Rand) : list (list Q) * Rand :=
  let length := rate * dur in
  let frames := Z.to_nat (Qfloor length) in
  let iterations := Z.to_N (Qceiling length) in
  ([ reverbChannel (draws rnd) (cursor rnd) length 0 frames;
     reverbChannel (draws rnd) (cursor rnd + iterations) length 0 frames ],
   mkRand (draws rnd) (cursor rnd + iterations + iterations)).

(** ** The hook *)

Record AudioProcessorState : Type := mkState {
  isPlaying : bool;
  currentTime : Q;
  stateDuration : Q;
  analyser : option AnalyserNode
}.

Record Hook : Type := mkHook {
  state : AudioProcessorState;
  audioContextRef : option AudioContext;
  sourceNodeRef : option nat;
  gainNodeRef : option GainNode;
  bassNodeRef : option BiquadFilterNode;
  trebleNodeRef : option BiquadFilterNode;
  reverbNodeRef : option ConvolverNode;
  compressorNodeRef : option DynamicsCompressorNode;
  analyserNodeRef : option AnalyserNode;
  eqNodesRef : list BiquadFilterNode;
  audioBufferRef : option AudioBuffer;
  startTimeRef : Q;
  pauseTimeRef : Q;
  animationFrameRef : option nat;
  (** the store: every source reader and reverb send gain made so far,
      the connections of the realtime graph, and the animation frames
      requested and not yet run or cancelled *)
  sources : list AudioBufferSourceNode;
  roomGains : list GainNode;
  connections : list Edge;
  pendingFrames : list nat;
  nextFrame : nat
}.

Section Setters.
Variable h : Hook.

Definition with_state (x : AudioProcessorState) : Hook :=
  mkHook x (audioContextRef h) (sourceNodeRef h) (gainNodeRef h) (bassNodeRef h)
    (trebleNodeRef h) (reverbNodeRef h) (compressorNodeRef h) (analyserNodeRef h)
    (eqNodesRef h) (audioBufferRef h) (startTimeRef h) (pauseTimeRef h)
    (animationFrameRef h) (sources h) (roomGains h) (connections h)
    (pendingFrames h) (nextFrame h).

Definition with_audioContextRef (x : option AudioContext) : Hook :=
  mkHook (state h) x (sourceNodeRef h) (gainNodeRef h) (bassNodeRef h)
    (trebleNodeRef h) (reverbNodeRef h) (compressorNodeRef h) (analyserNodeRef h)
    (eqNodesRef h) (audioBufferRef h) (startTimeRef h) (pauseTimeRef h)
    (animationFrameRef h) (sources h) (roomGains h) (connections h)
    (pendingFrames h) (nextFrame h).

Definition with_sourceNodeRef (x : option nat) : Hook :=
  mkHook (state h) (audioContextRef h) x (gainNodeRef h) (bassNodeRef h)
    (trebleNodeRef h) (reverbNodeRef h) (compressorNodeRef h) (analyserNodeRef h)
    (eqNodesRef h) (audioBufferRef h) (startTimeRef h) (pauseTimeRef h)
    (animationFrameRef h) (sources h) (roomGains h) (connections h)
    (pendingFrames h) (nextFrame h).

Definition with_gainNodeRef (x : option GainNode) : Hook :=
  mkHook (state h) (audioContextRef h) (sourceNodeRef h) x (bassNodeRef h)
    (trebleNodeRef h) (reverbNodeRef h) (compressorNodeRef h) (analyserNodeRef h)
    (eqNodesRef h) (audioBufferRef h) (startTimeRef h) (pauseTimeRef h)
    (animationFrameRef h) (sources h) (roomGains h) (connections h)
    (pendingFrames h) (nextFrame h).

Definition with_bassNodeRef (x : option BiquadFilterNode) : Hook :=
  mkHook (state h) (audioContextRef h) (sourceNodeRef h) (gainNodeRef h) x
    (trebleNodeRef h) (reverbNodeRef h) (compressorNodeRef h) (analyserNodeRef h)
    (eqNodesRef h) (audioBufferRef h) (startTimeRef h) (pauseTimeRef h)
    (animationFrameRef h) (sources h) (roomGains h) (connections h)
    (pendingFrames h) (nextFrame h).

Definition with_trebleNodeRef (x : option BiquadFilterNode) : Hook :=
  mkHook (state h) (audioContextRef h) (sourceNodeRef h) (gainNodeRef h) (bassNodeRef h)
    x (reverbNodeRef h) (compressorNodeRef h) (analyserNodeRef h)
    (eqNodesRef h) (audioBufferRef h) (startTimeRef h) (pauseTimeRef h)
    (animationFrameRef h) (sources h) (roomGains h) (connections h)
    (pendingFrames h) (nextFrame h).

Definition with_compressorNodeRef (x : option DynamicsCompressorNode) : Hook :=
  mkHook (state h) (audioContextRef h) (sourceNodeRef h) (gainNodeRef h) (bassNodeRef h)
    (trebleNodeRef h) (reverbNodeRef h) x (analyserNodeRef h)
    (eqNodesRef h) (audioBufferRef h) (startTimeRef h) (pauseTimeRef h)
    (animationFrameRef h) (sources h) (roomGains h) (connections h)
    (pendingFrames h) (nextFrame h).

Definition with_eqNodesRef (x : list BiquadFilterNode) : Hook :=
  mkHook (state h) (audioContextRef h) (sourceNodeRef h) (gainNodeRef h) (bassNodeRef h)
    (trebleNodeRef h) (reverbNodeRef h) (compressorNodeRef h) (analyserNodeRef h)
    x (audioBufferRef h) (startTimeRef h) (pauseTimeRef h)
    (animationFrameRef h) (sources h) (roomGains h) (connections h)
    (pendingFrames h) (nextFrame h).

Definition with_audioBufferRef (x : option AudioBuffer) : Hook :=
  mkHook (state h) (audioContextRef h) (sourceNodeRef h) (gainNodeRef h) (bassNodeRef h)
    (trebleNodeRef h) (reverbNodeRef h) (compressorNodeRef h) (analyserNodeRef h)
    (eqNodesRef h) x (startTimeRef h) (pauseTimeRef h)
    (animationFrameRef h) (sources h) (roomGains h) (connections h)
    (pendingFrames h) (nextFrame h).

Definition with_startTimeRef (x : Q) : Hook :=
  mkHook (state h) (audioContextRef h) (sourceNodeRef h) (gainNodeRef h) (bassNodeRef h)
    (trebleNodeRef h) (reverbNodeRef h) (compressorNodeRef h) (analyserNodeRef h)
    (eqNodesRef h) (audioBufferRef h) x (pauseTimeRef h)
    (animationFrameRef h) (sources h) (roomGains h) (connections h)
    (pendingFrames h) (nextFrame h).

Definition with_pauseTimeRef (x : Q) : Hook :=
  mkHook (state h) (audioContextRef h) (sourceNodeRef h) (gainNodeRef h) (bassNodeRef h)
    (trebleNodeRef h) (reverbNodeRef h) (compressorNodeRef h) (analyserNodeRef h)
    (eqNodesRef h) (audioBufferRef h) (startTimeRef h) x
    (animationFrameRef h) (sources h) (roomGains h) (connections h)
    (pendingFrames h) (nextFrame h).

Definition with_sources (x : list AudioBufferSourceNode) : Hook :=
  mkHook (state h) (audioContextRef h) (sourceNodeRef h) (gainNodeRef h) (bassNodeRef h)
    (trebleNodeRef h) (reverbNodeRef h) (compressorNodeRef h) (analyserNodeRef h)
    (eqNodesRef h) (audioBufferRef h) (startTimeRef h) (pauseTimeRef h)
    (animationFrameRef h) x (roomGains h) (connections h)
    (pendingFrames h) (nextFrame h).

Definition with_roomGains (x : list GainNode) : Hook :=
  mkHook (state h) (audioContextRef h) (sourceNodeRef h) (gainNodeRef h) (bassNodeRef h)
    (trebleNodeRef h) (reverbNodeRef h) (compressorNodeRef h) (analyserNodeRef h)
    (eqNodesRef h) (audioBufferRef h) (startTimeRef h) (pauseTimeRef h)
    (animationFrameRef h) (sources h) x (connections h)
    (pendingFrames h) (nextFrame h).

Definition with_connections (x : list Edge) : Hook :=
  mkHook (state h) (audioContextRef h) (sourceNodeRef h) (gainNodeRef h) (bassNodeRef h)
    (trebleNodeRef h) (reverbNodeRef h) (compressorNodeRef h) (analyserNodeRef h)
    (eqNodesRef h) (audioBufferRef h) (startTimeRef h) (pauseTimeRef h)
    (animationFrameRef h) (sources h) (roomGains h) x
    (pendingFrames h) (nextFrame h).

(** [animationFrameRef.current = requestAnimationFrame(tick)]: a fresh
    handle, never 0, now pending. *)
Definition requestAnimationFrame : Hook :=
  mkHook (state h) (audioContextRef h) (sourceNodeRef h) (gainNodeRef h) (bassNodeRef h)
    (trebleNodeRef h) (reverbNodeRef h) (compressorNodeRef h) (analyserNodeRef h)
    (eqNodesRef h) (audioBufferRef h) (startTimeRef h) (pauseTimeRef h)
    (Some (S (nextFrame h))) (sources h) (roomGains h) (connections h)
    (S (nextFrame h) :: pendingFrames h) (S (nextFrame h)).

(** [cancelAnimationFrame(handle)]: the callback will not run; cancelling
    a handle that is not pending does nothing. *)
Definition cancelAnimationFrame (handle : nat) : Hook :=
  mkHook (state h) (audioContextRef h) (sourceNodeRef h) (gainNodeRef h) (bassNodeRef h)
    (trebleNodeRef h) (reverbNodeRef h) (compressorNodeRef h) (analyserNodeRef h)
    (eqNodesRef h) (audioBufferRef h) (startTimeRef h) (pauseTimeRef h)
    (animationFrameRef h) (sources h) (roomGains h) (connections h)
    (filter (fun f => f <> handle) (pendingFrames h)) (nextFrame h).
End Setters.

(** [setState(prev => ({ ...prev, isPlaying: b }))] and its siblings. *)
Definition setIsPlaying (b : bool) (h : Hook) : Hook :=
  with_state h (mkState b (currentTime (state h)) (stateDuration (state h))
                        (analyser (state h))).

Definition setCurrentTime (t : Q) (h : Hook) : Hook :=
  with_state h (mkState (isPlaying (state h)) t (stateDuration (state h))
                        (analyser (state h))).

(** The hook before its mount effect has run. *)
Definition initialHook : Hook :=
  mkHook (mkState false 0 0 None) None None None None None None None None []
         None 0 0 None [] [] [] [] 0.

(** The centre frequencies of the graphic equalizer. *)
Definition FREQS : list Q :=
  [20; 25; 63 # 2; 40; 50; 63; 80; 100; 125; 160; 200; 250;
   315; 400; 500; 630; 800; 1000; 1250; 1600; 2000; 2500; 3150].

(** The mount effect.  [ctx] is the context [new AudioContextClass()]
    returns, [None] when the browser has no such class. *)
Definition mount (ctx : option AudioContext) (rnd : Rand) : Hook * Rand :=
  match ctx with
  | None => (initialHook, rnd)
  | Some c =>
      let eqNodes := map (fun freq => mkBiquad peaking freq (3 # 2) (param 0)) FREQS in
      let bassNode := mkBiquad lowshelf 200 (qFactor createBiquadFilter)
                               (filterGain createBiquadFilter) in
      let trebleNode := mkBiquad highshelf 3000 (qFactor createBiquadFilter)
                                 (filterGain createBiquadFilter) in
      let analyserNode := mkAnalyser 2048 in
      let (reverbBuffer, rnd') := createReverbBuffer (ctxSampleRate c) 2 rnd in
      (mkHook (mkState false 0 0 (Some analyserNode))
              (Some c) None (Some createGain) (Some bassNode) (Some trebleNode)
              (Some (mkConvolver (Some reverbBuffer)))
              (Some createDynamicsCompressor) (Some analyserNode) eqNodes
              None 0 0 None [] [] [] [] 0,
       rnd')
  end.

(** ** The parameter mapper *)

(** [list.forEach((x, i) => ..)] where the callback updates [x] in place
    and may throw; [i] counts from [first]. *)
Fixpoint forEachFrom {A : Type} (f : nat -> A -> Result A) (first : nat) (l : list A)
  : Result (list A) :=
  match l with
  | [] => Ok []
  | x :: rest =>
      y <- f first x ;;
      ys <- forEachFrom f (S first) rest ;;
      Ok (y :: ys)
  end.

(** The callback of the [eqNodesRef.current.forEach] in [updateParams]. *)
Definition updateEqBand (controls : AudioProcessorControls) (now : Q)
    (i : nat) (node : BiquadFilterNode) : Result BiquadFilterNode :=
  match eqBandAt controls i with
  | Some v => rampFilterGain ((v - 50) / 2) (now + (1 # 10)) node
  | None => Ok node
  end.

(** [if (cell.current) { .. }]: run [f] on the node of a cell that holds
    one. *)
Definition onCell {A : Type} (f : A -> Result A) (cell : option A) : Result (option A) :=
  match cell with
  | Some a => a' <- f a ;; Ok (Some a')
  | None => Ok None
  end.

(** A method call on the source reader a cell points to: the reader is
    updated in the store, where every alias of it sees the change. *)
Definition onSource (f : AudioBufferSourceNode -> Result AudioBufferSourceNode)
    (p : nat) (srcs : list AudioBufferSourceNode) : Result (list AudioBufferSourceNode) :=
  match srcs !! p with
  | Some s => s' <- f s ;; Ok (<[p := s']> srcs)
  | None => Ok srcs
  end.

(** [source.detune.linearRampToValueAtTime(v, t)] *)
Definition rampDetune (v t : Q) (s : AudioBufferSourceNode) : Result AudioBufferSourceNode :=
  d <- linearRampToValueAtTime v t (detune s) ;;
  Ok (mkSource (buffer s) d (started s) (stopped s) (onended s)).

(** [updateParams(controls)]; [now] is its read of [ctx.currentTime]. *)
Definition updateParams (controls : AudioProcessorControls) (now : Q) (h : Hook)
  : Result Hook :=
  match audioContextRef h with
  | None => Ok h
  | Some _ =>
      (* 1. Pitch *)
      srcs <- match sourceNodeRef h with
              | Some p =>
                  let detuneValue := (pitch controls - 50) * 24 in
                  onSource (rampDetune detuneValue (now + (1 # 10))) p (sources h)
              | None => Ok (sources h)
              end ;;
      (* 2. Booster *)
      gainNode <- onCell (fun n =>
                    let baseGain := 1 in
                    let boost := if booster controls then 3 # 2 else 0 in
                    g <- linearRampToValueAtTime (baseGain + boost) (now + (1 # 10)) (gain n) ;;
                    Ok (mkGain g)) (gainNodeRef h) ;;
      (* 3. EQ *)
      bassNode <- onCell (rampFilterGain ((bass controls - 50) / 2) (now + (1 # 10)))
                         (bassNodeRef h) ;;
      trebleNode <- onCell (rampFilterGain ((treble controls - 50) / 2) (now + (1 # 10)))
                           (trebleNodeRef h) ;;
      (* EQ Bands *)
      eqNodes <- forEachFrom (updateEqBand controls now) 0 (eqNodesRef h) ;;
      (* 4. Beautify & Mastered *)
      let compressorNode :=
        match compressorNodeRef h with
        | Some c =>
            if beautify controls || mastered controls then
              let ratio := if mastered controls then 20 else 12 in
              let threshold := if mastered controls then -20 else -24 in
              Some (mkCompressor threshold 30 ratio)
            else Some (mkCompressor 0 (knee c) 1)
        | None => None
        end in
      Ok (with_compressorNodeRef
            (with_eqNodesRef
               (with_trebleNodeRef
                  (with_bassNodeRef
                     (with_gainNodeRef (with_sources h srcs) gainNode)
                     bassNode)
                  trebleNode)
               eqNodes)
            compressorNode)
  end.

(** ** The transport *)

(** [sourceNodeRef.current.stop()] on the reader the cell points to. *)
Definition stopSource (p : nat) (h : Hook) : Result Hook :=
  srcs <- onSource sourceStop p (sources h) ;;
  Ok (with_sources h srcs).

(** [if (animationFrameRef.current) cancelAnimationFrame(animationFrameRef.current)] *)
Definition cancelPendingFrame (h : Hook) : Hook :=
  match animationFrameRef h with
  | Some handle => cancelAnimationFrame h handle
  | None => h
  end.

(** [stop()] *)
Definition stop (h : Hook) : Result Hook :=
  let h1 := match sourceNodeRef h with
            | Some p => with_sourceNodeRef (tryIgnore (stopSource p h) h) None
            | None => h
            end in
  let h2 := with_pauseTimeRef h1 0 in
  let h3 := setCurrentTime 0 (setIsPlaying false h2) in
  Ok (cancelPendingFrame h3).

(** [pause()]; [now] is its read of [audioContextRef.current.currentTime]. *)
Definition pause (now : Q) (h : Hook) : Result Hook :=
  match sourceNodeRef h, audioContextRef h with
  | Some p, Some _ =>
      h1 <- stopSource p h ;;
      let h2 := with_pauseTimeRef h1 (now - startTimeRef h1) in
      let h3 := setIsPlaying false h2 in
      Ok (cancelPendingFrame h3)
  | _, _ => Ok h
  end.

(** The closure [tick] that [play] makes; it holds the [cutStartTime] and
    [cutEndTime] of that call, and [now] is its read of
    [ctx.currentTime]. *)
Definition tick (cutStartTime cutEndTime now : Q) (h : Hook) : Result Hook :=
  match sourceNodeRef h with
  | None => Ok h
  | Some _ =>
      let current := now - startTimeRef h in
      if Qgeb current cutEndTime then
        h1 <- stop h ;;
        Ok (with_pauseTimeRef h1 cutStartTime)
      else
        Ok (requestAnimationFrame (setCurrentTime current h))
  end.

(** Lines 308 to 310 of [play]: where playback starts. *)
Definition startOffsetOf (pauseTime cutStartTime cutEndTime : Q) : Q :=
  let startOffset := pauseTime in
  let startOffset := if Qltb startOffset cutStartTime then cutStartTime else startOffset in
  let startOffset := if Qgeb startOffset cutEndTime then cutStartTime else startOffset in
  startOffset.

(** Whether the hook holds the node an identifier names. *)
Definition nodePresent (h : Hook) (n : NodeId) : bool :=
  match n with
  | NSource p => bool_decide (p < length (sources h))%nat
  | NEq i => bool_decide (i < length (eqNodesRef h))%nat
  | NBass => bool_decide (is_Some (bassNodeRef h))
  | NTreble => bool_decide (is_Some (trebleNodeRef h))
  | NCompressor => bool_decide (is_Some (compressorNodeRef h))
  | NRoomGain r => bool_decide (r < length (roomGains h))%nat
  | NReverb => bool_decide (is_Some (reverbNodeRef h))
  | NGain => bool_decide (is_Some (gainNodeRef h))
  | NAnalyser => bool_decide (is_Some (analyserNodeRef h))
  | NDestination => true
  end.

(** [a.current!.connect(b.current!)] *)
Definition connectNodes (a b : NodeId) (h : Hook) : Result Hook :=
  if nodePresent h a && nodePresent h b
  then Ok (with_connections h (connect a b (connections h)))
  else Raise TypeError.

(** [a.current?.disconnect()] *)
Definition disconnectNode (a : NodeId) (h : Hook) : Hook :=
  if nodePresent h a then with_connections h (disconnect a (connections h)) else h.

(** [eqNodesRef.current.forEach(node => node.disconnect())] *)
Definition disconnectEqNodes (h : Hook) : Hook :=
  foldl (fun h' i => disconnectNode (NEq i) h') h (seq 0 (length (eqNodesRef h))).

(** [eqNodesRef.current.forEach(node => { lastNode.connect(node); lastNode = node; })];
    returns the last node of the chain. *)
Definition chainEqNodes (lastNode : NodeId) (h : Hook) : Result (NodeId * Hook) :=
  foldl (fun acc i =>
           prev <- acc ;;
           h' <- connectNodes prev.1 (NEq i) prev.2 ;;
           Ok (NEq i, h'))
        (Ok (lastNode, h)) (seq 0 (length (eqNodesRef h))).

(** The three reads of [ctx.currentTime] that one call of [play] makes:
    in [updateParams], for [startTimeRef], and in the first [tick]. *)
Record PlayClock : Type := mkClock {
  atParams : Q;
  atStart : Q;
  atTick : Q
}.

(** [(controls.roomSize / 100) * (controls.fullRoom ? 1.0 : 0.5)] *)
Definition wetLevelOf (controls : AudioProcessorControls) : Q :=
  (roomSize controls / 100) * (if fullRoom controls then 1 else 1 # 2).

(** The part of [play] under [// Re-connect Graph]: the persistent nodes
    drop their connections and are chained again behind the new source
    reader [NSource p], with a new reverb send gain. *)
Definition reconnectGraph (p : nat) (controls : AudioProcessorControls) (h : Hook)
  : Result Hook :=
  let h := disconnectEqNodes h in
  let h := disconnectNode NBass h in
  let h := disconnectNode NTreble h in
  let h := disconnectNode NCompressor h in
  let h := disconnectNode NGain h in
  let h := disconnectNode NReverb h in
  chained <- chainEqNodes (NSource p) h ;;
  h <- connectNodes chained.1 NBass chained.2 ;;
  h <- connectNodes NBass NTreble h ;;
  h <- connectNodes NTreble NCompressor h ;;
  (* const roomGain = ctx.createGain(); .. *)
  let r := length (roomGains h) in
  let roomGain := mkGain (setValue (wetLevelOf controls) (gain createGain)) in
  let h := with_roomGains h (roomGains h ++ [roomGain]) in
  h <- connectNodes NCompressor (NRoomGain r) h ;;
  h <- connectNodes (NRoomGain r) NReverb h ;;
  h <- connectNodes NReverb NGain h ;;
  h <- connectNodes NCompressor NGain h ;;
  h <- connectNodes NGain NAnalyser h ;;
  connectNodes NAnalyser NDestination h.

(** [if (ctx.state === 'suspended') ctx.resume();] *)
Definition resumeContext (ctx : AudioContext) (h : Hook) : Hook :=
  match ctxState ctx with
  | suspended => with_audioContextRef h (Some (mkContext running (ctxSampleRate ctx)))
  | _ => h
  end.

(** The reader of the previous [play], when the cell still points to it,
    is stopped (whatever [stop()] throws is swallowed) and disconnected. *)
Definition detachPrevious (h : Hook) : Hook :=
  match sourceNodeRef h with
  | Some p =>
      let h' := tryIgnore (stopSource p h) h in
      with_connections h' (disconnect (NSource p) (connections h'))
  | None => h
  end.

(** [source.onended = () => { .. }] *)
Definition setOnended (s : AudioBufferSourceNode) : AudioBufferSourceNode :=
  mkSource (buffer s) (detune s) (started s) (stopped s) true.

(** [play(controls)] *)
Definition play (controls : AudioProcessorControls) (clk : PlayClock) (h : Hook)
  : Result Hook :=
  match audioContextRef h, audioBufferRef h with
  | Some ctx, Some audioBuffer =>
      let h := resumeContext ctx h in
      let h := detachPrevious h in
      (* const source = ctx.createBufferSource(); .. *)
      let p := length (sources h) in
      let detuneValue := (pitch controls - 50) * 24 in
      let source := mkSource (Some audioBuffer) (setValue detuneValue (detune createBufferSource))
                             None false false in
      let h := with_sourceNodeRef (with_sources h (sources h ++ [source])) (Some p) in
      let totalDuration := duration audioBuffer in
      let cutStartTime := (cutStart controls / 100) * totalDuration in
      let cutEndTime := (cutEnd controls / 100) * totalDuration in
      let startOffset := startOffsetOf (pauseTimeRef h) cutStartTime cutEndTime in
      h <- reconnectGraph p controls h ;;
      h <- updateParams controls (atParams clk) h ;;
      srcs <- onSource (sourceStart 0 startOffset (Math_max 0 (cutEndTime - startOffset)))
                       p (sources h) ;;
      let h := with_sources h srcs in
      let h := with_startTimeRef h (atStart clk - startOffset) in
      let h := setIsPlaying true h in
      h <- tick cutStartTime cutEndTime (atTick clk) h ;;
      (* source.onended = .. *)
      srcs <- onSource (fun s => Ok (setOnended s)) p (sources h) ;;
      Ok (with_sources h srcs)
  | _, _ => Ok h
  end.

(** [loadFile(file)] for a file that decodes to [decodedBuffer]. *)
Definition loadFile (decodedBuffer : AudioBuffer) (h : Hook) : Result Hook :=
  match audioContextRef h with
  | None => Ok h
  | Some _ =>
      h1 <- stop h ;;
      let h2 := with_audioBufferRef h1 (Some decodedBuffer) in
      let h3 := with_state h2 (mkState (isPlaying (state h2)) 0 (duration decodedBuffer)
                                       (analyser (state h2))) in
      Ok (with_pauseTimeRef h3 0)
  end.

(** ** The offline render *)

(** What [exportAudio] hands to [offlineCtx.startRendering()]: the offline
    context ([numberOfChannels], [length], [sampleRate]), its nodes and
    their connections. *)
Record OfflineRender : Type := mkOffline {
  offChannels : Z;
  offLength : Z;
  offSampleRate : Q;
  offSource : AudioBufferSourceNode;
  offBass : BiquadFilterNode;
  offTreble : BiquadFilterNode;
  offCompressor : DynamicsCompressorNode;
  offReverb : ConvolverNode;
  offRoomGain : GainNode;
  offMainGain : GainNode;
  offConnections : list Edge
}.

(** The conversion of a number to the [unsigned long] that the
    [OfflineAudioContext] constructor takes: truncated, modulo 2^32. *)
Definition toUnsignedLong (x : Q) : Z :=
  (Z.quot (Qnum x) (Zpos (Qden x)) mod 2 ^ 32)%Z.

(** [exportAudio(controls)].  The rendered buffer is what the platform
    computes from the [OfflineRender]; [null] is [None]. *)
Definition exportAudio (controls : AudioProcessorControls) (rnd : Rand) (h : Hook)
  : Result (option OfflineRender * Rand) :=
  match audioBufferRef h with
  | None => Ok (None, rnd)
  | Some audioBuffer =>
      let totalDuration := duration audioBuffer in
      let cutStartTime := (cutStart controls / 100) * totalDuration in
      let cutEndTime := (cutEnd controls / 100) * totalDuration in
      let renderDuration := cutEndTime - cutStartTime in
      (* Offline Context: a length of 0 frames is refused *)
      let length := toUnsignedLong (renderDuration * 44100) in
      if (length =? 0)%Z then Raise NotSupportedError else
      (* Recreate Graph in Offline Context *)
      let source := mkSource (Some audioBuffer)
                             (setValue ((pitch controls - 50) * 24) (detune createBufferSource))
                             None false false in
      let bass := mkBiquad lowshelf 200 (qFactor createBiquadFilter)
                    (setValue ((bass controls - 50) / 2) (filterGain createBiquadFilter)) in
      let treble := mkBiquad highshelf 3000 (qFactor createBiquadFilter)
                      (setValue ((treble controls - 50) / 2) (filterGain createBiquadFilter)) in
      let compressor :=
        if beautify controls
        then mkCompressor (-24) 30 12
        else mkCompressor 0 (knee createDynamicsCompressor) 1 in
      let (reverbBuffer, rnd') := createReverbBuffer 44100 2 rnd in
      let reverb := mkConvolver (Some reverbBuffer) in
      let roomGain := mkGain (setValue (wetLevelOf controls) (gain createGain)) in
      let mainGain := mkGain (setValue (if booster controls then 3 # 2 else 1)
                                       (gain createGain)) in
      (* Connect *)
      let es := connect (NSource 0) NBass [] in
      let es := connect NBass NTreble es in
      let es := connect NTreble NCompressor es in
      (* Reverb Path *)
      let es := connect NCompressor (NRoomGain 0) es in
      let es := connect (NRoomGain 0) NReverb es in
      let es := connect NReverb NGain es in
      (* Direct Path *)
      let es := connect NCompressor NGain es in
      let es := connect NGain NDestination es in
      (* Start *)
      source <- sourceStart 0 cutStartTime renderDuration source ;;
      Ok (Some (mkOffline 2 length 44100 source bass treble compressor reverb
                          roomGain mainGain es),
          rnd')
  end.

(** ** The WAV encoder *)

(** The bytes of [data], least significant first, as a [DataView] setter
    with [littleEndian = true] lays them out; only the low [8 * width]
    bits of [data] count. *)
Definition littleEndian (width : nat) (data : Z) : list Z :=
  map (fun k : nat => Z.land (Z.shiftr data (8 * Z.of_nat k)) 255) (seq 0 width).

Fixpoint writeBytes (at_ : nat) (bytes : list Z) (view : list Z) : list Z :=
  match bytes with
  | [] => view
  | b :: rest => writeBytes (S at_) rest (<[at_ := b]> view)
  end.

(** [view.setUint16], [view.setInt16] ([width] 2) and [view.setUint32]
    ([width] 4): a write that does not fit in the buffer is a
    [RangeError]. *)
Definition dataViewSet (width : nat) (byteOffset data : Z) (view : list Z)
  : Result (list Z) :=
  if ((0 <=? byteOffset) && (byteOffset + Z.of_nat width <=? Z.of_nat (length view)))%Z
  then Ok (writeBytes (Z.to_nat byteOffset) (littleEndian width data) view)
  else Raise RangeError.

(** [x | 0]: truncation toward zero, then wrap-around to 32 signed bits. *)
Definition toInt32 (x : Q) : Z :=
  ((Z.quot (Qnum x) (Zpos (Qden x)) + 2 ^ 31) mod 2 ^ 32 - 2 ^ 31)%Z.

(** Lines 507 and 508: the clamp and the scaling of one sample. *)
Definition clampSample (x : Q) : Q := Math_max (-1) (Math_min 1 x).

Definition encodeSample (x : Q) : Z :=
  let sample := clampSample x in
  toInt32 (if Qltb ((1 # 2) + sample) 0 then sample * 32768 else sample * 32767).

(** The local variables of [audioBufferToWav] that its loops and its two
    inner functions share. *)
Record WavWriter : Type := mkWriter {
  view : list Z;
  pos : Z;
  offset : Z
}.

Definition setUint16 (data : Z) (w : WavWriter) : Result WavWriter :=
  v <- dataViewSet 2 (pos w) data (view w) ;;
  Ok (mkWriter v (pos w + 2) (offset w)).

Definition setUint32 (data : Z) (w : WavWriter) : Result WavWriter :=
  v <- dataViewSet 4 (pos w) data (view w) ;;
  Ok (mkWriter v (pos w + 4) (offset w)).

(** [channels[i][pos]] after the clamp and the scaling; a sample that is
    not there reads [undefined], which the arithmetic turns into 0. *)
Definition sampleWord (b : AudioBuffer) (i : nat) (frame : Z) : Z :=
  match getChannelData b !! i with
  | Some channel =>
      match channel !! Z.to_nat frame with
      | Some x => if (0 <=? frame)%Z then encodeSample x else 0%Z
      | None => 0%Z
      end
  | None => 0%Z
  end.

(** The body of the [while] loop: one frame, channel after channel. *)
Definition writeFrame (b : AudioBuffer) (w : WavWriter) : Result WavWriter :=
  foldl (fun acc (i : nat) =>
           w' <- acc ;;
           v <- dataViewSet 2 (44 + offset w') (sampleWord b i (pos w')) (view w') ;;
           Ok (mkWriter v (pos w') (offset w' + 2)))
        (Ok w) (seq 0 (Z.to_nat (numberOfChannels b))).

(** [while (pos < buffer.length) { .. pos++ }], for at most [fuel] turns. *)
Fixpoint writeFrames (b : AudioBuffer) (fuel : nat) (w : WavWriter) : Result WavWriter :=
  match fuel with
  | O => Ok w
  | S rest =>
      if (pos w <? frameLength b)%Z then
        w' <- writeFrame b w ;;
        writeFrames b rest (mkWriter (view w') (pos w' + 1) (offset w'))
      else Ok w
  end.

(** [audioBufferToWav(buffer)]: the bytes of the [Blob]. *)
Definition audioBufferToWav (b : AudioBuffer) : Result (list Z) :=
  let numOfChan := numberOfChannels b in
  let length := (frameLength b * numOfChan * 2 + 44)%Z in
  if (length <? 0)%Z then Raise RangeError else
  let w := mkWriter (repeat 0%Z (Z.to_nat length)) 0 0 in
  (* write WAVE header *)
  w <- setUint32 0x46464952 w ;;
  w <- setUint32 (length - 8) w ;;
  w <- setUint32 0x45564157 w ;;
  w <- setUint32 0x20746d66 w ;;
  w <- setUint32 16 w ;;
  w <- setUint16 1 w ;;
  w <- setUint16 numOfChan w ;;
  w <- setUint32 (sampleRate b) w ;;
  w <- setUint32 (sampleRate b * 2 * numOfChan) w ;;
  w <- setUint16 (numOfChan * 2) w ;;
  w <- setUint16 16 w ;;
  w <- setUint32 0x61746164 w ;;
  w <- setUint32 (length - pos w - 4) w ;;
  (* write interleaved data *)
  w <- writeFrames b (Z.to_nat (frameLength b - pos w)) w ;;
  Ok (view w).

(** Reading the container back: the unsigned and the signed number that
    [width] bytes at [at_] hold, least significant byte first. *)
Fixpoint readUnsigned (width : nat) (at_ : nat) (bytes : list Z) : option Z :=
  match width with
  | O => Some 0%Z
  | S rest =>
      match bytes !! at_, readUnsigned rest (S at_) bytes with
      | Some lo, Some hi => Some (lo + 256 * hi)%Z
      | _, _ => None
      end
  end.

Definition readInt16 (at_ : nat) (bytes : list Z) : option Z :=
  match readUnsigned 2 at_ bytes with
  | Some u => Some (if (u <? 32768)%Z then u else u - 65536)%Z
  | None => None
  end.

(** ** Invariants and the wording of the specification *)

(** What the mount effect establishes and every operation keeps: the
    context and the persistent nodes exist, and the equalizer filters sit
    at [FREQS], in order. *)
Record initialised (h : Hook) : Prop := mkInitialised {
  init_context : is_Some (audioContextRef h);
  init_gain : is_Some (gainNodeRef h);
  init_bass : is_Some (bassNodeRef h);
  init_treble : is_Some (trebleNodeRef h);
  init_reverb : is_Some (reverbNodeRef h);
  init_compressor : is_Some (compressorNodeRef h);
  init_analyser : is_Some (analyserNodeRef h);
  init_frequencies : map frequency (eqNodesRef h) = FREQS
}.

(** [cutStartTime] and [cutEndTime] as [play] and [exportAudio] compute
    them. *)
Definition cutStartTimeOf (controls : AudioProcessorControls) (b : AudioBuffer) : Q :=
  (cutStart controls / 100) * duration b.
Definition cutEndTimeOf (controls : AudioProcessorControls) (b : AudioBuffer) : Q :=
  (cutEnd controls / 100) * duration b.

(** The sample encoding in the words of the specification: clamp, then
    scale a negative sample by 32768 and any other by 32767, then
    truncate. *)
Definition claimedSample (x : Q) : Z :=
  let sample := clampSample x in
  toInt32 (if Qltb sample 0 then sample * 32768 else sample * 32767).

(** Truncation toward zero. *)
Definition Qtrunc (x : Q) : Z := Z.quot (Qnum x) (Zpos (Qden x)).

(** The offline render without its reverb impulse. *)
Definition withoutImpulse (g : OfflineRender) : OfflineRender :=
  mkOffline (offChannels g) (offLength g) (offSampleRate g) (offSource g) (offBass g)
            (offTreble g) (offCompressor g) (mkConvolver None) (offRoomGain g)
            (offMainGain g) (offConnections g).

(** The first sample of the first channel of the reverb impulse. *)
Definition firstImpulseSample (g : OfflineRender) : option Q :=
  match impulse (offReverb g) with
  | Some ((x :: _) :: _) => Some x
  | _ => None
  end.

(** ** A session to run the model on

    An 8 kHz context, a one-second mono source, and a sequence of draws
    in [(0, 1/2]]. *)

Definition exDraws (n : N) : Q := 1 # N.succ_pos (N.succ n).
Definition exRand : Rand := mkRand exDraws 0.
Definition exContext : AudioContext := mkContext running 8000.
Definition exBuffer : AudioBuffer := mkBuffer 1 8000 8000 [repeat 0 (Z.to_nat 8000)].
Definition exMounted : Hook := (mount (Some exContext) exRand).1.
Definition exLoaded : Hook :=
  match loadFile exBuffer exMounted with
  | Ok h => h
  | Raise _ => exMounted
  end.
Definition exClock : PlayClock := mkClock 1 1 1.

(** The neutral controls of the page, with the first half of the source
    selected. *)
Definition exNeutral : AudioProcessorControls :=
  mkControls 50 false 30 false 50 50 true false (Some (repeat (Some 50) 23)) 0 50.

(** Booster and mastering on, beautify off, every band at the top. *)
Definition exMastered : AudioProcessorControls :=
  mkControls 50 true 30 false 50 50 false true (Some (repeat (Some 100) 23)) 0 50.

(** Only three bands given, the second one undefined. *)
Definition exShortBands : AudioProcessorControls :=
  mkControls 62 false 30 true 100 0 true false (Some [Some 70; None; Some 20]) 0 50.

(** An empty trim window. *)
Definition exEmptyWindow : AudioProcessorControls :=
  mkControls 50 false 30 false 50 50 true false (Some (repeat (Some 50) 23)) 40 40.

(** Forty-six frames of a mono buffer: a quarter below zero, except for
    the last one, at a quarter above. *)
Definition exQuiet : AudioBuffer :=
  mkBuffer 1 46 8000 [repeat (-1 # 4) 45 ++ [1 # 4]].

(** The session while it plays the neutral controls. *)
Definition exPlaying : Hook :=
  match play exNeutral exClock exLoaded with
  | Ok h => h
  | Raise _ => exLoaded
  end.

(** The playing session half a second later, when the poll runs again:
    [startTimeRef] is 1 and the window ends at 0.5 s. *)
Definition exPolled : Result Hook :=
  tick (cutStartTimeOf exNeutral exBuffer) (cutEndTimeOf exNeutral exBuffer) (3 # 2) exPlaying.

(** ** Closed forms used in the proofs *)

(** A parameter after an accepted [linearRampToValueAtTime(v, t)]. *)
Definition rampedTo (v t : Q) (p : AudioParam) : AudioParam :=
  mkParam (value p) ((v, t) :: ramps p).

Definition filterRampedTo (v t : Q) (n : BiquadFilterNode) : BiquadFilterNode :=
  mkBiquad (filterType n) (frequency n) (qFactor n) (rampedTo v t (filterGain n)).

Definition detuneRampedTo (v t : Q) (s : AudioBufferSourceNode) : AudioBufferSourceNode :=
  mkSource (buffer s) (rampedTo v t (detune s)) (started s) (stopped s) (onended s).

(** [onSource] for a method that returns. *)
Definition updateSource (f : AudioBufferSourceNode -> AudioBufferSourceNode)
    (p : nat) (srcs : list AudioBufferSourceNode) : list AudioBufferSourceNode :=
  match srcs !! p with
  | Some s => <[p := f s]> srcs
  | None => srcs
  end.

(** The callback of the band loop when its ramp is accepted. *)
Definition bandAfter (controls : AudioProcessorControls) (now : Q) (i : nat)
    (node : BiquadFilterNode) : BiquadFilterNode :=
  match eqBandAt controls i with
  | Some v => filterRampedTo ((v - 50) / 2) (now + (1 # 10)) node
  | None => node
  end.

Definition compressorAfter (controls : AudioProcessorControls)
    (c : DynamicsCompressorNode) : DynamicsCompressorNode :=
  if beautify controls || mastered controls
  then mkCompressor (if mastered controls then -20 else -24) 30
                    (if mastered controls then 20 else 12)
  else mkCompressor 0 (knee c) 1.

(** The hook after an [updateParams] none of whose ramps is refused; it
    is proved to be what [updateParams] returns in [updateParams_ok]. *)
Definition paramsAfter (controls : AudioProcessorControls) (now : Q) (h : Hook) : Hook :=
  match audioContextRef h with
  | None => h
  | Some _ =>
      let t := now + (1 # 10) in
      with_compressorNodeRef
        (with_eqNodesRef
           (with_trebleNodeRef
              (with_bassNodeRef
                 (with_gainNodeRef
                    (with_sources h
                       match sourceNodeRef h with
                       | Some p =>
                           updateSource (detuneRampedTo ((pitch controls - 50) * 24) t)
                                        p (sources h)
                       | None => sources h
                       end)
                    ((fun n => mkGain (rampedTo (1 + (if booster controls then 3 # 2 else 0))
                                                t (gain n))) <$> gainNodeRef h))
                 (filterRampedTo ((bass controls - 50) / 2) t <$> bassNodeRef h))
              (filterRampedTo ((treble controls - 50) / 2) t <$> trebleNodeRef h))
           (imap (bandAfter controls now) (eqNodesRef h)))
        (compressorAfter controls <$> compressorNodeRef h)
  end.

(** What [exportAudio] hands to the renderer, given the reverb impulse it
    generated; it is proved to be what [exportAudio] returns in
    [exportAudio_ok]. *)
Definition offlineRenderOf (controls : AudioProcessorControls) (audioBuffer : AudioBuffer)
    (reverbBuffer : list (list Q)) : OfflineRender :=
  let cutStartTime := cutStartTimeOf controls audioBuffer in
  let renderDuration := cutEndTimeOf controls audioBuffer - cutStartTime in
  mkOffline 2 (toUnsignedLong (renderDuration * 44100)) 44100
    (mkSource (Some audioBuffer) (param ((pitch controls - 50) * 24))
              (Some (0, cutStartTime, renderDuration)) false false)
    (mkBiquad lowshelf 200 1 (param ((bass controls - 50) / 2)))
    (mkBiquad highshelf 3000 1 (param ((treble controls - 50) / 2)))
    (if beautify controls then mkCompressor (-24) 30 12 else mkCompressor 0 30 1)
    (mkConvolver (Some reverbBuffer))
    (mkGain (param (wetLevelOf controls)))
    (mkGain (param (if booster controls then 3 # 2 else 1)))
    [(NSource 0, NBass); (NBass, NTreble); (NTreble, NCompressor);
     (NCompressor, NRoomGain 0); (NRoomGain 0, NReverb); (NReverb, NGain);
     (NCompressor, NGain); (NGain, NDestination)].

(** Two exports of the loaded source in a row, the second drawing where
    the first stopped. *)
Definition exRender1 : OfflineRender :=
  offlineRenderOf exNeutral exBuffer (createReverbBuffer 44100 2 exRand).1.
Definition exRand1 : Rand := (createReverbBuffer 44100 2 exRand).2.
Definition exRender2 : OfflineRender :=
  offlineRenderOf exNeutral exBuffer (createReverbBuffer 44100 2 exRand1).1.
Definition exRand2 : Rand := (createReverbBuffer 44100 2 exRand1).2.

(** The session while it plays with booster and mastering on. *)
Definition exMasteredPlaying : Hook :=
  match play exMastered exClock exLoaded with
  | Ok h => h
  | Raise _ => exLoaded
  end.

(** The first [n] 16-bit words of the data chunk of [v] each hold the
    encoding of a sample of [b]. *)
Definition wordsEncoded (b : AudioBuffer) (v : list Z) (n : Z) : Prop :=
  forall k, (0 <= k < n)%Z ->
    exists (i : nat) (frame : Z),
      (Z.of_nat i < numberOfChannels b)%Z /\ (0 <= frame < frameLength b)%Z /\
      readInt16 (Z.to_nat (44 + 2 * k)) v = Some (sampleWord b i frame).

(** [h'] is [h] with other connections: what rewiring the graph does to
    the hook. *)
Definition rewired (h h' : Hook) : Prop := exists es, h' = with_connections h es.

(** ** Closed forms for the container *)

(** The 44 bytes of the header that [audioBufferToWav] writes. *)
Definition headerBytes (b : AudioBuffer) : list Z :=
  let numOfChan := numberOfChannels b in
  let length := (frameLength b * numOfChan * 2 + 44)%Z in
  [82; 73; 70; 70]%Z                                 (* "RIFF" *)
    ++ littleEndian 4 (length - 8)
    ++ [87; 65; 86; 69]%Z                            (* "WAVE" *)
    ++ [102; 109; 116; 32]%Z                         (* "fmt " *)
    ++ littleEndian 4 16
    ++ littleEndian 2 1
    ++ littleEndian 2 numOfChan
    ++ littleEndian 4 (sampleRate b)
    ++ littleEndian 4 (sampleRate b * 2 * numOfChan)
    ++ littleEndian 2 (numOfChan * 2)
    ++ littleEndian 2 16
    ++ [100; 97; 116; 97]%Z                          (* "data" *)
    ++ littleEndian 4 (length - 40 - 4).

(** Three stereo frames at full scale. *)
Definition exShort : AudioBuffer :=
  mkBuffer 2 3 44100 [[1; -1; 1 # 2]; [-1; 1; -1 # 2]].

(** ** The callers of the hook *)

(** The handler that [play] leaves in [source.onended]; it runs when the
    platform reports that the reader has ended.  The handle it cancels
    may be [null], which cancels nothing. *)
Definition onendedHandler (h : Hook) : Hook :=
  cancelPendingFrame (setIsPlaying false h).

(** [togglePlayback] of the page: [controls] are its [currentControls],
    [clk] and [now] the clock reads of the call it makes. *)
Definition togglePlayback (controls : AudioProcessorControls) (clk : PlayClock) (now : Q)
    (h : Hook) : Result Hook :=
  if isPlaying (state h) then pause now h else play controls clk h.

(** What can happen to a mounted hook: a call from the page, a run of a
    poll that some [play] requested (with the window of that [play]), or
    the end of a reader. *)
Inductive Call : Type :=
| CallLoadFile (decodedBuffer : AudioBuffer)
| CallUpdateParams (controls : AudioProcessorControls) (now : Q)
| CallPlay (controls : AudioProcessorControls) (clk : PlayClock)
| CallPause (now : Q)
| CallStop
| CallToggle (controls : AudioProcessorControls) (clk : PlayClock) (now : Q)
| RunTick (cutStartTime cutEndTime now : Q)
| ReaderEnded.

Definition call (c : Call) (h : Hook) : Result Hook :=
  match c with
  | CallLoadFile decodedBuffer => loadFile decodedBuffer h
  | CallUpdateParams controls now => updateParams controls now h
  | CallPlay controls clk => play controls clk h
  | CallPause now => pause now h
  | CallStop => stop h
  | CallToggle controls clk now => togglePlayback controls clk now h
  | RunTick cutStartTime cutEndTime now => tick cutStartTime cutEndTime now h
  | ReaderEnded => Ok (onendedHandler h)
  end.

Fixpoint run (calls : list Call) (h : Hook) : Result Hook :=
  match calls with
  | [] => Ok h
  | c :: rest => h' <- call c h ;; run rest h'
  end.

(** The calls of a page whose clock, trim start and decoded durations
    are not negative. *)
Definition admissible (c : Call) : Prop :=
  match c with
  | CallLoadFile decodedBuffer => 0 <= duration decodedBuffer
  | CallUpdateParams _ now => 0 <= now
  | CallPlay controls clk | CallToggle controls clk _ =>
      0 <= cutStart controls /\ 0 <= atParams clk
  | CallPause _ | CallStop | RunTick _ _ _ | ReaderEnded => True
  end.

(** ** Closed forms for the transport *)

(** A reader that was started and has not been stopped: the platform
    plays it. *)
Definition sounding (s : AudioBufferSourceNode) : bool :=
  match started s with
  | Some _ => negb (stopped s)
  | None => false
  end.

(** The store of readers after a swallowed [stop()] on reader [p]: a
    reader that was started is stopped, and any other case leaves the
    store as it was. *)
Definition haltReader (p : nat) (srcs : list AudioBufferSourceNode)
  : list AudioBufferSourceNode :=
  match srcs !! p with
  | Some s =>
      match started s with
      | Some _ => <[p := mkSource (buffer s) (detune s) (started s) true (onended s)]> srcs
      | None => srcs
      end
  | None => srcs
  end.

(** The context, the readers and the connections after the first lines
    of [play], proved to be so in [prologue_exact]. *)
Definition resumedContext (ctx : AudioContext) : AudioContext :=
  match ctxState ctx with
  | suspended => mkContext running (ctxSampleRate ctx)
  | _ => ctx
  end.

Definition detachedSources (h : Hook) : list AudioBufferSourceNode :=
  match sourceNodeRef h with
  | Some p => haltReader p (sources h)
  | None => sources h
  end.

Definition detachedConnections (h : Hook) : list Edge :=
  match sourceNodeRef h with
  | Some p => disconnect (NSource p) (connections h)
  | None => connections h
  end.

(** The connections after the part of [play] under [// Re-connect
    Graph], for [n] equalizer filters, the new reader [p] and the new
    reverb send gain [r]; proved to be so in [reconnectGraph_exact]. *)
Definition disconnectEq (n : nat) (es : list Edge) : list Edge :=
  foldl (fun es i => disconnect (NEq i) es) es (seq 0 n).

Definition chainEq (lastNode : NodeId) (n : nat) (es : list Edge) : NodeId * list Edge :=
  foldl (fun acc i => (NEq i, connect acc.1 (NEq i) acc.2)) (lastNode, es) (seq 0 n).

Definition rewire (p r n : nat) (es : list Edge) : list Edge :=
  let es := disconnectEq n es in
  let es := disconnect NBass es in
  let es := disconnect NTreble es in
  let es := disconnect NCompressor es in
  let es := disconnect NGain es in
  let es := disconnect NReverb es in
  let chained := chainEq (NSource p) n es in
  let es := connect chained.1 NBass chained.2 in
  let es := connect NBass NTreble es in
  let es := connect NTreble NCompressor es in
  let es := connect NCompressor (NRoomGain r) es in
  let es := connect (NRoomGain r) NReverb es in
  let es := connect NReverb NGain es in
  let es := connect NCompressor NGain es in
  let es := connect NGain NAnalyser es in
  connect NAnalyser NDestination es.

(** The hook when [play] reaches its first [tick()]; proved to be so in
    [play_closed]. *)
Definition playStarted (controls : AudioProcessorControls) (clk : PlayClock)
    (ctx : AudioContext) (audioBuffer : AudioBuffer) (h : Hook) : Hook :=
  let t := atParams clk + (1 # 10) in
  let detuneValue := (pitch controls - 50) * 24 in
  let cutStartTime := cutStartTimeOf controls audioBuffer in
  let cutEndTime := cutEndTimeOf controls audioBuffer in
  let startOffset := startOffsetOf (pauseTimeRef h) cutStartTime cutEndTime in
  let source := mkSource (Some audioBuffer) (rampedTo detuneValue t (param detuneValue))
                         (Some (0, startOffset, Math_max 0 (cutEndTime - startOffset)))
                         false false in
  mkHook (mkState true (currentTime (state h)) (stateDuration (state h)) (analyser (state h)))
         (Some (resumedContext ctx))
         (Some (length (sources h)))
         ((fun n => mkGain (rampedTo (1 + (if booster controls then 3 # 2 else 0)) t (gain n)))
            <$> gainNodeRef h)
         (filterRampedTo ((bass controls - 50) / 2) t <$> bassNodeRef h)
         (filterRampedTo ((treble controls - 50) / 2) t <$> trebleNodeRef h)
         (reverbNodeRef h)
         (compressorAfter controls <$> compressorNodeRef h)
         (analyserNodeRef h)
         (imap (bandAfter controls (atParams clk)) (eqNodesRef h))
         (Some audioBuffer)
         (atStart clk - startOffset)
         (pauseTimeRef h)
         (animationFrameRef h)
         (detachedSources h ++ [source])
         (roomGains h ++ [mkGain (param (wetLevelOf controls))])
         (rewire (length (sources h)) (length (roomGains h)) (length (eqNodesRef h))
                 (detachedConnections h))
         (pendingFrames h)
         (nextFrame h).

(** The signal path that [play] builds for [n] equalizer filters. *)
Definition chainEnd (lastNode : NodeId) (n : nat) : NodeId :=
  match n with
  | O => lastNode
  | S m => NEq m
  end.

Definition chainLinks (lastNode : NodeId) (n : nat) : list Edge :=
  match n with
  | O => []
  | S m => (lastNode, NEq 0) :: map (fun i => (NEq i, NEq (S i))) (seq 0 m)
  end.

Definition signalPath (p r n : nat) : list Edge :=
  chainLinks (NSource p) n
    ++ [(chainEnd (NSource p) n, NBass); (NBass, NTreble); (NTreble, NCompressor);
        (NCompressor, NRoomGain r); (NRoomGain r, NReverb); (NReverb, NGain);
        (NCompressor, NGain); (NGain, NAnalyser); (NAnalyser, NDestination)].

(** The nodes whose earlier connections [play] leaves alone: every node
    but the reader of the previous [play], the [n] equalizer filters and
    the five persistent nodes it disconnects. *)
Definition keepsEdges (previous : option nat) (n : nat) (a : NodeId) : bool :=
  match a with
  | NSource q => bool_decide (previous <> Some q)
  | NEq i => bool_decide (n <= i)%nat
  | NBass | NTreble | NCompressor | NGain | NReverb => false
  | NRoomGain _ | NAnalyser | NDestination => true
  end.

(** The frames still pending after
    [if (animationFrameRef.current) cancelAnimationFrame(..)]. *)
Definition cancelled (h : Hook) : list nat :=
  match animationFrameRef h with
  | Some handle => filter (fun f => f <> handle) (pendingFrames h)
  | None => pendingFrames h
  end.

(** The hook after [stop()], proved to be so in [stop_exact]. *)
Definition stopResult (h : Hook) : Hook :=
  mkHook (mkState false 0 (stateDuration (state h)) (analyser (state h)))
         (audioContextRef h) None (gainNodeRef h) (bassNodeRef h) (trebleNodeRef h)
         (reverbNodeRef h) (compressorNodeRef h) (analyserNodeRef h) (eqNodesRef h)
         (audioBufferRef h) (startTimeRef h) 0 (animationFrameRef h)
         (detachedSources h) (roomGains h) (connections h) (cancelled h) (nextFrame h).

(** The hook after a [pause()] that finds a reader and a context,
    proved to be so in [pause_exact]. *)
Definition pauseResult (now : Q) (h : Hook) : Hook :=
  mkHook (mkState false (currentTime (state h)) (stateDuration (state h))
                  (analyser (state h)))
         (audioContextRef h) (sourceNodeRef h) (gainNodeRef h) (bassNodeRef h)
         (trebleNodeRef h) (reverbNodeRef h) (compressorNodeRef h) (analyserNodeRef h)
         (eqNodesRef h) (audioBufferRef h) (startTimeRef h) (now - startTimeRef h)
         (animationFrameRef h) (detachedSources h) (roomGains h) (connections h)
         (cancelled h) (nextFrame h).

(** The hook after a run of the poll, proved to be so in [tick_exact]. *)
Definition tickResult (cutStartTime cutEndTime now : Q) (h : Hook) : Hook :=
  match sourceNodeRef h with
  | None => h
  | Some _ =>
      if Qgeb (now - startTimeRef h) cutEndTime
      then with_pauseTimeRef (stopResult h) cutStartTime
      else requestAnimationFrame (setCurrentTime (now - startTimeRef h) h)
  end.

(** The hook after [play], proved to be so in [play_exact]. *)
Definition playResult (controls : AudioProcessorControls) (clk : PlayClock)
    (ctx : AudioContext) (audioBuffer : AudioBuffer) (h : Hook) : Hook :=
  let h2 := tickResult (cutStartTimeOf controls audioBuffer) (cutEndTimeOf controls audioBuffer)
                       (atTick clk) (playStarted controls clk ctx audioBuffer h) in
  with_sources h2 (updateSource setOnended (length (sources h)) (sources h2)).

(** The hook after [loadFile], proved to be so in [loadFile_exact]. *)
Definition loadResult (decodedBuffer : AudioBuffer) (h : Hook) : Hook :=
  mkHook (mkState false 0 (duration decodedBuffer) (analyser (state h)))
         (audioContextRef h) None (gainNodeRef h) (bassNodeRef h) (trebleNodeRef h)
         (reverbNodeRef h) (compressorNodeRef h) (analyserNodeRef h) (eqNodesRef h)
         (Some decodedBuffer) (startTimeRef h) 0 (animationFrameRef h)
         (detachedSources h) (roomGains h) (connections h) (cancelled h) (nextFrame h).

(** What a reader, a filter and a gain are at this instant, the ramps
    scheduled on their parameters left out. *)
Definition readerNow (s : AudioBufferSourceNode)
  : option AudioBuffer * Q * option (Q * Q * Q) * bool * bool :=
  (buffer s, value (detune s), started s, stopped s, onended s).

Definition filterNow (n : BiquadFilterNode) : BiquadFilterType * Q * Q * Q :=
  (filterType n, frequency n, qFactor n, value (filterGain n)).

(** ** The invariant of a session *)

(** What holds from the mount effect on, whatever is called: the nodes
    are there, the reader in the cell was started, no other reader is
    sounding, and a decoded source has a duration that is not negative. *)
Record sane (h : Hook) : Prop := mkSane {
  sane_initialised : initialised h;
  sane_cell : forall p, sourceNodeRef h = Some p ->
                exists s, sources h !! p = Some s /\ is_Some (started s);
  sane_one : forall q s, sources h !! q = Some s -> sounding s = true ->
               sourceNodeRef h = Some q;
  sane_duration : forall b, audioBufferRef h = Some b -> 0 <= duration b
}.

(** ** A session of the page *)

(** Load, play, move a slider, pause, resume, let the poll reach the end
    of the window, let the reader end, stop. *)
Definition exCalls : list Call :=
  [CallLoadFile exBuffer; CallPlay exNeutral exClock; CallUpdateParams exMastered 2;
   CallPause 2; CallToggle exNeutral (mkClock 3 3 3) 3; RunTick 0 (1 # 2) 5;
   ReaderEnded; CallStop].

(** ** The page: the trim input, the time display, the export button *)

Import String.StringSyntax Ascii.AsciiSyntax.
Delimit Scope char_scope with char.
Delimit Scope string_scope with string.

(** The part of the state of [Home] that the trim input writes. *)
Record HomeState : Type := mkHome {
  cutInput : String.string;
  cutRange : Q * Q
}.

(** [\d] *)
Definition isDigit (c : Ascii.ascii) : bool :=
  ((48 <=? Ascii.N_of_ascii c) && (Ascii.N_of_ascii c <=? 57))%N.

(** The longest run of digits at the head of a string, and the rest. *)
Fixpoint takeDigits (s : String.string) : String.string * String.string :=
  match s with
  | String.EmptyString => (String.EmptyString, String.EmptyString)
  | String.String c rest =>
      if isDigit c
      then (String.String c (takeDigits rest).1, (takeDigits rest).2)
      else (String.EmptyString, s)
  end.

(** [(\d+)] followed by the literal [sep], or by the end of the input
    when there is no [sep]: the group and what is left to match.  The
    character after the group is not a digit, so the group can only be
    the longest run of digits. *)
Definition digitsThen (sep : option Ascii.ascii) (s : String.string)
  : option (String.string * String.string) :=
  match (takeDigits s).1 with
  | String.EmptyString => None
  | digits =>
      match sep, (takeDigits s).2 with
      | Some c, String.String c' rest => if Ascii.eqb c c' then Some (digits, rest) else None
      | None, String.EmptyString => Some (digits, String.EmptyString)
      | _, _ => None
      end
  end.

(** [val.match(/^(\d+):(\d+)-(\d+):(\d+)$/)]: the four groups of a
    match. *)
Definition matchCut (val : String.string)
  : option (String.string * String.string * String.string * String.string) :=
  match digitsThen (Some ":"%char) val with
  | Some (g1, r1) =>
      match digitsThen (Some "-"%char) r1 with
      | Some (g2, r2) =>
          match digitsThen (Some ":"%char) r2 with
          | Some (g3, r3) =>
              match digitsThen None r3 with
              | Some (g4, _) => Some (g1, g2, g3, g4)
              | None => None
              end
          | None => None
          end
      | None => None
      end
  | None => None
  end.

(** [parseInt] on a run of decimal digits, which is all that the groups
    of the match can hold. *)
Definition digitValue (c : Ascii.ascii) : N := (Ascii.N_of_ascii c - 48)%N.

Fixpoint parseDigits (acc : N) (s : String.string) : N :=
  match s with
  | String.EmptyString => acc
  | String.String c rest => parseDigits (10 * acc + digitValue c) rest
  end.

Definition parseInt (digits : String.string) : Q :=
  inject_Z (Z.of_N (parseDigits 0 digits)).

(** [handleCutInputChange]; [duration] is [processor.state.duration]. *)
Definition handleCutInputChange (val : String.string) (duration : Q) (st : HomeState)
  : HomeState :=
  let st := mkHome val (cutRange st) in
  match matchCut val with
  | Some (g1, g2, g3, g4) =>
      if Qltb 0 duration then
        let startMin := parseInt g1 in
        let startSec := parseInt g2 in
        let endMin := parseInt g3 in
        let endSec := parseInt g4 in
        let startTime := startMin * 60 + startSec in
        let endTime := endMin * 60 + endSec in
        if Qltb startTime endTime && Qle_bool endTime duration then
          let startPct := (startTime / duration) * 100 in
          let endPct := (endTime / duration) * 100 in
          mkHome (cutInput st) (startPct, endPct)
        else st
      else st
  | None => st
  end.

(** [handlePitchInputChange] of the controller; [parsed] is what
    [parseInt(e.target.value)] returned, [None] for [NaN].  The new
    controls are what [updateValue("pitch", val)] hands to [onChange]. *)
Definition handlePitchInputChange (parsed : option Q) (values : AudioProcessorControls)
  : AudioProcessorControls :=
  let val := match parsed with
             | Some v => v
             | None => 0
             end in
  let val := if Qltb val 0 then 0 else val in
  let val := if Qltb 100 val then 100 else val in
  mkControls val (booster values) (roomSize values) (fullRoom values)
             (bass values) (treble values) (beautify values) (mastered values)
             (eqBands values) (cutStart values) (cutEnd values).

(** [currentControls]: the controls of the page with its trim range. *)
Definition currentControls (controls : AudioProcessorControls) (st : HomeState)
  : AudioProcessorControls :=
  mkControls (pitch controls) (booster controls) (roomSize controls) (fullRoom controls)
             (bass controls) (treble controls) (beautify controls) (mastered controls)
             (eqBands controls) (cutRange st).1 (cutRange st).2.

(** The decimal digits of an integer, as [toString] and template
    literals give them for integers below 10^21. *)
Definition digitChar (d : N) : Ascii.ascii := Ascii.ascii_of_N (48 + d).

Fixpoint digitsOf (fuel : nat) (n : N) : String.string :=
  match fuel with
  | O => String.EmptyString
  | S rest =>
      if (n <? 10)%N then String.String (digitChar n) String.EmptyString
      else String.append (digitsOf rest (n / 10))
                         (String.String (digitChar (n mod 10)) String.EmptyString)
  end.

Definition toString (z : Z) : String.string :=
  if (z <? 0)%Z
  then String.String "-"%char (digitsOf (S (Z.to_nat (- z))) (Z.to_N (- z)))
  else digitsOf (S (Z.to_nat z)) (Z.to_N z).

(** [s.padStart(2, '0')] *)
Definition padStart2 (s : String.string) : String.string :=
  match s with
  | String.EmptyString => String.String "0"%char (String.String "0"%char String.EmptyString)
  | String.String c String.EmptyString => String.String "0"%char s
  | _ => s
  end.

(** [a % b] on numbers: the remainder has the sign of [a]. *)
Definition Qrem (a b : Q) : Q := a - b * inject_Z (Qtrunc (a / b)).

(** [formatTime(seconds)] *)
Definition formatTime (seconds : Q) : String.string :=
  let m := Qfloor (seconds / 60) in
  let s := Qfloor (Qrem seconds 60) in
  String.append (toString m) (String.String ":"%char (padStart2 (toString s))).




(** ** The visualizers *)

(** A [fillRect(x, y, w, h)] on the canvas, with the [fillStyle] it is
    drawn in: [hsl(hue, saturation%, lightness%)], or [hsla(..)] with its
    [alpha]. *)
Record FillRect : Type := mkFillRect {
  fillHue : Q;
  fillSaturation : Q;
  fillLightness : Q;
  fillAlpha : Q;
  rectX : Q;
  rectY : Q;
  rectWidth : Q;
  rectHeight : Q
}.

(** *** The frequency waterfall of [FrequencyVisualizer] *)

Definition maxHistory : nat := 100.

(** The frame that [draw] reads from the analyser data: the first
    [Math.min(bufferLength, height)] bins, [dataArray[i] || 0] each. *)
Definition currentFrameOf (dataArray : list Z) (bufferLength height : Z) : list Z :=
  map (fun i => match dataArray !! i with
                | Some v => v
                | None => 0%Z
                end)
      (seq 0 (Z.to_nat (Z.min bufferLength height))).

(** [historyBuffer.push(currentFrame)], then
    [if (historyBuffer.length > maxHistory) historyBuffer.shift()]. *)
Definition pushFrame (currentFrame : list Z) (historyBuffer : list (list Z))
  : list (list Z) :=
  let historyBuffer := historyBuffer ++ [currentFrame] in
  if (maxHistory <? length historyBuffer)%nat then tail historyBuffer else historyBuffer.

(** The cells that the two nested [forEach] of [draw] fill, in order. *)
Definition waterfall (width height : Q) (historyBuffer : list (list Z)) : list FillRect :=
  let cellWidth := width / inject_Z (Z.of_nat (length historyBuffer)) in
  concat
    (imap (fun historyIdx frame =>
             let xPos := (inject_Z (Z.of_nat historyIdx)
                          / inject_Z (Z.of_nat (length historyBuffer))) * width in
             imap (fun freqIdx freqValue =>
                     let yPos := height - (inject_Z (Z.of_nat freqIdx)
                                           / inject_Z (Z.of_nat (length frame))) * height in
                     let cellHeight := height / inject_Z (Z.of_nat (length frame)) in
                     let intensity := inject_Z freqValue / 255 in
                     let hue := 200 + intensity * 80 in
                     let lightness := 40 + intensity * 30 in
                     mkFillRect hue 100 lightness 1 xPos (yPos - cellHeight)
                                cellWidth cellHeight)
                  frame)
          historyBuffer).

(** *** The spectrum bars of [Visualizer] *)

(** The loop over the bins: bin [i] is drawn at [x] as a bar above the
    centre line and its reflection below, and [x] moves on by
    [barWidth + 1].  [wobble] is [Math.sin(hueOffset * 0.01) * 20]. *)
Fixpoint barsFrom (bufferLength barWidth height wobble : Q) (i : nat) (x : Q)
    (data : list Z) : list FillRect :=
  match data with
  | [] => []
  | v :: rest =>
      let barHeight := (inject_Z v / 255) * (height / 2) in
      let hue := 210 + (inject_Z (Z.of_nat i) / bufferLength) * 60 + wobble in
      let centerY := height / 2 in
      mkFillRect hue 90 60 1 x (centerY - barHeight) barWidth barHeight
        :: mkFillRect hue 90 60 (1 # 2) x centerY barWidth barHeight
        :: barsFrom bufferLength barWidth height wobble (S i) (x + (barWidth + 1)) rest
  end.

(** The branch of [draw] that has an analyser: [dataArray] is what
    [getByteFrequencyData] has written, [sin] is [Math.sin], and
    [hueOffset] the value before this frame. *)
Definition drawBars (sin : Q -> Q) (width height hueOffset : Q) (dataArray : list Z)
  : list FillRect * Q :=
  let bufferLength := inject_Z (Z.of_nat (length dataArray)) in
  let barWidth := (width / bufferLength) * (5 # 2) in
  let hueOffset := hueOffset + (1 # 2) in
  (barsFrom bufferLength barWidth height (sin (hueOffset * (1 # 100)) * 20) 0 0 dataArray,
   hueOffset).

(** ** More inputs for the examples *)

(** Every band at a value of its own: band [k] at [4 * k]. *)
Definition exGraphic : AudioProcessorControls :=
  mkControls 75 false 30 false 80 20 true false
    (Some (map (fun k : nat => Some (inject_Z (4 * Z.of_nat k))) (seq 0 23))) 0 50.




(** Another engine, seven draws into its sequence, that is about to hand
    out the draws of [exRand]. *)
Definition exReplay : Rand := mkRand (fun n => exDraws (n - 7)) 7.

(** ** The trim window in binary64

    The numbers of the hook are IEEE 754 doubles, and every operation on
    them rounds.  The definitions above compute with exact rationals, so
    a statement about them is a statement about the hook where it takes
    a comparison as the hook evaluates it, and where rounding cannot
    change what it derives.  Rounding does decide two comparisons of
    [play]: whether [cutStartTime < cutEndTime] for two percentages that
    are close, and whether the position that the first poll computes has
    reached [cutEndTime].  These are the lines of [play] that compute
    them, with the operations of binary64, and the length of the render
    and the columns of the waterfall, whose last digit rounding decides
    too. *)
Module Binary64.

Import PrimFloat SpecFloat.

(** [(percent / 100) * totalDuration], lines 305 and 306. *)
Definition cutTimeOf (percent totalDuration : float) : float :=
  ((percent / 100) * totalDuration)%float.

(** Lines 308 to 310. *)
Definition startOffsetOf (pauseTime cutStartTime cutEndTime : float) : float :=
  let startOffset := pauseTime in
  let startOffset :=
    if (startOffset <? cutStartTime)%float then cutStartTime else startOffset in
  let startOffset :=
    if (cutEndTime <=? startOffset)%float then cutStartTime else startOffset in
  startOffset.

(** [startTimeRef.current = ctx.currentTime - startOffset], and then, in
    [tick] and in [pause], [ctx.currentTime - startTimeRef.current]. *)
Definition positionOf (startOffset atStart now : float) : float :=
  let startTimeRef := (atStart - startOffset)%float in
  (now - startTimeRef)%float.

(** [current >= cutEndTime], the test under which [tick] calls [stop()]. *)
Definition reachedEnd (current cutEndTime : float) : bool :=
  (cutEndTime <=? current)%float.

(** [renderDuration * 44100], the length that [exportAudio] asks the
    offline context for. *)
Definition renderLengthOf (cutStart cutEnd totalDuration : float) : float :=
  let cutStartTime := cutTimeOf cutStart totalDuration in
  let cutEndTime := cutTimeOf cutEnd totalDuration in
  let renderDuration := (cutEndTime - cutStartTime)%float in
  (renderDuration * 44100)%float.

(** [cellWidth] and [xPos] of the waterfall. *)
Definition cellWidthOf (width historyLength : float) : float :=
  (width / historyLength)%float.
Definition xPosOf (width historyLength historyIdx : float) : float :=
  ((historyIdx / historyLength) * width)%float.

(** A double that is a number, not NaN: it compares equal to itself. *)
Definition number (x : float) : Prop := (x =? x)%float = true.

(** The place of a number in the order of the doubles: its sign class,
    then its exponent and its mantissa, negated below zero. *)
Definition rank (x : spec_float) : Z * Z * Z :=
  match x with
  | S754_nan => (0, 0, 0)%Z
  | S754_zero _ => (0, 0, 0)%Z
  | S754_infinity s => ((if s then -2 else 2), 0, 0)%Z
  | S754_finite s m e => if s then (-1, - e, - Zpos m)%Z else (1, e, Zpos m)%Z
  end.

Definition lexCompare (a b : Z * Z * Z) : comparison :=
  match (a.1.1 ?= b.1.1)%Z with
  | Eq => match (a.1.2 ?= b.1.2)%Z with
          | Eq => (a.2 ?= b.2)%Z
          | c => c
          end
  | c => c
  end.

Definition lexLe (a b : Z * Z * Z) : Prop :=
  (a.1.1 < b.1.1 \/ (a.1.1 = b.1.1 /\ (a.1.2 < b.1.2 \/ (a.1.2 = b.1.2 /\ a.2 <= b.2))))%Z.
Definition lexLt (a b : Z * Z * Z) : Prop :=
  (a.1.1 < b.1.1 \/ (a.1.1 = b.1.1 /\ (a.1.2 < b.1.2 \/ (a.1.2 = b.1.2 /\ a.2 < b.2))))%Z.

End Binary64.

(** * Properties *)

(** ** Numbers *)

Lemma Qltb_lt (x y : Q) : Qltb x y = true <-> x < y.
Proof.
  unfold Qltb. rewrite negb_true_iff, <- not_true_iff_false, Qle_bool_iff.
  split; [apply Qnot_le_lt | apply Qlt_not_le].
Qed.

Lemma Qltb_ge (x y : Q) : Qltb x y = false <-> y <= x.
Proof. unfold Qltb. rewrite negb_false_iff. apply Qle_bool_iff. Qed.

Lemma Qgeb_ge (x y : Q) : Qgeb x y = true <-> y <= x.
Proof. apply Qle_bool_iff. Qed.

Lemma Qgeb_lt (x y : Q) : Qgeb x y = false <-> x < y.
Proof.
  unfold Qgeb. rewrite <- not_true_iff_false, Qle_bool_iff.
  split; [apply Qnot_le_lt | apply Qlt_not_le].
Qed.

(** ** The parameter mapper *)

Lemma linearRamp_ok (v t : Q) (p : AudioParam) :
  0 <= t -> linearRampToValueAtTime v t p = Ok (rampedTo v t p).
Proof.
  intros Ht. unfold linearRampToValueAtTime.
  now rewrite (proj2 (Qltb_ge t 0) Ht).
Qed.

Lemma ramp_time_nonneg (now : Q) : 0 <= now -> 0 <= now + (1 # 10).
Proof. intros H. lra. Qed.

Lemma rampFilterGain_ok (v t : Q) (n : BiquadFilterNode) :
  0 <= t -> rampFilterGain v t n = Ok (filterRampedTo v t n).
Proof. intros Ht. unfold rampFilterGain. now rewrite linearRamp_ok. Qed.

Lemma rampDetune_ok (v t : Q) (s : AudioBufferSourceNode) :
  0 <= t -> rampDetune v t s = Ok (detuneRampedTo v t s).
Proof. intros Ht. unfold rampDetune. now rewrite linearRamp_ok. Qed.

Lemma updateEqBand_ok controls now i node :
  0 <= now -> updateEqBand controls now i node = Ok (bandAfter controls now i node).
Proof.
  intros Hnow. unfold updateEqBand, bandAfter.
  destruct (eqBandAt controls i); [|reflexivity].
  apply rampFilterGain_ok, ramp_time_nonneg, Hnow.
Qed.

Lemma forEachFrom_ok {A : Type} (f : nat -> A -> Result A) (g : nat -> A -> A) :
  (forall i x, f i x = Ok (g i x)) ->
  forall l first, forEachFrom f first l = Ok (imap (fun i => g (first + i)%nat) l).
Proof.
  intros Hf. induction l as [|x l IH]; intros first; simpl; [reflexivity|].
  rewrite Hf, IH. simpl. rewrite Nat.add_0_r. do 2 f_equal.
  apply imap_ext. intros i y _. simpl. f_equal. lia.
Qed.

Lemma onSource_ok f g p srcs :
  (forall s, srcs !! p = Some s -> f s = Ok (g s)) ->
  onSource f p srcs = Ok (updateSource g p srcs).
Proof.
  intros Hf. unfold onSource, updateSource.
  destruct (srcs !! p) as [s|]; [|reflexivity].
  now rewrite (Hf s eq_refl).
Qed.

Lemma onCell_ok {A : Type} (f : A -> Result A) (g : A -> A) (cell : option A) :
  (forall a, f a = Ok (g a)) -> onCell f cell = Ok (g <$> cell).
Proof. intros Hf. destruct cell as [a|]; simpl; [now rewrite Hf | reflexivity]. Qed.

Lemma updateParams_ok controls now h :
  0 <= now -> updateParams controls now h = Ok (paramsAfter controls now h).
Proof.
  intros Hnow. pose proof (ramp_time_nonneg now Hnow) as Ht.
  unfold updateParams, paramsAfter.
  destruct (audioContextRef h) as [ctx|]; [|reflexivity].
  assert (Hsrc : match sourceNodeRef h with
                 | Some p => onSource (rampDetune ((pitch controls - 50) * 24) (now + (1 # 10)))
                                      p (sources h)
                 | None => Ok (sources h)
                 end
                 = Ok match sourceNodeRef h with
                      | Some p => updateSource (detuneRampedTo ((pitch controls - 50) * 24)
                                                               (now + (1 # 10))) p (sources h)
                      | None => sources h
                      end).
  { destruct (sourceNodeRef h) as [p|]; [|reflexivity].
    apply onSource_ok. intros s _. now apply rampDetune_ok. }
  rewrite Hsrc. cbn [bind].
  rewrite (onCell_ok _ (fun n => mkGain (rampedTo (1 + (if booster controls then 3 # 2 else 0))
                                                   (now + (1 # 10)) (gain n)))).
  2:{ intros n. now rewrite linearRamp_ok. }
  cbn [bind].
  rewrite (onCell_ok _ (filterRampedTo ((bass controls - 50) / 2) (now + (1 # 10))))
    by (intros n; now apply rampFilterGain_ok).
  cbn [bind].
  rewrite (onCell_ok _ (filterRampedTo ((treble controls - 50) / 2) (now + (1 # 10))))
    by (intros n; now apply rampFilterGain_ok).
  cbn [bind].
  rewrite (forEachFrom_ok _ (bandAfter controls now))
    by (intros i x; now apply updateEqBand_ok).
  cbn [bind]. do 2 f_equal.
  unfold compressorAfter. destruct (compressorNodeRef h) as [c|]; [|reflexivity].
  simpl. now destruct (beautify controls || mastered controls).
Qed.
Lemma paramsAfter_eqNodes controls now h :
  is_Some (audioContextRef h) ->
  eqNodesRef (paramsAfter controls now h) = imap (bandAfter controls now) (eqNodesRef h).
Proof. intros [ctx Hctx]. unfold paramsAfter. now rewrite Hctx. Qed.

Lemma bandAfter_frequency controls now i node :
  frequency (bandAfter controls now i node) = frequency node.
Proof. unfold bandAfter. now destruct (eqBandAt controls i). Qed.

Lemma eqBandAt_missing controls i :
  eqBands controls = None \/
  (exists bands, eqBands controls = Some bands /\
                 ((length bands <= i)%nat \/ bands !! i = Some None)) ->
  eqBandAt controls i = None.
Proof.
  unfold eqBandAt. intros [-> | (bands & -> & [Hlen | ->])]; try reflexivity.
  now rewrite (lookup_ge_None_2 bands i Hlen).
Qed.

(** C9. [updateParams] applies the normalized-to-physical formulas: the
    source reader's detune settles at [(pitch - 50) * 24] cents (0 cents at
    pitch 50), the bass and treble shelves at [(value - 50) / 2] dB, and,
    for every index [i] below 23 at which [controls.eqBands] has an entry,
    the peaking filter number [i] of the 23, which is the one centred at
    [FREQS[i]], at [(eqBands[i] - 50) / 2] dB. *)
Theorem updateParams_mapping (controls : AudioProcessorControls) (now : Q) (h : Hook) :
  is_Some (audioContextRef h) -> 0 <= now -> map frequency (eqNodesRef h) = FREQS ->
  exists h',
    updateParams controls now h = Ok h' /\
    (forall p s, sourceNodeRef h = Some p -> sources h !! p = Some s ->
       exists s', sources h' !! p = Some s' /\
                  settled (detune s') = (pitch controls - 50) * 24 /\
                  (pitch controls == 50 -> settled (detune s') == 0)) /\
    (forall n, bassNodeRef h = Some n ->
       exists n', bassNodeRef h' = Some n' /\ frequency n' = frequency n /\
                  settled (filterGain n') = (bass controls - 50) / 2) /\
    (forall n, trebleNodeRef h = Some n ->
       exists n', trebleNodeRef h' = Some n' /\ frequency n' = frequency n /\
                  settled (filterGain n') = (treble controls - 50) / 2) /\
    length (eqNodesRef h') = 23%nat /\
    (forall bands i v, eqBands controls = Some bands -> bands !! i = Some (Some v) ->
       (i < 23)%nat ->
       exists node, eqNodesRef h' !! i = Some node /\
                    FREQS !! i = Some (frequency node) /\
                    settled (filterGain node) = (v - 50) / 2).
Proof.
  intros Hctx Hnow Hfreq. exists (paramsAfter controls now h).
  split; [now apply updateParams_ok|].
  pose proof (paramsAfter_eqNodes controls now h Hctx) as Heq.
  destruct Hctx as [ctx Hctx]. unfold paramsAfter in *. rewrite Hctx in *.
  split; [|split; [|split; [|split]]].
  - intros p s Hp Hs. cbn. rewrite Hp. unfold updateSource. rewrite Hs.
    eexists. split; [apply list_lookup_insert_eq; now apply lookup_lt_Some with s|].
    split; [reflexivity|]. cbn. intros ->. reflexivity.
  - intros n Hn. cbn. rewrite Hn. eexists. repeat split.
  - intros n Hn. cbn. rewrite Hn. eexists. repeat split.
  - rewrite Heq, length_imap, <- (length_map frequency), Hfreq. reflexivity.
  - intros bands i v Hbands Hv Hi. rewrite Heq, list_lookup_imap.
    assert (Hlen : (i < length (eqNodesRef h))%nat).
    { rewrite <- (length_map frequency), Hfreq. exact Hi. }
    destruct (lookup_lt_is_Some_2 _ _ Hlen) as [node Hnode]. rewrite Hnode. cbn.
    eexists. split; [reflexivity|]. rewrite bandAfter_frequency. split.
    + rewrite <- Hfreq, list_lookup_fmap, Hnode. reflexivity.
    + unfold bandAfter, eqBandAt. rewrite Hbands, Hv. reflexivity.
Qed.

(** The bands of [exGraphic]. *)
Lemma exGraphic_band (i : nat) :
  (i < 23)%nat ->
  exists bands, eqBands exGraphic = Some bands /\
                bands !! i = Some (Some (inject_Z (4 * Z.of_nat i))).
Proof.
  intros Hi. eexists. split; [reflexivity|].
  rewrite list_lookup_fmap, lookup_seq_lt by exact Hi. reflexivity.
Qed.

(** On the session that plays the neutral controls, whose 23 filters are
    settled at 0 dB: every band moves to its own value, the first to
    -25 dB at 20 Hz and the last to 19 dB at 3150 Hz. *)
Lemma updateParams_mapping_witness :
  is_Some (audioContextRef exPlaying) /\ 0 <= 1 /\
  map frequency (eqNodesRef exPlaying) = FREQS /\
  exists h',
    updateParams exGraphic 1 exPlaying = Ok h' /\
    (forall p s, sourceNodeRef exPlaying = Some p -> sources exPlaying !! p = Some s ->
       exists s', sources h' !! p = Some s' /\
                  settled (detune s') = (pitch exGraphic - 50) * 24 /\
                  (pitch exGraphic == 50 -> settled (detune s') == 0)) /\
    (forall n, bassNodeRef exPlaying = Some n ->
       exists n', bassNodeRef h' = Some n' /\ frequency n' = frequency n /\
                  settled (filterGain n') = (bass exGraphic - 50) / 2) /\
    (forall n, trebleNodeRef exPlaying = Some n ->
       exists n', trebleNodeRef h' = Some n' /\ frequency n' = frequency n /\
                  settled (filterGain n') = (treble exGraphic - 50) / 2) /\
    length (eqNodesRef h') = 23%nat /\
    (forall i, (i < 23)%nat ->
       exists node, eqNodesRef h' !! i = Some node /\
                    FREQS !! i = Some (frequency node) /\
                    settled (filterGain node) = (inject_Z (4 * Z.of_nat i) - 50) / 2) /\
    (exists first last,
       eqNodesRef h' !! 0%nat = Some first /\ eqNodesRef h' !! 22%nat = Some last /\
       frequency first = 20 /\ settled (filterGain first) == -25 /\
       frequency last = 3150 /\ settled (filterGain last) == 19) /\
    (settled ∘ filterGain) <$> eqNodesRef exPlaying !! 0%nat = Some (0 # 2) /\
    (settled ∘ filterGain) <$> eqNodesRef exPlaying !! 22%nat = Some (0 # 2).
Proof.
  assert (H1 : is_Some (audioContextRef exPlaying)) by (exists exContext; lazy; reflexivity).
  assert (H2 : 0 <= 1) by (unfold Qle; simpl; lia).
  assert (H3 : map frequency (eqNodesRef exPlaying) = FREQS) by (lazy; reflexivity).
  split; [exact H1|]. split; [exact H2|]. split; [exact H3|].
  destruct (updateParams_mapping exGraphic 1 exPlaying H1 H2 H3)
    as (h' & Hrun & Hpitch & Hbass & Htreble & Hlen & Hbands).
  assert (Heach : forall i, (i < 23)%nat ->
            exists node, eqNodesRef h' !! i = Some node /\
                         FREQS !! i = Some (frequency node) /\
                         settled (filterGain node) = (inject_Z (4 * Z.of_nat i) - 50) / 2).
  { intros i Hi. destruct (exGraphic_band i Hi) as (bands & Hb & Hv).
    exact (Hbands bands i _ Hb Hv Hi). }
  exists h'. split; [exact Hrun|]. split; [exact Hpitch|]. split; [exact Hbass|].
  split; [exact Htreble|]. split; [exact Hlen|]. split; [exact Heach|].
  split.
  { destruct (Heach 0%nat ltac:(lia)) as (first & Hf & Hff & Hfg).
    destruct (Heach 22%nat ltac:(lia)) as (last & Hl & Hlf & Hlg).
    exists first, last. split; [exact Hf|]. split; [exact Hl|].
    injection Hff as Hff. injection Hlf as Hlf.
    split; [now rewrite <- Hff|]. split; [rewrite Hfg; reflexivity|].
    split; [now rewrite <- Hlf|]. rewrite Hlg. reflexivity. }
  split; lazy; reflexivity.
Defined.

(** C10. [updateParams] with an [eqBands] that is missing, too short or
    has undefined entries does not raise: a band with a defined entry is
    ramped to [(eqBands[i] - 50) / 2] dB, and a band without one keeps its
    gain parameter, and the rest of the filter, as it was. *)
Theorem updateParams_missing_bands (controls : AudioProcessorControls) (now : Q) (h : Hook) :
  0 <= now ->
  exists h',
    updateParams controls now h = Ok h' /\
    length (eqNodesRef h') = length (eqNodesRef h) /\
    forall i node, eqNodesRef h !! i = Some node ->
      (eqBands controls = None \/
       (exists bands, eqBands controls = Some bands /\
                      ((length bands <= i)%nat \/ bands !! i = Some None)) ->
       eqNodesRef h' !! i = Some node) /\
      (forall bands v, is_Some (audioContextRef h) ->
         eqBands controls = Some bands -> bands !! i = Some (Some v) ->
         exists node', eqNodesRef h' !! i = Some node' /\
                       settled (filterGain node') = (v - 50) / 2 /\
                       value (filterGain node') = value (filterGain node) /\
                       frequency node' = frequency node /\
                       qFactor node' = qFactor node /\
                       filterType node' = filterType node).
Proof.
  intros Hnow. exists (paramsAfter controls now h).
  split; [now apply updateParams_ok|].
  destruct (audioContextRef h) as [ctx|] eqn:Hctx.
  - rewrite paramsAfter_eqNodes by (rewrite Hctx; eauto).
    split; [apply length_imap|].
    intros i node Hnode. rewrite list_lookup_imap, Hnode. cbn. split.
    + intros Hmiss. unfold bandAfter. now rewrite (eqBandAt_missing _ _ Hmiss).
    + intros bands v _ Hbands Hv. unfold bandAfter, eqBandAt. rewrite Hbands, Hv.
      eexists. repeat split.
  - unfold paramsAfter. rewrite Hctx. split; [reflexivity|].
    intros i node Hnode. split; [intros _; exact Hnode|].
    intros bands v [c Hc]. discriminate Hc.
Qed.

Lemma updateParams_missing_bands_witness :
  0 <= 1 /\
  exists h',
    updateParams exShortBands 1 exPlaying = Ok h' /\
    length (eqNodesRef h') = length (eqNodesRef exPlaying) /\
    forall i node, eqNodesRef exPlaying !! i = Some node ->
      (eqBands exShortBands = None \/
       (exists bands, eqBands exShortBands = Some bands /\
                      ((length bands <= i)%nat \/ bands !! i = Some None)) ->
       eqNodesRef h' !! i = Some node) /\
      (forall bands v, is_Some (audioContextRef exPlaying) ->
         eqBands exShortBands = Some bands -> bands !! i = Some (Some v) ->
         exists node', eqNodesRef h' !! i = Some node' /\
                       settled (filterGain node') = (v - 50) / 2 /\
                       value (filterGain node') = value (filterGain node) /\
                       frequency node' = frequency node /\
                       qFactor node' = qFactor node /\
                       filterType node' = filterType node).
Proof.
  assert (H : 0 <= 1) by (unfold Qle; simpl; lia).
  split; [exact H|].
  exact (updateParams_missing_bands exShortBands 1 exPlaying H).
Defined.

(** The short band list on the playing session: bands 0 and 2 move, band
    1 and the bands from 3 on stay. *)
Example short_bands_run :
  exists h',
    updateParams exShortBands 1 exPlaying = Ok h' /\
    (settled ∘ filterGain) <$> eqNodesRef h' !! 0%nat = Some (20 # 2) /\
    (settled ∘ filterGain) <$> eqNodesRef h' !! 2%nat = Some (-30 # 2) /\
    eqNodesRef h' !! 1%nat = eqNodesRef exPlaying !! 1%nat /\
    drop 3 (eqNodesRef h') = drop 3 (eqNodesRef exPlaying) /\
    (settled ∘ filterGain) <$> bassNodeRef h' = Some (50 # 2) /\
    (settled ∘ filterGain) <$> trebleNodeRef h' = Some (-50 # 2) /\
    (settled ∘ detune) <$> sources h' !! 0%nat = Some 288.
Proof.
  exists (paramsAfter exShortBands 1 exPlaying).
  split; [apply updateParams_ok; unfold Qle; simpl; lia|].
  split; [lazy; reflexivity|]. split; [lazy; reflexivity|].
  split; [lazy; reflexivity|]. split; [lazy; reflexivity|].
  split; [lazy; reflexivity|]. split; lazy; reflexivity.
Qed.

Lemma paramsAfter_compressor controls now h :
  is_Some (audioContextRef h) ->
  compressorNodeRef (paramsAfter controls now h)
  = compressorAfter controls <$> compressorNodeRef h.
Proof. intros [ctx Hctx]. unfold paramsAfter. now rewrite Hctx. Qed.

(** C2, as the code has it. Mastering sets ratio 20, threshold -20 dB and
    knee 30; beautify alone sets ratio 12, threshold -24 dB and knee 30.
    The mastered ratio is strictly higher, and the mastered threshold is
    strictly higher too (4 dB less negative), not lower. *)
Theorem mastered_compressor_settings (cm cb : AudioProcessorControls) (now : Q)
    (h : Hook) (c : DynamicsCompressorNode) :
  is_Some (audioContextRef h) -> compressorNodeRef h = Some c -> 0 <= now ->
  mastered cm = true -> beautify cb = true -> mastered cb = false ->
  exists hm hb m b,
    updateParams cm now h = Ok hm /\ updateParams cb now h = Ok hb /\
    compressorNodeRef hm = Some m /\ compressorNodeRef hb = Some b /\
    ratio m = 20 /\ threshold m = -20 /\ knee m = 30 /\
    ratio b = 12 /\ threshold b = -24 /\ knee b = 30 /\
    ratio b < ratio m /\ threshold b < threshold m.
Proof.
  intros Hctx Hc Hnow Hm Hb Hnm.
  exists (paramsAfter cm now h), (paramsAfter cb now h),
         (compressorAfter cm c), (compressorAfter cb c).
  split; [now apply updateParams_ok|]. split; [now apply updateParams_ok|].
  split; [rewrite paramsAfter_compressor, Hc by assumption; reflexivity|].
  split; [rewrite paramsAfter_compressor, Hc by assumption; reflexivity|].
  unfold compressorAfter. rewrite Hm, Hb, Hnm, orb_true_r. cbn.
  repeat split.
Qed.

Lemma mastered_compressor_settings_witness :
  is_Some (audioContextRef exMounted) /\
  compressorNodeRef exMounted = Some createDynamicsCompressor /\
  0 <= 1 /\ mastered exMastered = true /\
  beautify exNeutral = true /\ mastered exNeutral = false /\
  exists hm hb m b,
    updateParams exMastered 1 exMounted = Ok hm /\
    updateParams exNeutral 1 exMounted = Ok hb /\
    compressorNodeRef hm = Some m /\ compressorNodeRef hb = Some b /\
    ratio m = 20 /\ threshold m = -20 /\ knee m = 30 /\
    ratio b = 12 /\ threshold b = -24 /\ knee b = 30 /\
    ratio b < ratio m /\ threshold b < threshold m.
Proof.
  assert (H1 : is_Some (audioContextRef exMounted)) by (exists exContext; lazy; reflexivity).
  assert (H2 : compressorNodeRef exMounted = Some createDynamicsCompressor)
    by (lazy; reflexivity).
  assert (H3 : 0 <= 1) by (unfold Qle; simpl; lia).
  split; [exact H1|]. split; [exact H2|]. split; [exact H3|].
  split; [reflexivity|]. split; [reflexivity|]. split; [reflexivity|].
  exact (mastered_compressor_settings exMastered exNeutral 1 exMounted
           createDynamicsCompressor H1 H2 H3 eq_refl eq_refl eq_refl).
Defined.

(** C2 as stated fails on the mounted hook: with mastering the threshold
    is -20 dB, with beautify alone -24 dB, so the mastered threshold is
    not the lower one. *)
Lemma mastered_threshold_not_lower :
  exists hm hb m b,
    updateParams exMastered 1 exMounted = Ok hm /\
    updateParams exNeutral 1 exMounted = Ok hb /\
    compressorNodeRef hm = Some m /\ compressorNodeRef hb = Some b /\
    threshold m = -20 /\ threshold b = -24 /\
    ~ (ratio b < ratio m /\ threshold m < threshold b).
Proof.
  exists (paramsAfter exMastered 1 exMounted), (paramsAfter exNeutral 1 exMounted),
         (mkCompressor (-20) 30 20), (mkCompressor (-24) 30 12).
  split; [apply updateParams_ok; unfold Qle; simpl; lia|].
  split; [apply updateParams_ok; unfold Qle; simpl; lia|].
  split; [lazy; reflexivity|]. split; [lazy; reflexivity|].
  split; [reflexivity|]. split; [reflexivity|].
  intros [_ H]. cbn in H. unfold Qlt in H. simpl in H. lia.
Qed.

(** ** The transport *)

(** Unfold the field updates of a hook, innermost first, and project. *)
Ltac simpl_hook :=
  cbv [with_state with_audioContextRef with_sourceNodeRef with_gainNodeRef
       with_bassNodeRef with_trebleNodeRef with_compressorNodeRef with_eqNodesRef
       with_audioBufferRef with_startTimeRef with_pauseTimeRef with_sources with_roomGains
       with_connections requestAnimationFrame cancelAnimationFrame cancelPendingFrame
       setIsPlaying setCurrentTime
       state audioContextRef sourceNodeRef gainNodeRef bassNodeRef trebleNodeRef
       reverbNodeRef compressorNodeRef analyserNodeRef eqNodesRef audioBufferRef
       startTimeRef pauseTimeRef animationFrameRef sources roomGains connections
       pendingFrames nextFrame isPlaying currentTime stateDuration analyser].

Lemma cancel_twice (handle : nat) (frames : list nat) :
  filter (fun f => f <> handle) (filter (fun f => f <> handle) frames)
  = filter (fun f => f <> handle) frames.
Proof.
  induction frames as [|f frames IH]; [reflexivity|].
  rewrite (filter_cons _ f frames). destruct (decide (f <> handle)) as [Hne|He].
  - rewrite filter_cons. destruct (decide (f <> handle)); [|contradiction].
    now rewrite IH.
  - exact IH.
Qed.

Lemma with_sources_same (h : Hook) : with_sources h (sources h) = h.
Proof. now destruct h. Qed.

(** A swallowed [stop()] of a reader touches the store of readers only,
    and at most the reader itself. *)
Lemma tryIgnore_stopSource (p : nat) (h : Hook) :
  exists srcs,
    tryIgnore (stopSource p h) h = with_sources h srcs /\
    length srcs = length (sources h) /\
    (forall q, q <> p -> srcs !! q = sources h !! q) /\
    (forall s, sources h !! p = Some s ->
       exists s', srcs !! p = Some s' /\ started s' = started s).
Proof.
  unfold stopSource, onSource.
  destruct (sources h !! p) as [s|] eqn:Hs.
  - unfold sourceStop. destruct (started s) as [args|] eqn:Hst; cbn.
    + eexists. split; [reflexivity|]. split; [apply length_insert|].
      split; [intros q Hq; now apply list_lookup_insert_ne|].
      intros s0 [= <-]. eexists. split.
      * apply list_lookup_insert_eq. now apply lookup_lt_Some with s.
      * cbn. now rewrite Hst.
    + exists (sources h). rewrite with_sources_same.
      split; [reflexivity|]. split; [reflexivity|]. split; [reflexivity|].
      intros s0 [= <-]. now exists s.
  - cbn. exists (sources h). rewrite with_sources_same.
    split; [reflexivity|]. split; [reflexivity|]. split; [reflexivity|].
    intros s0 [=].
Qed.

(** C6. [stop()] never raises, and a second [stop()] right after the
    first changes nothing: the hook is stopped, with [currentTime] 0, the
    resume position 0 and no source reader, after one call as after
    two. *)
Theorem stop_idempotent (h : Hook) :
  exists h1,
    stop h = Ok h1 /\ stop h1 = Ok h1 /\
    isPlaying (state h1) = false /\ currentTime (state h1) = 0 /\
    pauseTimeRef h1 = 0 /\ sourceNodeRef h1 = None.
Proof.
  unfold stop. eexists. split; [reflexivity|].
  assert (Hshape : exists srcs,
            (match sourceNodeRef h with
             | Some p => with_sourceNodeRef (tryIgnore (stopSource p h) h) None
             | None => h
             end) = with_sourceNodeRef (with_sources h srcs) None).
  { destruct (sourceNodeRef h) as [p|] eqn:Hp.
    - destruct (tryIgnore_stopSource p h) as (srcs & -> & _). now exists srcs.
    - exists (sources h). rewrite with_sources_same. destruct h; cbn in *. now subst. }
  destruct Hshape as [srcs ->].
  destruct h as [st ctx src g b t rv c an eqs buf t0 t1 fr srcs0 rgs es pend nxt].
  destruct fr as [handle|]; simpl_hook.
  - rewrite cancel_twice. repeat split.
  - repeat split.
Qed.

(** [stop()] on the playing session: the reader is halted and dropped,
    and the pending poll is cancelled. *)
Example stop_run :
  exists h1,
    stop exPlaying = Ok h1 /\
    sourceNodeRef h1 = None /\ pendingFrames h1 = [] /\
    stopped <$> sources h1 !! 0%nat = Some true /\
    isPlaying (state exPlaying) = true /\ pendingFrames exPlaying = [1%nat].
Proof.
  eexists. split; [reflexivity|].
  split; [lazy; reflexivity|]. split; [lazy; reflexivity|].
  split; [lazy; reflexivity|]. split; lazy; reflexivity.
Qed.

(** C7. Without a decoded source [play] returns at once and leaves the
    hook as it was, and [exportAudio] returns [null]; neither raises. *)
Theorem no_source_is_noop (controls : AudioProcessorControls) (clk : PlayClock)
    (rnd : Rand) (h : Hook) :
  audioBufferRef h = None ->
  play controls clk h = Ok h /\ exportAudio controls rnd h = Ok (None, rnd).
Proof.
  intros Hbuf. unfold play, exportAudio. rewrite Hbuf.
  now destruct (audioContextRef h).
Qed.

Lemma no_source_is_noop_witness :
  audioBufferRef exMounted = None /\
  play exNeutral exClock exMounted = Ok exMounted /\
  exportAudio exNeutral exRand exMounted = Ok (None, exRand).
Proof.
  assert (H : audioBufferRef exMounted = None) by (lazy; reflexivity).
  split; [exact H|].
  exact (no_source_is_noop exNeutral exClock exRand exMounted H).
Defined.

(** *** Rewiring the graph *)

Lemma with_connections_same (h : Hook) : with_connections h (connections h) = h.
Proof. now destruct h. Qed.

Lemma rewired_refl (h : Hook) : rewired h h.
Proof. exists (connections h). symmetry. apply with_connections_same. Qed.

Lemma rewired_trans (h1 h2 h3 : Hook) : rewired h1 h2 -> rewired h2 h3 -> rewired h1 h3.
Proof. intros [es1 ->] [es2 ->]. now exists es2. Qed.

Lemma nodePresent_rewired (h h' : Hook) (n : NodeId) :
  rewired h h' -> nodePresent h' n = nodePresent h n.
Proof. intros [es ->]. now destruct n. Qed.

Lemma disconnectNode_rewired (n : NodeId) (h : Hook) : rewired h (disconnectNode n h).
Proof.
  unfold disconnectNode. destruct (nodePresent h n); [eexists; reflexivity | apply rewired_refl].
Qed.

Lemma disconnectEqNodes_rewired (h : Hook) : rewired h (disconnectEqNodes h).
Proof.
  unfold disconnectEqNodes. generalize (seq 0 (length (eqNodesRef h))). intros l.
  assert (H : rewired h h) by apply rewired_refl. revert H.
  generalize h at 2 4. induction l as [|i l IH]; intros h0 H0; [exact H0|].
  cbn [foldl]. apply IH. eapply rewired_trans; [exact H0 | apply disconnectNode_rewired].
Qed.

Lemma connectNodes_rewired (a b : NodeId) (h : Hook) :
  nodePresent h a = true -> nodePresent h b = true ->
  exists h', connectNodes a b h = Ok h' /\ rewired h h'.
Proof.
  intros Ha Hb. unfold connectNodes. rewrite Ha, Hb. cbn.
  eexists. split; [reflexivity|]. eexists. reflexivity.
Qed.

Lemma chain_rewired (h : Hook) (l : list nat) :
  Forall (fun i => (i < length (eqNodesRef h))%nat) l ->
  forall lastNode h0,
    rewired h h0 -> nodePresent h lastNode = true ->
    exists lastNode' h',
      foldl (fun acc i =>
               prev <- acc ;;
               h' <- connectNodes prev.1 (NEq i) prev.2 ;;
               Ok (NEq i, h'))
            (Ok (lastNode, h0)) l = Ok (lastNode', h') /\
      rewired h h' /\ nodePresent h lastNode' = true.
Proof.
  induction 1 as [|i l Hi Hl IH]; intros lastNode h0 H0 Hlast.
  - exists lastNode, h0. now split.
  - cbn [foldl bind fst snd].
    destruct (connectNodes_rewired lastNode (NEq i) h0) as (h1 & -> & H1).
    + now rewrite (nodePresent_rewired h h0).
    + rewrite (nodePresent_rewired h h0) by assumption. cbn. now apply bool_decide_eq_true.
    + cbn [bind]. apply IH.
      * eapply rewired_trans; eassumption.
      * cbn. now apply bool_decide_eq_true.
Qed.

Lemma chainEqNodes_rewired (lastNode : NodeId) (h : Hook) :
  nodePresent h lastNode = true ->
  exists lastNode' h',
    chainEqNodes lastNode h = Ok (lastNode', h') /\
    rewired h h' /\ nodePresent h lastNode' = true.
Proof.
  intros Hlast. unfold chainEqNodes. apply chain_rewired.
  - apply Forall_seq. intros i Hi. lia.
  - apply rewired_refl.
  - exact Hlast.
Qed.

Lemma with_roomGains_rewired (h h' : Hook) (rgs : list GainNode) :
  rewired h h' -> rewired (with_roomGains h rgs) (with_roomGains h' rgs).
Proof. intros [es ->]. now exists es. Qed.

Lemma roomGains_rewired (h h' : Hook) : rewired h h' -> roomGains h' = roomGains h.
Proof. now intros [es ->]. Qed.

Lemma nodePresent_with_roomGains (h : Hook) (g : GainNode) (n : NodeId) :
  nodePresent h n = true -> nodePresent (with_roomGains h (roomGains h ++ [g])) n = true.
Proof.
  destruct n; cbn; try easy.
  rewrite !bool_decide_eq_true, length_app. cbn. lia.
Qed.

(** The rewiring of [play] succeeds on a hook whose persistent nodes
    exist; it adds one reverb send gain and changes the connections. *)
Lemma reconnectGraph_ok (p : nat) (controls : AudioProcessorControls) (h : Hook) :
  (p < length (sources h))%nat ->
  is_Some (bassNodeRef h) -> is_Some (trebleNodeRef h) ->
  is_Some (compressorNodeRef h) -> is_Some (reverbNodeRef h) ->
  is_Some (gainNodeRef h) -> is_Some (analyserNodeRef h) ->
  exists h',
    reconnectGraph p controls h = Ok h' /\
    rewired (with_roomGains h
               (roomGains h ++ [mkGain (setValue (wetLevelOf controls) (gain createGain))]))
            h'.
Proof.
  intros Hp Hb Ht Hc Hr Hg Ha. unfold reconnectGraph.
  set (h1 := disconnectNode NReverb _).
  assert (R1 : rewired h h1).
  { subst h1. repeat (eapply rewired_trans; [|apply disconnectNode_rewired]).
    apply disconnectEqNodes_rewired. }
  assert (P : forall n, nodePresent h n = true -> nodePresent h1 n = true).
  { intros n Hn. now rewrite (nodePresent_rewired h h1). }
  assert (Psrc : nodePresent h (NSource p) = true) by (cbn; now apply bool_decide_eq_true).
  assert (Pb : nodePresent h NBass = true) by (cbn; now apply bool_decide_eq_true).
  assert (Pt : nodePresent h NTreble = true) by (cbn; now apply bool_decide_eq_true).
  assert (Pc : nodePresent h NCompressor = true) by (cbn; now apply bool_decide_eq_true).
  assert (Pr : nodePresent h NReverb = true) by (cbn; now apply bool_decide_eq_true).
  assert (Pg : nodePresent h NGain = true) by (cbn; now apply bool_decide_eq_true).
  assert (Pa : nodePresent h NAnalyser = true) by (cbn; now apply bool_decide_eq_true).
  destruct (chainEqNodes_rewired (NSource p) h1 (P _ Psrc)) as (lastNode & h2 & -> & R2 & Hl).
  cbn [bind fst snd].
  assert (R2' : rewired h h2) by (eapply rewired_trans; eassumption).
  destruct (connectNodes_rewired lastNode NBass h2) as (h3 & -> & R3).
  { now rewrite (nodePresent_rewired h1 h2). }
  { now rewrite (nodePresent_rewired h h2). }
  cbn [bind]. assert (R3' : rewired h h3) by (eapply rewired_trans; eassumption).
  destruct (connectNodes_rewired NBass NTreble h3) as (h4 & -> & R4);
    [now rewrite (nodePresent_rewired h h3) .. |].
  cbn [bind]. assert (R4' : rewired h h4) by (eapply rewired_trans; eassumption).
  destruct (connectNodes_rewired NTreble NCompressor h4) as (h5 & -> & R5);
    [now rewrite (nodePresent_rewired h h4) .. |].
  cbn [bind]. assert (R5' : rewired h h5) by (eapply rewired_trans; eassumption).
  rewrite (roomGains_rewired h h5 R5').
  set (rg := mkGain _).
  set (h6 := with_roomGains h5 _).
  set (hr := with_roomGains h (roomGains h ++ [rg])).
  assert (R6 : rewired hr h6) by (apply with_roomGains_rewired; exact R5').
  assert (P6 : forall n, nodePresent h n = true -> nodePresent h6 n = true).
  { intros n Hn. rewrite (nodePresent_rewired hr h6 _ R6). now apply nodePresent_with_roomGains. }
  assert (Prg : nodePresent h6 (NRoomGain (length (roomGains h))) = true).
  { rewrite (nodePresent_rewired hr h6 _ R6). cbn. apply bool_decide_eq_true.
    rewrite length_app. cbn. lia. }
  destruct (connectNodes_rewired NCompressor (NRoomGain (length (roomGains h))) h6)
    as (h7 & -> & R7); [now apply P6 | exact Prg |].
  cbn [bind]. assert (R7' : rewired h6 h7) by exact R7.
  destruct (connectNodes_rewired (NRoomGain (length (roomGains h))) NReverb h7)
    as (h8 & -> & R8);
    [rewrite (nodePresent_rewired h6 h7 _ R7); first [exact Prg | now apply P6] .. |].
  cbn [bind]. assert (R8' : rewired h6 h8) by (eapply rewired_trans; eassumption).
  destruct (connectNodes_rewired NReverb NGain h8) as (h9 & -> & R9);
    [rewrite (nodePresent_rewired h6 h8 _ R8'); now apply P6 .. |].
  cbn [bind]. assert (R9' : rewired h6 h9) by (eapply rewired_trans; eassumption).
  destruct (connectNodes_rewired NCompressor NGain h9) as (h10 & -> & R10);
    [rewrite (nodePresent_rewired h6 h9 _ R9'); now apply P6 .. |].
  cbn [bind]. assert (R10' : rewired h6 h10) by (eapply rewired_trans; eassumption).
  destruct (connectNodes_rewired NGain NAnalyser h10) as (h11 & -> & R11);
    [rewrite (nodePresent_rewired h6 h10 _ R10'); now apply P6 .. |].
  cbn [bind]. assert (R11' : rewired h6 h11) by (eapply rewired_trans; eassumption).
  destruct (connectNodes_rewired NAnalyser NDestination h11) as (h12 & -> & R12);
    [rewrite (nodePresent_rewired h6 h11 _ R11'); first [now apply P6 | reflexivity] .. |].
  exists h12. split; [reflexivity|].
  eapply rewired_trans; [exact R6|]. eapply rewired_trans; eassumption.
Qed.

(** *** [play] up to its first [tick] *)

Lemma with_audioContextRef_same (h : Hook) :
  with_audioContextRef h (audioContextRef h) = h.
Proof. now destruct h. Qed.

(** What [play] does before it makes the new reader: the context may be
    resumed, the previous reader stopped and disconnected. *)
Lemma prologue_shape (ctx : AudioContext) (h : Hook) :
  audioContextRef h = Some ctx ->
  exists ctx' srcs es,
    detachPrevious (resumeContext ctx h)
    = with_connections (with_sources (with_audioContextRef h (Some ctx')) srcs) es /\
    length srcs = length (sources h).
Proof.
  intros Hctx.
  assert (exists ctx', resumeContext ctx h = with_audioContextRef h (Some ctx')) as [ctx' ->].
  { unfold resumeContext.
    destruct (ctxState ctx);
      [eexists; reflexivity
      | exists ctx; rewrite <- Hctx; symmetry; apply with_audioContextRef_same ..]. }
  set (h1 := with_audioContextRef h (Some ctx')).
  unfold detachPrevious. destruct (sourceNodeRef h1) as [p|].
  - destruct (tryIgnore_stopSource p h1) as (srcs & -> & Hlen & _).
    exists ctx', srcs. eexists. split; [reflexivity | exact Hlen].
  - exists ctx', (sources h1), (connections h1).
    now rewrite with_sources_same, with_connections_same.
Qed.

Lemma updateSource_last f (l : list AudioBufferSourceNode) (x : AudioBufferSourceNode) :
  updateSource f (length l) (l ++ [x]) = l ++ [f x].
Proof.
  unfold updateSource. rewrite list_lookup_middle by reflexivity.
  rewrite insert_app_r_alt by lia. now rewrite Nat.sub_diag.
Qed.

Lemma onSource_last f (l : list AudioBufferSourceNode) (x : AudioBufferSourceNode) :
  onSource f (length l) (l ++ [x]) = (y <- f x ;; Ok (l ++ [y])).
Proof.
  unfold onSource. rewrite list_lookup_middle by reflexivity.
  destruct (f x) as [y|e]; cbn; [|reflexivity].
  rewrite insert_app_r_alt by lia. now rewrite Nat.sub_diag.
Qed.

Lemma Math_max_nonneg (x : Q) : 0 <= Math_max 0 x.
Proof.
  unfold Math_max. destruct (Qltb 0 x) eqn:H.
  - apply Qltb_lt in H. lra.
  - lra.
Qed.

Lemma sourceStart_ok (offset dur : Q) (s : AudioBufferSourceNode) :
  started s = None -> 0 <= offset -> 0 <= dur ->
  sourceStart 0 offset dur s
  = Ok (mkSource (buffer s) (detune s) (Some (0, offset, dur)) (stopped s) (onended s)).
Proof.
  intros Hs Ho Hd. unfold sourceStart. rewrite Hs.
  rewrite (proj2 (Qltb_ge offset 0) Ho), (proj2 (Qltb_ge dur 0) Hd).
  reflexivity.
Qed.

(** [play] on a loaded, initialised hook reaches its first [tick]: the
    new reader, number [length (sources h)] of the store, has been started
    at [startOffset] for [max(0, cutEndTime - startOffset)] seconds. *)
Lemma play_until_tick (controls : AudioProcessorControls) (clk : PlayClock) (h : Hook)
    (audioBuffer : AudioBuffer) :
  initialised h -> audioBufferRef h = Some audioBuffer -> 0 <= atParams clk ->
  0 <= startOffsetOf (pauseTimeRef h) (cutStartTimeOf controls audioBuffer)
                     (cutEndTimeOf controls audioBuffer) ->
  exists hs s0,
    play controls clk h
    = (h2 <- tick (cutStartTimeOf controls audioBuffer) (cutEndTimeOf controls audioBuffer)
                  (atTick clk) hs ;;
       srcs <- onSource (fun s => Ok (setOnended s)) (length (sources h)) (sources h2) ;;
       Ok (with_sources h2 srcs)) /\
    sourceNodeRef hs = Some (length (sources h)) /\
    sources hs !! length (sources h) = Some s0 /\
    started s0
    = Some (0,
            startOffsetOf (pauseTimeRef h) (cutStartTimeOf controls audioBuffer)
                          (cutEndTimeOf controls audioBuffer),
            Math_max 0 (cutEndTimeOf controls audioBuffer
                        - startOffsetOf (pauseTimeRef h) (cutStartTimeOf controls audioBuffer)
                                        (cutEndTimeOf controls audioBuffer))) /\
    stopped s0 = false /\
    startTimeRef hs
    = atStart clk - startOffsetOf (pauseTimeRef h) (cutStartTimeOf controls audioBuffer)
                                  (cutEndTimeOf controls audioBuffer) /\
    isPlaying (state hs) = true /\
    animationFrameRef hs = animationFrameRef h /\
    pendingFrames hs = pendingFrames h.
Proof.
  intros [[ctx Hctx] Hg Hb Ht Hr Hc Ha _] Hbuf Hnow Hso.
  unfold play. rewrite Hctx, Hbuf.
  destruct (prologue_shape ctx h Hctx) as (ctx' & srcs & es & -> & Hlen).
  rewrite <- Hlen. clear Hctx Hlen.
  destruct h as [st ctxo src g b t rv c an eqs buf t0 t1 fr srcs0 rgs es0 pend nxt].
  cbn [audioBufferRef pauseTimeRef gainNodeRef bassNodeRef trebleNodeRef reverbNodeRef
       compressorNodeRef analyserNodeRef animationFrameRef pendingFrames] in *.
  cbv zeta.
  fold (cutStartTimeOf controls audioBuffer) (cutEndTimeOf controls audioBuffer).
  set (cs := cutStartTimeOf controls audioBuffer) in *.
  set (ce := cutEndTimeOf controls audioBuffer) in *.
  set (h0 := with_connections _ es).
  change (sources h0) with srcs. change (pauseTimeRef h0) with t1.
  set (so := startOffsetOf t1 cs ce) in *.
  set (source := mkSource (Some audioBuffer) _ None false false).
  set (h1 := with_sourceNodeRef (with_sources h0 (srcs ++ [source])) (Some (length srcs))).
  destruct (reconnectGraph_ok (length srcs) controls h1) as (hg & -> & [esg ->]);
    try assumption.
  { cbn. rewrite length_app. cbn. lia. }
  cbn [bind]. rewrite updateParams_ok by exact Hnow. cbn [bind].
  subst h1 h0. unfold paramsAfter. simpl_hook.
  rewrite updateSource_last, onSource_last.
  rewrite sourceStart_ok; [|reflexivity|exact Hso|apply Math_max_nonneg].
  cbn [bind buffer detune stopped onended detuneRampedTo].
  eexists. eexists. split; [reflexivity|].
  simpl_hook.
  split; [reflexivity|]. split; [apply list_lookup_middle; reflexivity|].
  repeat split.
Qed.

(** *** The first [tick] and the end of [play] *)

Lemma stopSource_started (p : nat) (hs : Hook) (s0 : AudioBufferSourceNode) :
  sources hs !! p = Some s0 -> is_Some (started s0) ->
  stopSource p hs
  = Ok (with_sources hs
          (<[p := mkSource (buffer s0) (detune s0) (started s0) true (onended s0)]>
             (sources hs))).
Proof.
  intros Hs [args Hst]. unfold stopSource, onSource, sourceStop.
  now rewrite Hs, Hst.
Qed.

(** The poll has reached [cutEndTime]: the transport stops and the next
    [play] will resume at [cutStartTime]. *)
Lemma tick_stops (cutStartTime cutEndTime now : Q) (hs : Hook) (p : nat)
    (s0 : AudioBufferSourceNode) :
  sourceNodeRef hs = Some p -> sources hs !! p = Some s0 -> is_Some (started s0) ->
  cutEndTime <= now - startTimeRef hs ->
  exists h2 s2,
    tick cutStartTime cutEndTime now hs = Ok h2 /\
    sourceNodeRef h2 = None /\ isPlaying (state h2) = false /\
    currentTime (state h2) = 0 /\ pauseTimeRef h2 = cutStartTime /\
    sources h2 !! p = Some s2 /\ started s2 = started s0 /\ stopped s2 = true /\
    animationFrameRef h2 = animationFrameRef hs /\
    (forall f, f ∈ pendingFrames h2 -> f ∈ pendingFrames hs).
Proof.
  intros Hp Hs Hst Hend. unfold tick. rewrite Hp.
  rewrite (proj2 (Qgeb_ge _ _) Hend).
  unfold stop. rewrite Hp, (stopSource_started p hs s0 Hs Hst).
  cbn [tryIgnore bind].
  pose proof (lookup_lt_Some _ _ _ Hs) as Hlt.
  destruct hs as [st ctxo src g b t rv c an eqs buf t0 t1 fr srcs rgs es pend nxt].
  simpl_hook. cbn [sources] in Hlt.
  eexists. eexists. split; [reflexivity|].
  destruct fr as [handle|]; simpl_hook.
  - repeat (split; [reflexivity|]).
    split; [now apply list_lookup_insert_eq|].
    repeat (split; [reflexivity|]).
    intros f Hf. now apply list_elem_of_filter in Hf.
  - repeat (split; [reflexivity|]).
    split; [now apply list_lookup_insert_eq|].
    repeat (split; [reflexivity|]). auto.
Qed.

(** The poll has not reached [cutEndTime]: the position is published and
    the next poll is requested. *)
Lemma tick_continues (cutStartTime cutEndTime now : Q) (hs : Hook) (p : nat) :
  sourceNodeRef hs = Some p -> now - startTimeRef hs < cutEndTime ->
  tick cutStartTime cutEndTime now hs
  = Ok (requestAnimationFrame (setCurrentTime (now - startTimeRef hs) hs)).
Proof.
  intros Hp Hnot. unfold tick. rewrite Hp.
  now rewrite (proj2 (Qgeb_lt _ _) Hnot).
Qed.

(** Whatever the first poll decides, the reader keeps the arguments it
    was started with. *)
Lemma tick_keeps_start (cutStartTime cutEndTime now : Q) (hs : Hook) (p : nat)
    (s0 : AudioBufferSourceNode) :
  sourceNodeRef hs = Some p -> sources hs !! p = Some s0 -> is_Some (started s0) ->
  exists h2 s2,
    tick cutStartTime cutEndTime now hs = Ok h2 /\
    sources h2 !! p = Some s2 /\ started s2 = started s0.
Proof.
  intros Hp Hs Hst.
  destruct (Qlt_le_dec (now - startTimeRef hs) cutEndTime) as [Hlt|Hge].
  - rewrite (tick_continues _ _ _ _ p Hp Hlt). exists (requestAnimationFrame
      (setCurrentTime (now - startTimeRef hs) hs)), s0.
    split; [reflexivity|]. split; [|reflexivity].
    destruct hs. exact Hs.
  - destruct (tick_stops cutStartTime cutEndTime now hs p s0 Hp Hs Hst Hge)
      as (h2 & s2 & E & _ & _ & _ & _ & Hs2 & Hst2 & _).
    now exists h2, s2.
Qed.

(** [source.onended = ..] at the end of [play]. *)
Lemma onended_step (p : nat) (h2 : Hook) (s2 : AudioBufferSourceNode) :
  sources h2 !! p = Some s2 ->
  exists h',
    (srcs <- onSource (fun s => Ok (setOnended s)) p (sources h2) ;;
     Ok (with_sources h2 srcs)) = Ok h' /\
    sources h' !! p = Some (setOnended s2) /\
    state h' = state h2 /\ sourceNodeRef h' = sourceNodeRef h2 /\
    pauseTimeRef h' = pauseTimeRef h2 /\ animationFrameRef h' = animationFrameRef h2 /\
    pendingFrames h' = pendingFrames h2.
Proof.
  intros Hs. rewrite (onSource_ok _ setOnended) by reflexivity. cbn [bind].
  eexists. split; [reflexivity|].
  unfold updateSource. rewrite Hs.
  pose proof (lookup_lt_Some _ _ _ Hs) as Hlt.
  destruct h2. simpl_hook. cbn [sources] in Hlt.
  split; [now apply list_lookup_insert_eq|]. repeat split.
Qed.

(** *** Where playback starts *)



Lemma cutTime_nonneg (percent totalDuration : Q) :
  0 <= percent -> 0 <= totalDuration -> 0 <= (percent / 100) * totalDuration.
Proof.
  intros Hp Hd. apply Qmult_le_0_compat; [|exact Hd].
  unfold Qdiv. apply Qmult_le_0_compat; [exact Hp|]. now unfold Qle.
Qed.


(** *** The session used in the examples *)

Lemma mount_initialised (ctx : AudioContext) (rnd : Rand) :
  initialised (mount (Some ctx) rnd).1.
Proof.
  unfold mount. destruct (createReverbBuffer (ctxSampleRate ctx) 2 rnd) as [reverbBuffer rnd'].
  split; cbn [fst audioContextRef gainNodeRef bassNodeRef trebleNodeRef reverbNodeRef
              compressorNodeRef analyserNodeRef eqNodesRef]; eauto.
Qed.

(** [loadFile] always returns; it keeps the hook initialised and leaves
    the decoded buffer in its cell, with the resume position at 0. *)
Lemma loadFile_ok (decodedBuffer : AudioBuffer) (h : Hook) :
  initialised h ->
  exists h',
    loadFile decodedBuffer h = Ok h' /\ initialised h' /\
    audioBufferRef h' = Some decodedBuffer /\ pauseTimeRef h' = 0 /\
    sourceNodeRef h' = None.
Proof.
  intros [[ctx Hctx] Hg Hb Ht Hr Hc Ha Hf]. unfold loadFile, stop. rewrite Hctx.
  cbn [bind].
  assert (Hshape : exists srcs,
            (match sourceNodeRef h with
             | Some p => with_sourceNodeRef (tryIgnore (stopSource p h) h) None
             | None => h
             end) = with_sourceNodeRef (with_sources h srcs) None).
  { destruct (sourceNodeRef h) as [p|] eqn:Hp.
    - destruct (tryIgnore_stopSource p h) as (srcs & -> & _). now exists srcs.
    - exists (sources h). rewrite with_sources_same. destruct h; cbn in *. now subst. }
  destruct Hshape as [srcs ->].
  destruct h as [st ctxo src g b t rv c an eqs buf t0 t1 fr srcs0 rgs es pend nxt].
  cbn [audioContextRef gainNodeRef bassNodeRef trebleNodeRef reverbNodeRef
       compressorNodeRef analyserNodeRef eqNodesRef] in *.
  eexists. split; [reflexivity|].
  destruct fr as [handle|]; simpl_hook; (split; [split; cbn; eauto | repeat split]).
Qed.

Lemma exMounted_initialised : initialised exMounted.
Proof. apply mount_initialised. Qed.

Lemma exLoaded_facts :
  initialised exLoaded /\ audioBufferRef exLoaded = Some exBuffer /\
  pauseTimeRef exLoaded = 0 /\ sourceNodeRef exLoaded = None.
Proof.
  unfold exLoaded.
  destruct (loadFile_ok exBuffer exMounted exMounted_initialised) as (h' & -> & H).
  exact H.
Qed.

(** *** Runs of the session *)

(** [play] returns on a loaded, initialised hook whenever the clock and
    the start offset are not negative. *)
Lemma play_returns (controls : AudioProcessorControls) (clk : PlayClock) (h : Hook)
    (audioBuffer : AudioBuffer) :
  initialised h -> audioBufferRef h = Some audioBuffer -> 0 <= atParams clk ->
  0 <= startOffsetOf (pauseTimeRef h) (cutStartTimeOf controls audioBuffer)
                     (cutEndTimeOf controls audioBuffer) ->
  exists h', play controls clk h = Ok h'.
Proof.
  intros Hinit Hbuf Hnow Hso.
  destruct (play_until_tick controls clk h audioBuffer Hinit Hbuf Hnow Hso)
    as (hs & s0 & -> & Hp & Hs0 & Hst & _).
  destruct (tick_keeps_start (cutStartTimeOf controls audioBuffer)
              (cutEndTimeOf controls audioBuffer) (atTick clk) hs _ s0 Hp Hs0)
    as (h2 & s2 & -> & Hs2 & _); [rewrite Hst; eauto|].
  cbn [bind]. destruct (onended_step _ h2 s2 Hs2) as (h' & -> & _).
  now exists h'.
Qed.

Lemma exPlaying_run : play exNeutral exClock exLoaded = Ok exPlaying.
Proof.
  unfold exPlaying.
  destruct (play_returns exNeutral exClock exLoaded exBuffer) as [h' ->];
    [exact (proj1 exLoaded_facts) | exact (proj1 (proj2 exLoaded_facts))
    | lazy; discriminate | | reflexivity].
  rewrite (proj1 (proj2 (proj2 exLoaded_facts))). lazy. discriminate.
Qed.

Lemma exMasteredPlaying_run : play exMastered exClock exLoaded = Ok exMasteredPlaying.
Proof.
  unfold exMasteredPlaying.
  destruct (play_returns exMastered exClock exLoaded exBuffer) as [h' ->];
    [exact (proj1 exLoaded_facts) | exact (proj1 (proj2 exLoaded_facts))
    | lazy; discriminate | | reflexivity].
  rewrite (proj1 (proj2 (proj2 exLoaded_facts))). lazy. discriminate.
Qed.

(** The poll that finds the position at the end of the window stops the
    transport and sets the resume position to [cutStartTime]. *)
Example poll_reaches_window_end :
  match exPolled with
  | Ok h =>
      isPlaying (state h) = false /\ currentTime (state h) = 0 /\
      sourceNodeRef h = None /\ pendingFrames h = [] /\
      pauseTimeRef h = cutStartTimeOf exNeutral exBuffer /\
      stopped <$> sources h !! 0%nat = Some true
  | Raise _ => False
  end.
Proof. lazy. repeat split. Qed.

(** ** The offline render *)

(** [exportAudio] on a loaded source, for a window that is not empty. *)
Lemma exportAudio_ok (controls : AudioProcessorControls) (rnd : Rand) (h : Hook)
    (audioBuffer : AudioBuffer) :
  audioBufferRef h = Some audioBuffer ->
  toUnsignedLong ((cutEndTimeOf controls audioBuffer - cutStartTimeOf controls audioBuffer)
                  * 44100) <> 0%Z ->
  0 <= cutStartTimeOf controls audioBuffer ->
  0 <= cutEndTimeOf controls audioBuffer - cutStartTimeOf controls audioBuffer ->
  exportAudio controls rnd h
  = Ok (Some (offlineRenderOf controls audioBuffer (createReverbBuffer 44100 2 rnd).1),
        (createReverbBuffer 44100 2 rnd).2).
Proof.
  intros Hbuf Hlen Hcs Hdur. unfold exportAudio. rewrite Hbuf. cbv zeta.
  fold (cutStartTimeOf controls audioBuffer) (cutEndTimeOf controls audioBuffer).
  destruct (Z.eqb_spec (toUnsignedLong
              ((cutEndTimeOf controls audioBuffer - cutStartTimeOf controls audioBuffer)
               * 44100)) 0) as [E|_]; [contradiction|].
  destruct (createReverbBuffer 44100 2 rnd) as [reverbBuffer rnd'].
  rewrite sourceStart_ok by (try reflexivity; assumption).
  reflexivity.
Qed.

(** C1, at a failing input. The one-second source with booster and
    mastering on, beautify off and every band at 100: the realtime graph
    settles at master gain 2.5, compressor ratio 20 at -20 dB, and
    +25 dB on each of its 23 peaking filters, which sit between the source
    reader and the bass shelf; the offline graph has master gain 1.5, a
    compressor at ratio 1 and threshold 0, and no peaking filter at all:
    its source reader feeds the bass shelf directly. *)
Theorem export_diverges_from_play :
  exists hp g rnd',
    play exMastered exClock exLoaded = Ok hp /\
    exportAudio exMastered exRand exLoaded = Ok (Some g, rnd') /\
    (settled ∘ gain) <$> gainNodeRef hp = Some (5 # 2) /\
    settled (gain (offMainGain g)) = 3 # 2 /\
    compressorNodeRef hp = Some (mkCompressor (-20) 30 20) /\
    offCompressor g = mkCompressor 0 30 1 /\
    map (settled ∘ filterGain) (eqNodesRef hp) = repeat (50 # 2) 23 /\
    connections hp
    = [(NSource 0, NEq 0); (NEq 0, NEq 1); (NEq 1, NEq 2); (NEq 2, NEq 3); (NEq 3, NEq 4);
       (NEq 4, NEq 5); (NEq 5, NEq 6); (NEq 6, NEq 7); (NEq 7, NEq 8); (NEq 8, NEq 9);
       (NEq 9, NEq 10); (NEq 10, NEq 11); (NEq 11, NEq 12); (NEq 12, NEq 13);
       (NEq 13, NEq 14); (NEq 14, NEq 15); (NEq 15, NEq 16); (NEq 16, NEq 17);
       (NEq 17, NEq 18); (NEq 18, NEq 19); (NEq 19, NEq 20); (NEq 20, NEq 21);
       (NEq 21, NEq 22); (NEq 22, NBass); (NBass, NTreble); (NTreble, NCompressor);
       (NCompressor, NRoomGain 0); (NRoomGain 0, NReverb); (NReverb, NGain);
       (NCompressor, NGain); (NGain, NAnalyser); (NAnalyser, NDestination)] /\
    offConnections g
    = [(NSource 0, NBass); (NBass, NTreble); (NTreble, NCompressor);
       (NCompressor, NRoomGain 0); (NRoomGain 0, NReverb); (NReverb, NGain);
       (NCompressor, NGain); (NGain, NDestination)] /\
    (settled ∘ gain) <$> roomGains hp !! 0%nat = Some (settled (gain (offRoomGain g))) /\
    (settled ∘ filterGain) <$> bassNodeRef hp = Some (settled (filterGain (offBass g))) /\
    (settled ∘ filterGain) <$> trebleNodeRef hp = Some (settled (filterGain (offTreble g))).
Proof.
  exists exMasteredPlaying. eexists. eexists.
  split; [exact exMasteredPlaying_run|].
  split.
  { apply (exportAudio_ok exMastered exRand exLoaded exBuffer).
    - exact (proj1 (proj2 exLoaded_facts)).
    - lazy. discriminate.
    - lazy. discriminate.
    - lazy. discriminate. }
  split; [lazy; reflexivity|]. split; [lazy; reflexivity|].
  split; [lazy; reflexivity|]. split; [lazy; reflexivity|].
  split; [lazy; reflexivity|]. split; [lazy; reflexivity|].
  split; [lazy; reflexivity|]. split; [lazy; reflexivity|].
  split; lazy; reflexivity.
Qed.

(** *** The reverb impulse *)

Lemma reverbChannel_length (draw : N -> Q) (first : N) (length_ : Q) (frames : nat) :
  forall i, length (reverbChannel draw first length_ i frames) = frames.
Proof. induction frames as [|n IH]; intros i; cbn; [reflexivity | now rewrite IH]. Qed.

Lemma reverbChannel_lookup (draw : N -> Q) (first : N) (length_ : Q) (frames : nat) :
  forall i k, (k < frames)%nat ->
    reverbChannel draw first length_ i frames !! k
    = Some ((draw (first + (i + N.of_nat k))%N * 2 - 1)
            * (1 - inject_Z (Z.of_N (i + N.of_nat k)) / length_) ^ 4).
Proof.
  induction frames as [|n IH]; intros i k Hk; [lia|].
  destruct k as [|k].
  - cbn [reverbChannel lookup list_lookup]. now rewrite N.add_0_r.
  - cbn [reverbChannel]. rewrite lookup_cons. rewrite IH by lia.
    replace (N.succ i + N.of_nat k)%N with (i + N.of_nat (S k))%N by lia.
    reflexivity.
Qed.


(** The impulse of an export: 88200 frames on each of two channels, and
    176400 draws. *)
Lemma export_frames : Qfloor (44100 * 2) = 88200%Z /\ Qceiling (44100 * 2) = 88200%Z.
Proof. split; reflexivity. Qed.

Lemma export_impulse (rnd : Rand) :
  createReverbBuffer 44100 2 rnd
  = ([reverbChannel (draws rnd) (cursor rnd) (44100 * 2) 0 (Z.to_nat 88200);
      reverbChannel (draws rnd) (cursor rnd + 88200) (44100 * 2) 0 (Z.to_nat 88200)],
     mkRand (draws rnd) (cursor rnd + 88200 + 88200)).
Proof.
  unfold createReverbBuffer. cbv zeta.
  rewrite (proj1 export_frames), (proj2 export_frames). reflexivity.
Qed.

(** An export that returns a render was given a source, and the render is
    the closed form over the impulse it generated. *)
Lemma exportAudio_inv (controls : AudioProcessorControls) (rnd r : Rand) (h : Hook)
    (g : OfflineRender) :
  exportAudio controls rnd h = Ok (Some g, r) ->
  exists audioBuffer,
    audioBufferRef h = Some audioBuffer /\
    g = offlineRenderOf controls audioBuffer (createReverbBuffer 44100 2 rnd).1 /\
    r = (createReverbBuffer 44100 2 rnd).2.
Proof.
  unfold exportAudio. destruct (audioBufferRef h) as [audioBuffer|]; [|discriminate].
  cbv zeta.
  fold (cutStartTimeOf controls audioBuffer) (cutEndTimeOf controls audioBuffer).
  destruct (_ =? 0)%Z; [discriminate|].
  destruct (createReverbBuffer 44100 2 rnd) as [reverbBuffer rnd'].
  unfold sourceStart. cbn [started].
  destruct (_ || _); [discriminate|].
  cbn [bind]. intros [= <- <-]. exists audioBuffer. repeat split.
Qed.

Lemma first_impulse_sample (controls : AudioProcessorControls) (audioBuffer : AudioBuffer)
    (rnd : Rand) :
  firstImpulseSample (offlineRenderOf controls audioBuffer (createReverbBuffer 44100 2 rnd).1)
  = Some ((draws rnd (cursor rnd + 0)%N * 2 - 1) * (1 - inject_Z 0 / (44100 * 2)) ^ 4).
Proof.
  rewrite export_impulse. unfold firstImpulseSample, offlineRenderOf.
  cbn [offReverb impulse fst].
  destruct (Z.to_nat 88200) as [|n] eqn:E; [lia|].
  reflexivity.
Qed.




Lemma exRender1_run : exportAudio exNeutral exRand exLoaded = Ok (Some exRender1, exRand1).
Proof.
  apply (exportAudio_ok exNeutral exRand exLoaded exBuffer).
  - exact (proj1 (proj2 exLoaded_facts)).
  - lazy. discriminate.
  - lazy. discriminate.
  - lazy. discriminate.
Qed.

Lemma exRender2_run : exportAudio exNeutral exRand1 exLoaded = Ok (Some exRender2, exRand2).
Proof.
  apply (exportAudio_ok exNeutral exRand1 exLoaded exBuffer).
  - exact (proj1 (proj2 exLoaded_facts)).
  - lazy. discriminate.
  - lazy. discriminate.
  - lazy. discriminate.
Qed.


(** Two exports in a row draw different impulses, and the reverb send is
    open (wet level 0.15): with the draws [1/2, 1/3, 1/4, ..] the first
    sample of the impulse is 0 in the first export and [2/176402 - 1] in
    the second. *)
Example exports_in_a_row :
  exportAudio exNeutral exRand exLoaded = Ok (Some exRender1, exRand1) /\
  exportAudio exNeutral exRand1 exLoaded = Ok (Some exRender2, exRand2) /\
  settled (gain (offRoomGain exRender1)) == 15 # 100 /\
  (exists x1 x2,
     firstImpulseSample exRender1 = Some x1 /\ firstImpulseSample exRender2 = Some x2 /\
     x1 == 0 /\ x2 == (2 # 176402) - 1 /\ ~ x1 == x2) /\
  withoutImpulse exRender1 = withoutImpulse exRender2.
Proof.
  split; [exact exRender1_run|]. split; [exact exRender2_run|].
  split; [lazy; reflexivity|]. split.
  2: { unfold withoutImpulse, exRender1, exRender2, offlineRenderOf.
       cbn [offChannels offLength offSampleRate offSource offBass offTreble offCompressor
            offRoomGain offMainGain offConnections].
       reflexivity. }
  eexists. eexists.
  split; [apply first_impulse_sample|]. split; [apply first_impulse_sample|].
  unfold exRand1. rewrite export_impulse. cbn [snd draws cursor exRand].
  split; [lazy; reflexivity|]. split; [lazy; reflexivity|].
  lazy. discriminate.
Qed.

(** ** The WAV encoder *)

(** *** Bytes *)

Lemma writeBytes_length (bytes : list Z) :
  forall at_ v, length (writeBytes at_ bytes v) = length v.
Proof.
  induction bytes as [|b bytes IH]; intros at_ v; cbn; [reflexivity|].
  now rewrite IH, length_insert.
Qed.

Lemma writeBytes_lookup_other (bytes : list Z) :
  forall at_ v j, (j < at_ \/ at_ + length bytes <= j)%nat ->
    writeBytes at_ bytes v !! j = v !! j.
Proof.
  induction bytes as [|b bytes IH]; intros at_ v j Hj; cbn; [reflexivity|].
  cbn in Hj. rewrite IH by lia. apply list_lookup_insert_ne. lia.
Qed.

Lemma writeBytes_lookup_in (bytes : list Z) :
  forall at_ v k, (at_ + length bytes <= length v)%nat -> (k < length bytes)%nat ->
    writeBytes at_ bytes v !! (at_ + k)%nat = bytes !! k.
Proof.
  induction bytes as [|b bytes IH]; intros at_ v k Hfit Hk; cbn in *; [lia|].
  destruct k as [|k].
  - rewrite Nat.add_0_r, writeBytes_lookup_other by lia.
    apply list_lookup_insert_eq. lia.
  - replace (at_ + S k)%nat with (S at_ + k)%nat by lia.
    apply IH; [rewrite length_insert|]; lia.
Qed.

Lemma readUnsigned_ext (width : nat) (v v' : list Z) :
  forall at_, (forall j, (at_ <= j < at_ + width)%nat -> v !! j = v' !! j) ->
    readUnsigned width at_ v = readUnsigned width at_ v'.
Proof.
  induction width as [|width IH]; intros at_ H; cbn; [reflexivity|].
  rewrite (H at_) by lia. rewrite (IH (S at_)); [reflexivity|].
  intros j Hj. apply H. lia.
Qed.

(** A write leaves a field it does not overlap as it was. *)
Lemma readUnsigned_other (width at_ : nat) (bytes v : list Z) (at' : nat) :
  (at' + width <= at_ \/ at_ + length bytes <= at')%nat ->
  readUnsigned width at' (writeBytes at_ bytes v) = readUnsigned width at' v.
Proof.
  intros H. apply readUnsigned_ext. intros j Hj.
  apply writeBytes_lookup_other. lia.
Qed.

Lemma next_byte (d k : Z) :
  (0 <= k)%Z -> Z.land (Z.shiftr d (8 * k)) 255 = ((d / 2 ^ (8 * k)) mod 256)%Z.
Proof.
  intros Hk. rewrite Z.shiftr_div_pow2 by lia. change 255%Z with (Z.ones 8).
  now rewrite Z.land_ones by lia.
Qed.

Lemma littleEndian_length (width : nat) (d : Z) : length (littleEndian width d) = width.
Proof. unfold littleEndian. now rewrite length_map, length_seq. Qed.

Lemma littleEndian_lookup (width : nat) (d : Z) (k : nat) :
  (k < width)%nat ->
  littleEndian width d !! k = Some ((d / 2 ^ (8 * Z.of_nat k)) mod 256)%Z.
Proof.
  intros Hk. unfold littleEndian. rewrite list_lookup_fmap, lookup_seq_lt by exact Hk.
  cbn. f_equal. apply next_byte. lia.
Qed.

Lemma two_bytes (d : Z) :
  (d mod 256 + 256 * ((d / 256) mod 256 + 256 * 0) = d mod 65536)%Z.
Proof.
  pose proof (Z.div_mod d 256 ltac:(lia)).
  pose proof (Z.div_mod (d / 256) 256 ltac:(lia)).
  pose proof (Z.mod_pos_bound d 256 ltac:(lia)).
  pose proof (Z.mod_pos_bound (d / 256) 256 ltac:(lia)).
  apply (Z.mod_unique_pos _ _ (d / 256 / 256)); lia.
Qed.

Lemma four_bytes (d : Z) :
  (d mod 256
   + 256 * ((d / 256) mod 256
            + 256 * ((d / 65536) mod 256 + 256 * ((d / 16777216) mod 256 + 256 * 0)))
   = d mod 4294967296)%Z.
Proof.
  pose proof (Z.div_mod d 256 ltac:(lia)).
  pose proof (Z.div_mod (d / 256) 256 ltac:(lia)).
  pose proof (Z.div_mod (d / 65536) 256 ltac:(lia)).
  pose proof (Z.div_mod (d / 16777216) 256 ltac:(lia)).
  pose proof (Z.mod_pos_bound d 256 ltac:(lia)).
  pose proof (Z.mod_pos_bound (d / 256) 256 ltac:(lia)).
  pose proof (Z.mod_pos_bound (d / 65536) 256 ltac:(lia)).
  pose proof (Z.mod_pos_bound (d / 16777216) 256 ltac:(lia)).
  assert (d / 256 / 256 = d / 65536)%Z by (rewrite Z.div_div by lia; reflexivity).
  assert (d / 65536 / 256 = d / 16777216)%Z by (rewrite Z.div_div by lia; reflexivity).
  apply (Z.mod_unique_pos _ _ (d / 16777216 / 256)); lia.
Qed.

(** What was written with [setUint16] is read back, modulo 2^16. *)
Lemma readUnsigned_write2 (at_ : nat) (d : Z) (v : list Z) :
  (at_ + 2 <= length v)%nat ->
  readUnsigned 2 at_ (writeBytes at_ (littleEndian 2 d) v) = Some (d mod 65536)%Z.
Proof.
  intros Hfit.
  assert (Hfit' : (at_ + length (littleEndian 2 d) <= length v)%nat)
    by (now rewrite littleEndian_length).
  pose proof (writeBytes_lookup_in (littleEndian 2 d) at_ v 0 Hfit') as H0.
  pose proof (writeBytes_lookup_in (littleEndian 2 d) at_ v 1 Hfit') as H1.
  rewrite littleEndian_length in H0, H1.
  rewrite Nat.add_0_r in H0. replace (at_ + 1)%nat with (S at_) in H1 by lia.
  cbn [readUnsigned].
  rewrite H0, H1 by lia. rewrite !littleEndian_lookup by lia.
  change (2 ^ (8 * Z.of_nat 0))%Z with 1%Z. change (2 ^ (8 * Z.of_nat 1))%Z with 256%Z.
  rewrite Z.div_1_r. f_equal. apply two_bytes.
Qed.

(** What was written with [setUint32] is read back, modulo 2^32. *)
Lemma readUnsigned_write4 (at_ : nat) (d : Z) (v : list Z) :
  (at_ + 4 <= length v)%nat ->
  readUnsigned 4 at_ (writeBytes at_ (littleEndian 4 d) v) = Some (d mod 4294967296)%Z.
Proof.
  intros Hfit.
  assert (Hfit' : (at_ + length (littleEndian 4 d) <= length v)%nat)
    by (now rewrite littleEndian_length).
  pose proof (writeBytes_lookup_in (littleEndian 4 d) at_ v 0 Hfit') as H0.
  pose proof (writeBytes_lookup_in (littleEndian 4 d) at_ v 1 Hfit') as H1.
  pose proof (writeBytes_lookup_in (littleEndian 4 d) at_ v 2 Hfit') as H2.
  pose proof (writeBytes_lookup_in (littleEndian 4 d) at_ v 3 Hfit') as H3.
  rewrite littleEndian_length in H0, H1, H2, H3.
  rewrite Nat.add_0_r in H0. replace (at_ + 1)%nat with (S at_) in H1 by lia.
  replace (at_ + 2)%nat with (S (S at_)) in H2 by lia.
  replace (at_ + 3)%nat with (S (S (S at_))) in H3 by lia.
  cbn [readUnsigned].
  rewrite H0, H1, H2, H3 by lia. rewrite !littleEndian_lookup by lia.
  change (2 ^ (8 * Z.of_nat 0))%Z with 1%Z. change (2 ^ (8 * Z.of_nat 1))%Z with 256%Z.
  change (2 ^ (8 * Z.of_nat 2))%Z with 65536%Z.
  change (2 ^ (8 * Z.of_nat 3))%Z with 16777216%Z.
  rewrite Z.div_1_r. f_equal. apply four_bytes.
Qed.

Lemma dataViewSet_ok (width : nat) (byteOffset data : Z) (v : list Z) :
  (0 <= byteOffset)%Z -> (byteOffset + Z.of_nat width <= Z.of_nat (length v))%Z ->
  dataViewSet width byteOffset data v
  = Ok (writeBytes (Z.to_nat byteOffset) (littleEndian width data) v).
Proof.
  intros H0 H1. unfold dataViewSet.
  rewrite (proj2 (Z.leb_le _ _) H0), (proj2 (Z.leb_le _ _) H1). reflexivity.
Qed.


(** *** Samples *)

Lemma clampSample_range (x : Q) : -1 <= clampSample x /\ clampSample x <= 1.
Proof.
  unfold clampSample, Math_max, Math_min.
  destruct (Qltb x 1) eqn:H1.
  - apply Qltb_lt in H1.
    destruct (Qltb (-1) x) eqn:H2.
    + apply Qltb_lt in H2. split; lra.
    + split; lra.
  - destruct (Qltb (-1) 1) eqn:H2; split; lra.
Qed.

Lemma Qtrunc_between (a b : Z) (x : Q) :
  inject_Z a <= x -> x <= inject_Z b -> (a <= Qtrunc x <= b)%Z.
Proof.
  unfold Qle, Qtrunc. destruct x as [n d]. cbn. intros Ha Hb.
  rewrite Z.mul_1_r in Ha, Hb.
  split.
  - rewrite <- (Z.quot_mul a (Zpos d)) by lia. apply Z.quot_le_mono; lia.
  - rewrite <- (Z.quot_mul b (Zpos d)) by lia. apply Z.quot_le_mono; lia.
Qed.

Lemma toInt32_small (x : Q) :
  (-2147483648 <= Qtrunc x < 2147483648)%Z -> toInt32 x = Qtrunc x.
Proof.
  intros H. unfold toInt32. fold (Qtrunc x).
  change (2 ^ 31)%Z with 2147483648%Z. change (2 ^ 32)%Z with 4294967296%Z.
  rewrite Z.mod_small by lia. lia.
Qed.

(** The encoding of a sample: the clamped sample times 32768 when it is
    below -1/2 and times 32767 otherwise, truncated; the result fits in 16
    signed bits, so neither [| 0] nor [setInt16] wraps it. *)
Lemma encodeSample_spec (x : Q) :
  (clampSample x < -(1 # 2) -> encodeSample x = Qtrunc (clampSample x * 32768)) /\
  (-(1 # 2) <= clampSample x -> encodeSample x = Qtrunc (clampSample x * 32767)) /\
  (-32768 <= encodeSample x <= 32767)%Z.
Proof.
  destruct (clampSample_range x) as [Hlo Hhi].
  unfold encodeSample. cbv zeta. set (s := clampSample x) in *.
  destruct (Qltb ((1 # 2) + s) 0) eqn:Hb.
  - apply Qltb_lt in Hb.
    assert (Hr : (-32768 <= Qtrunc (s * 32768) <= 32767)%Z).
    { apply Qtrunc_between.
      - change (inject_Z (-32768)) with (-(32768)). lra.
      - change (inject_Z 32767) with 32767. lra. }
    rewrite toInt32_small by lia.
    split; [reflexivity|]. split; [intros H; lra | exact Hr].
  - apply Qltb_ge in Hb.
    assert (Hr : (-32768 <= Qtrunc (s * 32767) <= 32767)%Z).
    { apply Qtrunc_between.
      - change (inject_Z (-32768)) with (-(32768)). lra.
      - change (inject_Z 32767) with 32767. lra. }
    rewrite toInt32_small by lia.
    split; [intros H; lra|]. split; [reflexivity | exact Hr].
Qed.

Lemma sampleWord_range (b : AudioBuffer) (i : nat) (frame : Z) :
  (-32768 <= sampleWord b i frame <= 32767)%Z.
Proof.
  unfold sampleWord.
  destruct (getChannelData b !! i) as [channel|]; [|lia].
  destruct (channel !! Z.to_nat frame) as [x|]; [|lia].
  destruct (0 <=? frame)%Z; [|lia].
  apply encodeSample_spec.
Qed.

(** What was written with [setInt16] is read back when it fits in 16
    signed bits. *)
Lemma readInt16_write (at_ : nat) (d : Z) (v : list Z) :
  (at_ + 2 <= length v)%nat -> (-32768 <= d <= 32767)%Z ->
  readInt16 at_ (writeBytes at_ (littleEndian 2 d) v) = Some d.
Proof.
  intros Hfit Hd. unfold readInt16. rewrite readUnsigned_write2 by exact Hfit.
  f_equal. destruct (Z.ltb_spec (d mod 65536) 32768) as [Hlt|Hge].
  - destruct (Z.le_gt_cases 0 d) as [Hpos|Hneg].
    + apply Z.mod_small. lia.
    + exfalso. assert (E : (d mod 65536 = d + 65536)%Z).
      { symmetry. apply (Z.mod_unique_pos _ _ (-1)); lia. }
      lia.
  - destruct (Z.le_gt_cases 0 d) as [Hpos|Hneg].
    + exfalso. rewrite Z.mod_small in Hge by lia. lia.
    + assert (E : (d mod 65536 = d + 65536)%Z).
      { symmetry. apply (Z.mod_unique_pos _ _ (-1)); lia. }
      lia.
Qed.

Lemma readInt16_other (at_ : nat) (bytes v : list Z) (at' : nat) :
  (at' + 2 <= at_ \/ at_ + length bytes <= at')%nat ->
  readInt16 at' (writeBytes at_ bytes v) = readInt16 at' v.
Proof. intros H. unfold readInt16. now rewrite readUnsigned_other. Qed.

(** *** The loops *)

Lemma wordsEncoded_nil (b : AudioBuffer) (v : list Z) : wordsEncoded b v 0.
Proof. intros k Hk. lia. Qed.

(** One more word, written right after the words that are there. *)
Lemma wordsEncoded_step (b : AudioBuffer) (v : list Z) (m : Z) (i : nat) (frame : Z) :
  (0 <= m)%Z -> (Z.of_nat i < numberOfChannels b)%Z -> (0 <= frame < frameLength b)%Z ->
  (44 + 2 * m + 2 <= Z.of_nat (length v))%Z ->
  wordsEncoded b v m ->
  wordsEncoded b (writeBytes (Z.to_nat (44 + 2 * m))
                             (littleEndian 2 (sampleWord b i frame)) v) (m + 1).
Proof.
  intros Hm Hi Hframe Hfit Hwords k Hk.
  destruct (Z.eq_dec k m) as [->|Hne].
  - exists i, frame. split; [exact Hi|]. split; [exact Hframe|].
    apply readInt16_write; [lia | apply sampleWord_range].
  - destruct (Hwords k ltac:(lia)) as (i' & frame' & Hi' & Hframe' & Hread).
    exists i', frame'. split; [exact Hi'|]. split; [exact Hframe'|].
    rewrite readInt16_other; [exact Hread|]. left. lia.
Qed.

(** The body of the [while] loop over the channels in [l]: each writes one
    word at the running offset. *)
Lemma writeFrame_fold (b : AudioBuffer) (l : list nat) :
  forall (w : WavWriter) (m : Z),
    Forall (fun i => (Z.of_nat i < numberOfChannels b)%Z) l ->
    (0 <= m)%Z -> offset w = (2 * m)%Z -> (0 <= pos w < frameLength b)%Z ->
    (44 + 2 * (m + Z.of_nat (length l)) <= Z.of_nat (length (view w)))%Z ->
    wordsEncoded b (view w) m ->
    exists w',
      foldl (fun acc (i : nat) =>
               w' <- acc ;;
               v <- dataViewSet 2 (44 + offset w') (sampleWord b i (pos w')) (view w') ;;
               Ok (mkWriter v (pos w') (offset w' + 2)))
            (Ok w) l = Ok w' /\
      pos w' = pos w /\ offset w' = (2 * (m + Z.of_nat (length l)))%Z /\
      length (view w') = length (view w) /\
      wordsEncoded b (view w') (m + Z.of_nat (length l)) /\
      (forall width at_, (at_ + width <= 44)%nat ->
         readUnsigned width at_ (view w') = readUnsigned width at_ (view w)).
Proof.
  induction l as [|i l IH]; intros w m Hl Hm Hoff Hpos Hfit Hwords.
  - exists w. cbn [foldl length Z.of_nat]. rewrite Z.add_0_r.
    repeat (split; [first [reflexivity | assumption]|]). reflexivity.
  - inversion Hl as [|? ? Hi Hl']; subst. cbn [foldl bind]. cbn [length] in Hfit.
    rewrite dataViewSet_ok by (rewrite ?Hoff; lia). cbn [bind].
    rewrite Hoff.
    set (v1 := writeBytes _ _ (view w)).
    destruct (IH (mkWriter v1 (pos w) (2 * m + 2)) (m + 1)%Z) as (w' & E & Hp & Ho & Hlen & Hw & Hh).
    + exact Hl'.
    + lia.
    + cbn. lia.
    + exact Hpos.
    + cbn [view]. subst v1. rewrite writeBytes_length. lia.
    + cbn [view]. subst v1. apply wordsEncoded_step; try assumption; lia.
    + exists w'. split; [exact E|]. cbn [pos view] in *.
      split; [exact Hp|]. split; [rewrite Ho; cbn [length]; lia|].
      split; [rewrite Hlen; subst v1; apply writeBytes_length|].
      split.
      * replace (m + Z.of_nat (length (i :: l)))%Z with (m + 1 + Z.of_nat (length l))%Z
          by (cbn [length]; lia).
        exact Hw.
      * intros width at_ Hat. rewrite Hh by exact Hat. subst v1.
        apply readUnsigned_other. left. lia.
Qed.

Lemma writeFrame_ok (b : AudioBuffer) (w : WavWriter) (m : Z) :
  (0 <= numberOfChannels b)%Z ->
  (0 <= m)%Z -> offset w = (2 * m)%Z -> (0 <= pos w < frameLength b)%Z ->
  (44 + 2 * (m + numberOfChannels b) <= Z.of_nat (length (view w)))%Z ->
  wordsEncoded b (view w) m ->
  exists w',
    writeFrame b w = Ok w' /\
    pos w' = pos w /\ offset w' = (2 * (m + numberOfChannels b))%Z /\
    length (view w') = length (view w) /\
    wordsEncoded b (view w') (m + numberOfChannels b) /\
    (forall width at_, (at_ + width <= 44)%nat ->
       readUnsigned width at_ (view w') = readUnsigned width at_ (view w)).
Proof.
  intros Hnc Hm Hoff Hpos Hfit Hwords. unfold writeFrame.
  assert (Hlen : Z.of_nat (length (seq 0 (Z.to_nat (numberOfChannels b))))
                 = numberOfChannels b) by (rewrite length_seq; lia).
  destruct (writeFrame_fold b (seq 0 (Z.to_nat (numberOfChannels b))) w m)
    as (w' & E & H); try assumption.
  - apply Forall_seq. intros i Hi. lia.
  - rewrite Hlen. exact Hfit.
  - rewrite Hlen in H. now exists w'.
Qed.

(** The [while] loop, with the fuel it needs. *)
Lemma writeFrames_ok (b : AudioBuffer) (fuel : nat) :
  forall (w : WavWriter) (m : Z),
    (0 <= numberOfChannels b)%Z ->
    Z.of_nat fuel = Z.max 0 (frameLength b - pos w) ->
    (0 <= m)%Z -> offset w = (2 * m)%Z -> (0 <= pos w)%Z ->
    (44 + 2 * (m + numberOfChannels b * Z.of_nat fuel) <= Z.of_nat (length (view w)))%Z ->
    wordsEncoded b (view w) m ->
    exists w',
      writeFrames b fuel w = Ok w' /\
      length (view w') = length (view w) /\
      wordsEncoded b (view w') (m + numberOfChannels b * Z.of_nat fuel) /\
      (forall width at_, (at_ + width <= 44)%nat ->
         readUnsigned width at_ (view w') = readUnsigned width at_ (view w)).
Proof.
  induction fuel as [|fuel IH]; intros w m Hnc Hfuel Hm Hoff Hpos Hfit Hwords.
  - exists w. cbn [writeFrames Z.of_nat]. rewrite Z.mul_0_r, Z.add_0_r.
    repeat (split; [first [reflexivity | assumption]|]). reflexivity.
  - cbn [writeFrames].
    assert (Hlt : (pos w < frameLength b)%Z) by lia.
    rewrite (proj2 (Z.ltb_lt _ _) Hlt).
    assert (Hmul : (numberOfChannels b * Z.of_nat (S fuel)
                    = numberOfChannels b + numberOfChannels b * Z.of_nat fuel)%Z)
      by (rewrite Nat2Z.inj_succ; ring).
    rewrite Hmul in Hfit.
    assert (Hrest : (0 <= numberOfChannels b * Z.of_nat fuel)%Z)
      by (apply Z.mul_nonneg_nonneg; lia).
    destruct (writeFrame_ok b w m) as (w1 & -> & Hp1 & Ho1 & Hl1 & Hw1 & Hh1);
      try assumption; try lia.
    cbn [bind].
    assert (H1 : Z.of_nat fuel = Z.max 0 (frameLength b - (pos w1 + 1))) by lia.
    assert (H2 : (0 <= m + numberOfChannels b)%Z) by lia.
    assert (H3 : offset w1 = (2 * (m + numberOfChannels b))%Z) by exact Ho1.
    assert (H4 : (0 <= pos w1 + 1)%Z) by lia.
    assert (H5 : (44 + 2 * (m + numberOfChannels b + numberOfChannels b * Z.of_nat fuel)
                  <= Z.of_nat (length (view w1)))%Z) by (rewrite Hl1; lia).
    destruct (IH (mkWriter (view w1) (pos w1 + 1) (offset w1)) (m + numberOfChannels b)%Z
                 Hnc H1 H2 H3 H4 H5 Hw1)
      as (w' & E & Hl' & Hw' & Hh').
    exists w'. split; [exact E|]. cbn [view] in *.
    split; [now rewrite Hl', Hl1|].
    split.
    + rewrite Hmul.
      replace (m + (numberOfChannels b + numberOfChannels b * Z.of_nat fuel))%Z
        with (m + numberOfChannels b + numberOfChannels b * Z.of_nat fuel)%Z by lia.
      exact Hw'.
    + intros width at_ Hat. now rewrite Hh', Hh1.
Qed.

(** *** The container *)

Lemma setUint32_at (d : Z) (v : list Z) (p o : Z) (n : nat) (p' : Z) :
  Z.to_nat p = n -> (p + 4)%Z = p' ->
  (0 <= p)%Z -> (p + 4 <= Z.of_nat (length v))%Z ->
  setUint32 d (mkWriter v p o) = Ok (mkWriter (writeBytes n (littleEndian 4 d) v) p' o).
Proof.
  intros <- <- H0 H1. unfold setUint32. cbn [pos view offset].
  now rewrite dataViewSet_ok by (cbn; lia).
Qed.

Lemma setUint16_at (d : Z) (v : list Z) (p o : Z) (n : nat) (p' : Z) :
  Z.to_nat p = n -> (p + 2)%Z = p' ->
  (0 <= p)%Z -> (p + 2 <= Z.of_nat (length v))%Z ->
  setUint16 d (mkWriter v p o) = Ok (mkWriter (writeBytes n (littleEndian 2 d) v) p' o).
Proof.
  intros <- <- H0 H1. unfold setUint16. cbn [pos view offset].
  now rewrite dataViewSet_ok by (cbn; lia).
Qed.

Lemma wordsEncoded_fewer (b : AudioBuffer) (v : list Z) (n n' : Z) :
  (n' <= n)%Z -> wordsEncoded b v n -> wordsEncoded b v n'.
Proof. intros Hn H k Hk. apply H. lia. Qed.

Lemma sampleWord_defined (b : AudioBuffer) (i : nat) (frame : Z) (channel : list Q) (x : Q) :
  getChannelData b !! i = Some channel -> channel !! Z.to_nat frame = Some x ->
  (0 <= frame)%Z -> sampleWord b i frame = encodeSample x.
Proof.
  intros Hc Hx Hf. unfold sampleWord. rewrite Hc, Hx.
  now rewrite (proj2 (Z.leb_le _ _) Hf).
Qed.

(** C4, as the code has it. The encoder writes a 16-bit PCM header with
    block-align = channels * 2 and byte-rate = sampleRate * channels * 2,
    and every 16-bit word it writes into the data chunk is the encoding of
    a sample of the buffer: the sample clamped to [[-1, 1]], then scaled by
    32768 when it is below -1/2 and by 32767 otherwise, then truncated. *)
Theorem audioBufferToWav_layout (b : AudioBuffer) :
  (0 < numberOfChannels b < 32768)%Z -> (0 <= frameLength b)%Z ->
  (0 <= sampleRate b)%Z -> (sampleRate b * 2 * numberOfChannels b < 4294967296)%Z ->
  exists bytes,
    audioBufferToWav b = Ok bytes /\
    Z.of_nat (length bytes) = (frameLength b * numberOfChannels b * 2 + 44)%Z /\
    readUnsigned 2 20 bytes = Some 1%Z /\
    readUnsigned 2 22 bytes = Some (numberOfChannels b) /\
    readUnsigned 4 24 bytes = Some (sampleRate b) /\
    readUnsigned 4 28 bytes = Some (sampleRate b * numberOfChannels b * 2)%Z /\
    readUnsigned 2 32 bytes = Some (numberOfChannels b * 2)%Z /\
    readUnsigned 2 34 bytes = Some 16%Z /\
    (forall k, (0 <= k < numberOfChannels b * (frameLength b - 44))%Z ->
       exists (i : nat) (frame : Z),
         (Z.of_nat i < numberOfChannels b)%Z /\ (0 <= frame < frameLength b)%Z /\
         readInt16 (Z.to_nat (44 + 2 * k)) bytes = Some (sampleWord b i frame)) /\
    (forall i frame channel x,
       getChannelData b !! i = Some channel -> channel !! Z.to_nat frame = Some x ->
       (0 <= frame)%Z ->
       sampleWord b i frame = encodeSample x /\
       -1 <= clampSample x /\ clampSample x <= 1 /\
       (clampSample x < -(1 # 2) -> encodeSample x = Qtrunc (clampSample x * 32768)) /\
       (-(1 # 2) <= clampSample x -> encodeSample x = Qtrunc (clampSample x * 32767)) /\
       (-32768 <= encodeSample x <= 32767)%Z).
Proof.
  intros Hnc Hfl Hsr Hrate.
  unfold audioBufferToWav. cbv zeta.
  set (L := (frameLength b * numberOfChannels b * 2 + 44)%Z).
  assert (HL : (44 <= L)%Z) by (subst L; nia).
  rewrite (proj2 (Z.ltb_ge L 0)) by lia.
  set (v0 := repeat 0%Z (Z.to_nat L)).
  assert (Hv0 : Z.of_nat (length v0) = L) by (subst v0; rewrite repeat_length; lia).
  rewrite (setUint32_at _ _ 0 _ 0%nat 4) by first [reflexivity | lia]. cbn [bind].
  rewrite (setUint32_at _ _ 4 _ 4%nat 8)
    by first [reflexivity | rewrite ?writeBytes_length; lia]. cbn [bind].
  rewrite (setUint32_at _ _ 8 _ 8%nat 12)
    by first [reflexivity | rewrite ?writeBytes_length; lia]. cbn [bind].
  rewrite (setUint32_at _ _ 12 _ 12%nat 16)
    by first [reflexivity | rewrite ?writeBytes_length; lia]. cbn [bind].
  rewrite (setUint32_at _ _ 16 _ 16%nat 20)
    by first [reflexivity | rewrite ?writeBytes_length; lia]. cbn [bind].
  rewrite (setUint16_at _ _ 20 _ 20%nat 22)
    by first [reflexivity | rewrite ?writeBytes_length; lia]. cbn [bind].
  rewrite (setUint16_at _ _ 22 _ 22%nat 24)
    by first [reflexivity | rewrite ?writeBytes_length; lia]. cbn [bind].
  rewrite (setUint32_at _ _ 24 _ 24%nat 28)
    by first [reflexivity | rewrite ?writeBytes_length; lia]. cbn [bind].
  rewrite (setUint32_at _ _ 28 _ 28%nat 32)
    by first [reflexivity | rewrite ?writeBytes_length; lia]. cbn [bind].
  rewrite (setUint16_at _ _ 32 _ 32%nat 34)
    by first [reflexivity | rewrite ?writeBytes_length; lia]. cbn [bind].
  rewrite (setUint16_at _ _ 34 _ 34%nat 36)
    by first [reflexivity | rewrite ?writeBytes_length; lia]. cbn [bind].
  rewrite (setUint32_at _ _ 36 _ 36%nat 40)
    by first [reflexivity | rewrite ?writeBytes_length; lia]. cbn [bind pos].
  rewrite (setUint32_at _ _ 40 _ 40%nat 44)
    by first [reflexivity | rewrite ?writeBytes_length; lia]. cbn [bind pos].
  set (v44 := writeBytes 40 _ _).
  assert (Hv44 : Z.of_nat (length v44) = L)
    by (subst v44; rewrite !writeBytes_length; exact Hv0).
  assert (P1 : Z.of_nat (Z.to_nat (frameLength b - 44))
               = Z.max 0 (frameLength b - pos (mkWriter v44 44 0))) by (cbn [pos]; lia).
  assert (P2 : (44 + 2 * (0 + numberOfChannels b * Z.of_nat (Z.to_nat (frameLength b - 44)))
                <= Z.of_nat (length (view (mkWriter v44 44 0))))%Z)
    by (cbn [view]; rewrite Hv44; subst L; nia).
  destruct (writeFrames_ok b (Z.to_nat (frameLength b - 44)) (mkWriter v44 44 0) 0
              ltac:(lia) P1 ltac:(lia) eq_refl ltac:(cbn; lia) P2 (wordsEncoded_nil b v44))
    as (w' & -> & Hlen & Hwords & Hhead).
  cbn [bind view pos offset] in *.
  exists (view w'). split; [reflexivity|].
  split; [rewrite Hlen; exact Hv44|].
  assert (Hsr' : (sampleRate b < 4294967296)%Z) by nia.
  rewrite !Hhead by lia. subst v44.
  split.
  { rewrite !readUnsigned_other by (rewrite littleEndian_length; lia).
    rewrite readUnsigned_write2 by (rewrite ?writeBytes_length; lia). reflexivity. }
  split.
  { rewrite !readUnsigned_other by (rewrite littleEndian_length; lia).
    rewrite readUnsigned_write2 by (rewrite ?writeBytes_length; lia).
    f_equal. apply Z.mod_small. lia. }
  split.
  { rewrite !readUnsigned_other by (rewrite littleEndian_length; lia).
    rewrite readUnsigned_write4 by (rewrite ?writeBytes_length; lia).
    f_equal. apply Z.mod_small. lia. }
  split.
  { rewrite !readUnsigned_other by (rewrite littleEndian_length; lia).
    rewrite readUnsigned_write4 by (rewrite ?writeBytes_length; lia).
    f_equal. rewrite Z.mod_small by lia. ring. }
  split.
  { rewrite !readUnsigned_other by (rewrite littleEndian_length; lia).
    rewrite readUnsigned_write2 by (rewrite ?writeBytes_length; lia).
    f_equal. apply Z.mod_small. lia. }
  split.
  { rewrite !readUnsigned_other by (rewrite littleEndian_length; lia).
    rewrite readUnsigned_write2 by (rewrite ?writeBytes_length; lia). reflexivity. }
  split.
  { apply (wordsEncoded_fewer b (view w')
             (0 + numberOfChannels b * Z.of_nat (Z.to_nat (frameLength b - 44))));
      [nia | exact Hwords]. }
  intros i frame channel x Hc Hx Hf.
  split; [now apply sampleWord_defined with channel|].
  destruct (clampSample_range x) as [Hlo Hhi].
  destruct (encodeSample_spec x) as (Hbelow & Habove & Hrange).
  split; [exact Hlo|]. split; [exact Hhi|]. split; [exact Hbelow|].
  split; [exact Habove | exact Hrange].
Qed.

Lemma audioBufferToWav_layout_witness :
  (0 < numberOfChannels exQuiet < 32768)%Z /\ (0 <= frameLength exQuiet)%Z /\
  (0 <= sampleRate exQuiet)%Z /\
  (sampleRate exQuiet * 2 * numberOfChannels exQuiet < 4294967296)%Z /\
  exists bytes,
    audioBufferToWav exQuiet = Ok bytes /\
    Z.of_nat (length bytes) = (frameLength exQuiet * numberOfChannels exQuiet * 2 + 44)%Z /\
    readUnsigned 2 20 bytes = Some 1%Z /\
    readUnsigned 2 22 bytes = Some (numberOfChannels exQuiet) /\
    readUnsigned 4 24 bytes = Some (sampleRate exQuiet) /\
    readUnsigned 4 28 bytes = Some (sampleRate exQuiet * numberOfChannels exQuiet * 2)%Z /\
    readUnsigned 2 32 bytes = Some (numberOfChannels exQuiet * 2)%Z /\
    readUnsigned 2 34 bytes = Some 16%Z /\
    (forall k, (0 <= k < numberOfChannels exQuiet * (frameLength exQuiet - 44))%Z ->
       exists (i : nat) (frame : Z),
         (Z.of_nat i < numberOfChannels exQuiet)%Z /\
         (0 <= frame < frameLength exQuiet)%Z /\
         readInt16 (Z.to_nat (44 + 2 * k)) bytes = Some (sampleWord exQuiet i frame)) /\
    (forall i frame channel x,
       getChannelData exQuiet !! i = Some channel -> channel !! Z.to_nat frame = Some x ->
       (0 <= frame)%Z ->
       sampleWord exQuiet i frame = encodeSample x /\
       -1 <= clampSample x /\ clampSample x <= 1 /\
       (clampSample x < -(1 # 2) -> encodeSample x = Qtrunc (clampSample x * 32768)) /\
       (-(1 # 2) <= clampSample x -> encodeSample x = Qtrunc (clampSample x * 32767)) /\
       (-32768 <= encodeSample x <= 32767)%Z).
Proof.
  assert (H1 : (0 < numberOfChannels exQuiet < 32768)%Z) by (vm_compute; split; reflexivity).
  assert (H2 : (0 <= frameLength exQuiet)%Z) by (vm_compute; discriminate).
  assert (H3 : (0 <= sampleRate exQuiet)%Z) by (vm_compute; discriminate).
  assert (H4 : (sampleRate exQuiet * 2 * numberOfChannels exQuiet < 4294967296)%Z)
    by (vm_compute; reflexivity).
  split; [exact H1|]. split; [exact H2|]. split; [exact H3|]. split; [exact H4|].
  exact (audioBufferToWav_layout exQuiet H1 H2 H3 H4).
Defined.

(** C4 as stated fails on a sample between -1/2 and 0: the encoder scales
    -1/4 by 32767 and stores -8191, where scaling negative samples by
    32768 gives -8192. In the file made from [exQuiet] the first data word
    holds that -8191. *)
Lemma negative_sample_scaled_by_32767 :
  encodeSample (-1 # 4) = (-8191)%Z /\
  claimedSample (-1 # 4) = (-8192)%Z /\
  encodeSample (-1 # 4) <> claimedSample (-1 # 4) /\
  exists bytes,
    audioBufferToWav exQuiet = Ok bytes /\
    readInt16 44 bytes = Some (-8191)%Z /\
    sampleWord exQuiet 0 44 = (-8191)%Z.
Proof.
  split; [vm_compute; reflexivity|]. split; [vm_compute; reflexivity|].
  split; [vm_compute; discriminate|].
  eexists. split; [vm_compute; reflexivity|].
  split; vm_compute; reflexivity.
Qed.

(** The whole file made from [exQuiet]: the 44 bytes of the header, then
    the words of frames 44 and 45, then zeros to the end of the data
    chunk. *)
Example exQuiet_file :
  exists bytes,
    audioBufferToWav exQuiet = Ok bytes /\
    take 44 bytes
    = [82; 73; 70; 70; 128; 0; 0; 0; 87; 65; 86; 69; 102; 109; 116; 32; 16; 0; 0; 0;
       1; 0; 1; 0; 64; 31; 0; 0; 128; 62; 0; 0; 2; 0; 16; 0; 100; 97; 116; 97;
       92; 0; 0; 0]%Z /\
    readInt16 44 bytes = Some (-8191)%Z /\ readInt16 46 bytes = Some 8191%Z /\
    drop 48 bytes = repeat 0%Z 88.
Proof.
  eexists. split; [vm_compute; reflexivity|].
  split; [vm_compute; reflexivity|]. split; [vm_compute; reflexivity|].
  split; vm_compute; reflexivity.
Qed.

(** * Further properties *)

(** ** The WAV encoder, byte by byte *)

Lemma writeBytes_app_l (bytes : list Z) :
  forall at_ v1 v2, (at_ + length bytes <= length v1)%nat ->
    writeBytes at_ bytes (v1 ++ v2) = writeBytes at_ bytes v1 ++ v2.
Proof.
  induction bytes as [|x bytes IH]; intros at_ v1 v2 Hfit; cbn in *; [reflexivity|].
  rewrite insert_app_l by lia. apply IH. rewrite length_insert. lia.
Qed.

(** After the header is written the writer stands at byte 44, over the
    header followed by zeros. *)
Lemma audioBufferToWav_header (b : AudioBuffer) :
  (0 <= numberOfChannels b)%Z -> (0 <= frameLength b)%Z ->
  audioBufferToWav b
  = (w <- writeFrames b (Z.to_nat (frameLength b - 44))
                      (mkWriter (headerBytes b
                                 ++ repeat 0%Z (Z.to_nat (frameLength b * numberOfChannels b * 2)))
                                44 0) ;;
     Ok (view w)).
Proof.
  intros Hnc Hfl.
  unfold audioBufferToWav. cbv zeta.
  set (L := (frameLength b * numberOfChannels b * 2 + 44)%Z).
  assert (HL : (44 <= L)%Z) by (subst L; nia).
  rewrite (proj2 (Z.ltb_ge L 0)) by lia.
  replace (Z.to_nat L) with (44 + Z.to_nat (frameLength b * numberOfChannels b * 2))%nat
    by (subst L; lia).
  rewrite repeat_app.
  set (tail_ := repeat 0%Z (Z.to_nat (frameLength b * numberOfChannels b * 2))).
  assert (H44 : length (repeat 0%Z 44) = 44%nat) by reflexivity.
  assert (Hv0 : (44 <= Z.of_nat (length (repeat 0%Z 44 ++ tail_)))%Z)
    by (rewrite length_app, H44; lia).
  rewrite (setUint32_at _ _ 0 _ 0%nat 4) by first [reflexivity | lia]. cbn [bind].
  rewrite (setUint32_at _ _ 4 _ 4%nat 8)
    by first [reflexivity | rewrite ?writeBytes_length; lia]. cbn [bind].
  rewrite (setUint32_at _ _ 8 _ 8%nat 12)
    by first [reflexivity | rewrite ?writeBytes_length; lia]. cbn [bind].
  rewrite (setUint32_at _ _ 12 _ 12%nat 16)
    by first [reflexivity | rewrite ?writeBytes_length; lia]. cbn [bind].
  rewrite (setUint32_at _ _ 16 _ 16%nat 20)
    by first [reflexivity | rewrite ?writeBytes_length; lia]. cbn [bind].
  rewrite (setUint16_at _ _ 20 _ 20%nat 22)
    by first [reflexivity | rewrite ?writeBytes_length; lia]. cbn [bind].
  rewrite (setUint16_at _ _ 22 _ 22%nat 24)
    by first [reflexivity | rewrite ?writeBytes_length; lia]. cbn [bind].
  rewrite (setUint32_at _ _ 24 _ 24%nat 28)
    by first [reflexivity | rewrite ?writeBytes_length; lia]. cbn [bind].
  rewrite (setUint32_at _ _ 28 _ 28%nat 32)
    by first [reflexivity | rewrite ?writeBytes_length; lia]. cbn [bind].
  rewrite (setUint16_at _ _ 32 _ 32%nat 34)
    by first [reflexivity | rewrite ?writeBytes_length; lia]. cbn [bind].
  rewrite (setUint16_at _ _ 34 _ 34%nat 36)
    by first [reflexivity | rewrite ?writeBytes_length; lia]. cbn [bind].
  rewrite (setUint32_at _ _ 36 _ 36%nat 40)
    by first [reflexivity | rewrite ?writeBytes_length; lia]. cbn [bind pos].
  rewrite (setUint32_at _ _ 40 _ 40%nat 44)
    by first [reflexivity | rewrite ?writeBytes_length; lia]. cbn [bind pos].
  repeat (rewrite writeBytes_app_l
            by (rewrite ?writeBytes_length, ?H44, ?littleEndian_length; cbn; lia)).
  reflexivity.
Qed.

Lemma readInt16_ext (at_ : nat) (v v' : list Z) :
  (forall j, (at_ <= j < at_ + 2)%nat -> v !! j = v' !! j) ->
  readInt16 at_ v = readInt16 at_ v'.
Proof. intros H. unfold readInt16. now rewrite (readUnsigned_ext 2 v v' at_ H). Qed.

(** The channel loop of one frame, word by word: channel number [j] of
    [l] lands in word [m + j] of the data chunk, and no other byte of the
    buffer changes. *)
Lemma writeFrame_fold_exact (b : AudioBuffer) (l : list nat) :
  forall (w : WavWriter) (m : Z),
    (0 <= m)%Z -> offset w = (2 * m)%Z ->
    (44 + 2 * (m + Z.of_nat (length l)) <= Z.of_nat (length (view w)))%Z ->
    exists w',
      foldl (fun acc (i : nat) =>
               w' <- acc ;;
               v <- dataViewSet 2 (44 + offset w') (sampleWord b i (pos w')) (view w') ;;
               Ok (mkWriter v (pos w') (offset w' + 2)))
            (Ok w) l = Ok w' /\
      pos w' = pos w /\ offset w' = (2 * (m + Z.of_nat (length l)))%Z /\
      length (view w') = length (view w) /\
      (forall (j : nat) (i : nat), l !! j = Some i ->
         readInt16 (Z.to_nat (44 + 2 * (m + Z.of_nat j))) (view w')
         = Some (sampleWord b i (pos w))) /\
      (forall idx : nat,
         (idx < Z.to_nat (44 + 2 * m) \/
          Z.to_nat (44 + 2 * (m + Z.of_nat (length l))) <= idx)%nat ->
         view w' !! idx = view w !! idx).
Proof.
  induction l as [|i l IH]; intros w m Hm Hoff Hfit.
  - exists w. cbn [foldl length Z.of_nat]. rewrite Z.add_0_r.
    repeat (split; [first [reflexivity | assumption]|]).
    split; [intros j i Hj; discriminate Hj | reflexivity].
  - cbn [foldl bind]. cbn [length] in Hfit.
    rewrite dataViewSet_ok by (rewrite ?Hoff; lia). cbn [bind].
    rewrite Hoff.
    set (v1 := writeBytes _ _ (view w)).
    assert (Hlen1 : length v1 = length (view w)) by (subst v1; apply writeBytes_length).
    destruct (IH (mkWriter v1 (pos w) (2 * m + 2)) (m + 1)%Z) as (w' & E & Hp & Ho & Hlen & Hin & Hout).
    + lia.
    + cbn. lia.
    + cbn [view]. rewrite Hlen1. lia.
    + exists w'. split; [exact E|]. cbn [pos view] in *.
      split; [exact Hp|]. split; [rewrite Ho; cbn [length]; lia|].
      split; [now rewrite Hlen|].
      split.
      * intros [|j] i' Hj.
        -- cbn in Hj. injection Hj as <-. cbn [Z.of_nat]. rewrite Z.add_0_r.
           rewrite (readInt16_ext _ (view w') v1) by (intros k Hk; apply Hout; lia).
           subst v1. apply readInt16_write; [lia | apply sampleWord_range].
        -- cbn in Hj. specialize (Hin j i' Hj).
           replace (m + Z.of_nat (S j))%Z with (m + 1 + Z.of_nat j)%Z by lia.
           exact Hin.
      * intros idx Hidx. rewrite Hout by (cbn [length] in Hidx; lia).
        subst v1. apply writeBytes_lookup_other. rewrite littleEndian_length.
        cbn [length] in Hidx. lia.
Qed.

Lemma writeFrame_exact (b : AudioBuffer) (w : WavWriter) (m : Z) :
  (0 <= numberOfChannels b)%Z -> (0 <= m)%Z -> offset w = (2 * m)%Z ->
  (44 + 2 * (m + numberOfChannels b) <= Z.of_nat (length (view w)))%Z ->
  exists w',
    writeFrame b w = Ok w' /\
    pos w' = pos w /\ offset w' = (2 * (m + numberOfChannels b))%Z /\
    length (view w') = length (view w) /\
    (forall i : Z, (0 <= i < numberOfChannels b)%Z ->
       readInt16 (Z.to_nat (44 + 2 * (m + i))) (view w')
       = Some (sampleWord b (Z.to_nat i) (pos w))) /\
    (forall idx : nat,
       (idx < Z.to_nat (44 + 2 * m) \/
        Z.to_nat (44 + 2 * (m + numberOfChannels b)) <= idx)%nat ->
       view w' !! idx = view w !! idx).
Proof.
  intros Hnc Hm Hoff Hfit. unfold writeFrame.
  assert (Hlen : Z.of_nat (length (seq 0 (Z.to_nat (numberOfChannels b))))
                 = numberOfChannels b) by (rewrite length_seq; lia).
  destruct (writeFrame_fold_exact b (seq 0 (Z.to_nat (numberOfChannels b))) w m Hm Hoff)
    as (w' & E & Hp & Ho & Hl & Hin & Hout).
  - rewrite Hlen. exact Hfit.
  - rewrite Hlen in *. exists w'. split; [exact E|].
    split; [exact Hp|]. split; [exact Ho|]. split; [exact Hl|].
    split; [|exact Hout].
    intros i Hi. specialize (Hin (Z.to_nat i) (Z.to_nat i)).
    rewrite Z2Nat.id in Hin by lia. apply Hin.
    rewrite lookup_seq_lt by lia. reflexivity.
Qed.

(** The [while] loop, word by word: the word of channel [i] of frame
    [frame] lands [numberOfChannels * (frame - pos) + i] words after the
    running offset, for every frame from [pos] on, and no other byte
    changes. *)
Lemma writeFrames_exact (b : AudioBuffer) (fuel : nat) :
  forall (w : WavWriter) (m : Z),
    (0 <= numberOfChannels b)%Z ->
    Z.of_nat fuel = Z.max 0 (frameLength b - pos w) ->
    (0 <= m)%Z -> offset w = (2 * m)%Z ->
    (44 + 2 * (m + numberOfChannels b * Z.of_nat fuel) <= Z.of_nat (length (view w)))%Z ->
    exists w',
      writeFrames b fuel w = Ok w' /\
      length (view w') = length (view w) /\
      (forall frame i : Z,
         (pos w <= frame < frameLength b)%Z -> (0 <= i < numberOfChannels b)%Z ->
         readInt16 (Z.to_nat (44 + 2 * (m + numberOfChannels b * (frame - pos w) + i)))
                   (view w')
         = Some (sampleWord b (Z.to_nat i) frame)) /\
      (forall idx : nat,
         (idx < Z.to_nat (44 + 2 * m) \/
          Z.to_nat (44 + 2 * (m + numberOfChannels b * Z.of_nat fuel)) <= idx)%nat ->
         view w' !! idx = view w !! idx).
Proof.
  induction fuel as [|fuel IH]; intros w m Hnc Hfuel Hm Hoff Hfit.
  - exists w. cbn [writeFrames]. split; [reflexivity|]. split; [reflexivity|].
    split; [intros frame i Hframe; lia | reflexivity].
  - cbn [writeFrames].
    assert (Hlt : (pos w < frameLength b)%Z) by lia.
    rewrite (proj2 (Z.ltb_lt _ _) Hlt).
    assert (Hmul : (numberOfChannels b * Z.of_nat (S fuel)
                    = numberOfChannels b + numberOfChannels b * Z.of_nat fuel)%Z)
      by (rewrite Nat2Z.inj_succ; ring).
    rewrite Hmul in Hfit.
    assert (Hrest : (0 <= numberOfChannels b * Z.of_nat fuel)%Z)
      by (apply Z.mul_nonneg_nonneg; lia).
    destruct (writeFrame_exact b w m Hnc Hm Hoff ltac:(lia))
      as (w1 & -> & Hp1 & Ho1 & Hl1 & Hin1 & Hout1).
    cbn [bind].
    assert (H1 : Z.of_nat fuel
                 = Z.max 0 (frameLength b - pos (mkWriter (view w1) (pos w1 + 1) (offset w1))))
      by (cbn [pos]; lia).
    assert (H5 : (44 + 2 * (m + numberOfChannels b + numberOfChannels b * Z.of_nat fuel)
                  <= Z.of_nat (length (view (mkWriter (view w1) (pos w1 + 1) (offset w1)))))%Z)
      by (cbn [view]; rewrite Hl1; lia).
    destruct (IH (mkWriter (view w1) (pos w1 + 1) (offset w1)) (m + numberOfChannels b)%Z
                 Hnc H1 ltac:(lia) Ho1 H5)
      as (w' & E & Hl' & Hin' & Hout').
    cbn [view pos] in *.
    exists w'. split; [exact E|]. split; [now rewrite Hl', Hl1|].
    split.
    + intros frame i Hframe Hi.
      destruct (Z.eq_dec frame (pos w)) as [->|Hne].
      * rewrite Z.sub_diag, Z.mul_0_r, Z.add_0_r.
        rewrite (readInt16_ext _ (view w') (view w1)) by (intros k Hk; apply Hout'; lia).
        now apply Hin1.
      * specialize (Hin' frame i ltac:(lia) Hi).
        replace (m + numberOfChannels b * (frame - pos w) + i)%Z
          with (m + numberOfChannels b + numberOfChannels b * (frame - (pos w1 + 1)) + i)%Z
          by (rewrite Hp1; ring).
        exact Hin'.
    + intros idx Hidx. rewrite Hmul in Hidx.
      rewrite Hout' by lia. apply Hout1. lia.
Qed.

Lemma readUnsigned_le4 (pre post : list Z) (d : Z) :
  readUnsigned 4 (length pre) (pre ++ littleEndian 4 d ++ post)
  = Some (d mod 4294967296)%Z.
Proof.
  assert (E : forall k, (k < 4)%nat ->
            (pre ++ littleEndian 4 d ++ post) !! (k + length pre)%nat
            = Some ((d / 2 ^ (8 * Z.of_nat k)) mod 256)%Z).
  { intros k Hk. rewrite lookup_app_r by lia.
    replace (k + length pre - length pre)%nat with k by lia.
    rewrite lookup_app_l by (rewrite littleEndian_length; exact Hk).
    now apply littleEndian_lookup. }
  pose proof (E 0%nat ltac:(lia)) as E0. pose proof (E 1%nat ltac:(lia)) as E1.
  pose proof (E 2%nat ltac:(lia)) as E2. pose proof (E 3%nat ltac:(lia)) as E3.
  cbn [Nat.add] in E0, E1, E2, E3.
  cbn [readUnsigned]. rewrite E0, E1, E2, E3.
  cbn [Z.of_nat Pos.of_succ_nat Pos.succ Z.mul Pos.mul].
  change (2 ^ 0)%Z with 1%Z. change (2 ^ 8)%Z with 256%Z.
  change (2 ^ 16)%Z with 65536%Z. change (2 ^ 24)%Z with 16777216%Z.
  rewrite Z.div_1_r. f_equal. apply four_bytes.
Qed.

(** The container of a buffer of at most 44 frames. *)
Lemma take_header (b : AudioBuffer) (rest : list Z) :
  take 44 (headerBytes b ++ rest) = headerBytes b.
Proof.
  rewrite take_app_length'; [reflexivity|]. reflexivity.
Qed.

(** The file of a well-formed buffer, as the header followed by the data
    chunk that the loop leaves. *)
Lemma audioBufferToWav_frames (b : AudioBuffer) :
  (0 <= numberOfChannels b)%Z -> (0 <= frameLength b)%Z ->
  exists w',
    audioBufferToWav b = Ok (view w') /\
    length (view w') = (44 + Z.to_nat (frameLength b * numberOfChannels b * 2))%nat /\
    (forall frame i : Z,
       (44 <= frame < frameLength b)%Z -> (0 <= i < numberOfChannels b)%Z ->
       readInt16 (Z.to_nat (44 + 2 * (numberOfChannels b * (frame - 44) + i))) (view w')
       = Some (sampleWord b (Z.to_nat i) frame)) /\
    (forall idx : nat,
       (idx < 44 \/
        Z.to_nat (44 + 2 * (numberOfChannels b * Z.max 0 (frameLength b - 44))) <= idx)%nat ->
       view w' !! idx
       = (headerBytes b ++ repeat 0%Z (Z.to_nat (frameLength b * numberOfChannels b * 2))) !! idx).
Proof.
  intros Hnc Hfl.
  rewrite (audioBufferToWav_header b Hnc Hfl).
  set (v := headerBytes b ++ repeat 0%Z (Z.to_nat (frameLength b * numberOfChannels b * 2))).
  assert (Hlen : length v = (44 + Z.to_nat (frameLength b * numberOfChannels b * 2))%nat).
  { subst v. rewrite length_app, repeat_length. reflexivity. }
  destruct (writeFrames_exact b (Z.to_nat (frameLength b - 44)) (mkWriter v 44 0) 0)
    as (w' & Hrun & Hl & Hwords & Hrest).
  - exact Hnc.
  - cbn [pos]. lia.
  - lia.
  - reflexivity.
  - cbn [view]. rewrite Hlen. nia.
  - exists w'. rewrite Hrun. cbn [bind]. split; [reflexivity|].
    cbn [view pos] in *. split; [now rewrite Hl|]. split.
    + intros frame i Hf Hi. exact (Hwords frame i Hf Hi).
    + intros idx Hidx. apply Hrest.
      replace (Z.of_nat (Z.to_nat (frameLength b - 44))) with (Z.max 0 (frameLength b - 44))
        by lia.
      change (Z.to_nat (44 + 2 * 0)) with 44%nat.
      replace (0 + numberOfChannels b * Z.max 0 (frameLength b - 44))%Z
        with (numberOfChannels b * Z.max 0 (frameLength b - 44))%Z by lia.
      exact Hidx.
Qed.

(** X1. The four chunk tags and the three chunk sizes of the exported
    file: it starts with RIFF and the number of bytes that follow the
    size field, then WAVE, fmt and 16, and its data chunk is announced at
    byte 36 with the number of bytes that follow the header. *)
Theorem audioBufferToWav_chunks (b : AudioBuffer) :
  (0 <= numberOfChannels b)%Z -> (0 <= frameLength b)%Z ->
  (frameLength b * numberOfChannels b * 2 + 44 < 4294967296)%Z ->
  exists bytes,
    audioBufferToWav b = Ok bytes /\
    take 4 bytes = [82; 73; 70; 70]%Z /\
    readUnsigned 4 4 bytes = Some (Z.of_nat (length bytes) - 8)%Z /\
    take 8 (drop 8 bytes) = [87; 65; 86; 69; 102; 109; 116; 32]%Z /\
    readUnsigned 4 16 bytes = Some 16%Z /\
    take 4 (drop 36 bytes) = [100; 97; 116; 97]%Z /\
    readUnsigned 4 40 bytes = Some (Z.of_nat (length bytes) - 44)%Z.
Proof.
  intros Hnc Hfl Hfit.
  destruct (audioBufferToWav_frames b Hnc Hfl) as (w' & Hrun & Hlen & _ & Hrest).
  exists (view w'). split; [exact Hrun|].
  set (zeros := repeat 0%Z (Z.to_nat (frameLength b * numberOfChannels b * 2))) in *.
  assert (Hhead : take 44 (view w') = headerBytes b).
  { rewrite <- (take_header b zeros). apply list_eq. intros j.
    destruct (decide (j < 44)%nat) as [Hj|Hj].
    - rewrite !lookup_take_lt by exact Hj. apply Hrest. now left.
    - rewrite !lookup_take_ge by lia. reflexivity. }
  assert (Hlow : forall j, (j < 44)%nat -> view w' !! j = headerBytes b !! j).
  { intros j Hj. rewrite <- Hhead. now rewrite lookup_take_lt. }
  assert (HL : (Z.of_nat (length (view w')) = frameLength b * numberOfChannels b * 2 + 44)%Z).
  { rewrite Hlen. nia. }
  split; [|split; [|split; [|split; [|split]]]].
  - replace (take 4 (view w')) with (take 4 (take 44 (view w')))
      by (rewrite take_take; reflexivity).
    rewrite Hhead. reflexivity.
  - rewrite (readUnsigned_ext 4 (view w') (headerBytes b)) by (intros j Hj; apply Hlow; lia).
    rewrite HL.
    change (headerBytes b)
      with ([82; 73; 70; 70]%Z
              ++ littleEndian 4 (frameLength b * numberOfChannels b * 2 + 44 - 8)
              ++ drop 8 (headerBytes b)).
    change 4%nat with (length [82; 73; 70; 70]%Z) at 2.
    rewrite readUnsigned_le4. f_equal. apply Z.mod_small. nia.
  - replace (take 8 (drop 8 (view w'))) with (take 8 (drop 8 (take 44 (view w')))).
    + rewrite Hhead. reflexivity.
    + apply list_eq. intros j. destruct (decide (j < 8)%nat) as [Hj|Hj].
      * rewrite !lookup_take_lt, !lookup_drop by exact Hj. apply lookup_take_lt. lia.
      * rewrite !lookup_take_ge by lia. reflexivity.
  - rewrite (readUnsigned_ext 4 (view w') (headerBytes b)) by (intros j Hj; apply Hlow; lia).
    reflexivity.
  - replace (take 4 (drop 36 (view w'))) with (take 4 (drop 36 (take 44 (view w')))).
    + rewrite Hhead. reflexivity.
    + apply list_eq. intros j. destruct (decide (j < 4)%nat) as [Hj|Hj].
      * rewrite !lookup_take_lt, !lookup_drop by exact Hj. apply lookup_take_lt. lia.
      * rewrite !lookup_take_ge by lia. reflexivity.
  - rewrite (readUnsigned_ext 4 (view w') (headerBytes b)) by (intros j Hj; apply Hlow; lia).
    rewrite HL.
    change (headerBytes b)
      with (take 40 (headerBytes b)
              ++ littleEndian 4 (frameLength b * numberOfChannels b * 2 + 44 - 40 - 4)
              ++ []).
    change 40%nat with (length (take 40 (headerBytes b))) at 1.
    rewrite readUnsigned_le4. f_equal.
    rewrite Z.mod_small by nia. lia.
Qed.

Lemma audioBufferToWav_chunks_witness :
  (0 <= numberOfChannels exQuiet)%Z /\ (0 <= frameLength exQuiet)%Z /\
  (frameLength exQuiet * numberOfChannels exQuiet * 2 + 44 < 4294967296)%Z /\
  exists bytes,
    audioBufferToWav exQuiet = Ok bytes /\
    take 4 bytes = [82; 73; 70; 70]%Z /\
    readUnsigned 4 4 bytes = Some (Z.of_nat (length bytes) - 8)%Z /\
    take 8 (drop 8 bytes) = [87; 65; 86; 69; 102; 109; 116; 32]%Z /\
    readUnsigned 4 16 bytes = Some 16%Z /\
    take 4 (drop 36 bytes) = [100; 97; 116; 97]%Z /\
    readUnsigned 4 40 bytes = Some (Z.of_nat (length bytes) - 44)%Z.
Proof.
  assert (H1 : (0 <= numberOfChannels exQuiet)%Z) by (cbn; lia).
  assert (H2 : (0 <= frameLength exQuiet)%Z) by (cbn; lia).
  assert (H3 : (frameLength exQuiet * numberOfChannels exQuiet * 2 + 44 < 4294967296)%Z)
    by (cbn; lia).
  split; [exact H1|]. split; [exact H2|]. split; [exact H3|].
  exact (audioBufferToWav_chunks exQuiet H1 H2 H3).
Defined.

Lemma lookup_repeat_lt {A : Type} (x : A) (n i : nat) :
  (i < n)%nat -> repeat x n !! i = Some x.
Proof.
  revert i. induction n as [|n IH]; intros [|i] Hi; cbn; try lia; [reflexivity|].
  apply IH. lia.
Qed.

(** The file of a well-formed buffer: its size, where the samples are,
    and the zeros that the loop leaves at the end of the data chunk. *)
Lemma audioBufferToWav_data (b : AudioBuffer) :
  (0 <= numberOfChannels b)%Z -> (0 <= frameLength b)%Z ->
  exists bytes,
    audioBufferToWav b = Ok bytes /\
    Z.of_nat (length bytes) = (44 + frameLength b * numberOfChannels b * 2)%Z /\
    (forall frame i : Z,
       (44 <= frame < frameLength b)%Z -> (0 <= i < numberOfChannels b)%Z ->
       readInt16 (Z.to_nat (44 + 2 * (numberOfChannels b * (frame - 44) + i))) bytes
       = Some (sampleWord b (Z.to_nat i) frame)) /\
    (forall idx : nat,
       (Z.to_nat (44 + 2 * (numberOfChannels b * Z.max 0 (frameLength b - 44))) <= idx
        < length bytes)%nat ->
       bytes !! idx = Some 0%Z).
Proof.
  intros Hnc Hfl.
  destruct (audioBufferToWav_frames b Hnc Hfl) as (w' & Hrun & Hlen & Hwords & Hrest).
  exists (view w'). split; [exact Hrun|]. split; [rewrite Hlen; nia|].
  split; [exact Hwords|].
  intros idx [Hlo Hhi]. rewrite Hrest by (right; exact Hlo).
  assert (H44 : (44 <= idx)%nat) by nia.
  rewrite lookup_app_r by exact H44.
  change (length (headerBytes b)) with 44%nat.
  apply lookup_repeat_lt. lia.
Qed.

(** X2. Where the loop puts the samples: it starts at frame 44, not at
    frame 0, so the word of channel [i] of frame [frame] is word
    [channels * (frame - 44) + i] of the data chunk, and the end of the
    data chunk, which the loop never reaches, keeps its zeros. *)
Theorem audioBufferToWav_frame_positions (b : AudioBuffer) :
  (0 <= numberOfChannels b)%Z -> (0 <= frameLength b)%Z ->
  exists bytes,
    audioBufferToWav b = Ok bytes /\
    (forall frame i : Z,
       (44 <= frame < frameLength b)%Z -> (0 <= i < numberOfChannels b)%Z ->
       readInt16 (Z.to_nat (44 + 2 * (numberOfChannels b * (frame - 44) + i))) bytes
       = Some (sampleWord b (Z.to_nat i) frame)) /\
    (forall idx : nat,
       (Z.to_nat (44 + 2 * (numberOfChannels b * Z.max 0 (frameLength b - 44))) <= idx
        < length bytes)%nat ->
       bytes !! idx = Some 0%Z).
Proof.
  intros Hnc Hfl.
  destruct (audioBufferToWav_data b Hnc Hfl) as (bytes & Hrun & _ & Hwords & Hzeros).
  now exists bytes.
Qed.

Lemma audioBufferToWav_frame_positions_witness :
  (0 <= numberOfChannels exQuiet)%Z /\ (0 <= frameLength exQuiet)%Z /\
  exists bytes,
    audioBufferToWav exQuiet = Ok bytes /\
    (forall frame i : Z,
       (44 <= frame < frameLength exQuiet)%Z -> (0 <= i < numberOfChannels exQuiet)%Z ->
       readInt16 (Z.to_nat (44 + 2 * (numberOfChannels exQuiet * (frame - 44) + i))) bytes
       = Some (sampleWord exQuiet (Z.to_nat i) frame)) /\
    (forall idx : nat,
       (Z.to_nat (44 + 2 * (numberOfChannels exQuiet * Z.max 0 (frameLength exQuiet - 44)))
        <= idx < length bytes)%nat ->
       bytes !! idx = Some 0%Z).
Proof.
  assert (H1 : (0 <= numberOfChannels exQuiet)%Z) by (cbn; lia).
  assert (H2 : (0 <= frameLength exQuiet)%Z) by (cbn; lia).
  split; [exact H1|]. split; [exact H2|].
  exact (audioBufferToWav_frame_positions exQuiet H1 H2).
Defined.

(** X3. A buffer of at most 44 frames is exported as a header with its
    full data chunk, and every byte of the data chunk is zero: the loop
    ends before its first turn. *)
Theorem audioBufferToWav_short_buffer (b : AudioBuffer) :
  (0 <= numberOfChannels b)%Z -> (0 <= frameLength b <= 44)%Z ->
  exists bytes,
    audioBufferToWav b = Ok bytes /\
    Z.of_nat (length bytes) = (44 + frameLength b * numberOfChannels b * 2)%Z /\
    drop 44 bytes = repeat 0%Z (Z.to_nat (frameLength b * numberOfChannels b * 2)).
Proof.
  intros Hnc Hfl.
  rewrite (audioBufferToWav_header b Hnc) by lia.
  replace (Z.to_nat (frameLength b - 44)) with 0%nat by lia.
  cbn [writeFrames bind view]. eexists. split; [reflexivity|]. split.
  - rewrite length_app, repeat_length. change (length (headerBytes b)) with 44%nat. nia.
  - rewrite drop_app_length'; reflexivity.
Qed.

Lemma audioBufferToWav_short_buffer_witness :
  (0 <= numberOfChannels exShort)%Z /\ (0 <= frameLength exShort <= 44)%Z /\
  exists bytes,
    audioBufferToWav exShort = Ok bytes /\
    Z.of_nat (length bytes) = (44 + frameLength exShort * numberOfChannels exShort * 2)%Z /\
    drop 44 bytes = repeat 0%Z (Z.to_nat (frameLength exShort * numberOfChannels exShort * 2)).
Proof.
  assert (H1 : (0 <= numberOfChannels exShort)%Z) by (cbn; lia).
  assert (H2 : (0 <= frameLength exShort <= 44)%Z) by (cbn; lia).
  split; [exact H1|]. split; [exact H2|].
  exact (audioBufferToWav_short_buffer exShort H1 H2).
Defined.

(** ** The sample encoding *)

Lemma Qtrunc_mono (x y : Q) : x <= y -> (Qtrunc x <= Qtrunc y)%Z.
Proof.
  unfold Qle, Qtrunc. destruct x as [n1 d1], y as [n2 d2]. cbn. intros H.
  rewrite <- (Z.quot_mul_cancel_r n1 (Zpos d1) (Zpos d2)) by lia.
  rewrite <- (Z.quot_mul_cancel_r n2 (Zpos d2) (Zpos d1)) by lia.
  rewrite (Z.mul_comm (Zpos d2) (Zpos d1)).
  apply Z.quot_le_mono; lia.
Qed.

Lemma clampSample_mono (x y : Q) : x <= y -> clampSample x <= clampSample y.
Proof.
  intros H. unfold clampSample, Math_max, Math_min.
  destruct (Qltb x 1) eqn:Hx1; destruct (Qltb y 1) eqn:Hy1;
    try apply Qltb_lt in Hx1; try apply Qltb_ge in Hx1;
    try apply Qltb_lt in Hy1; try apply Qltb_ge in Hy1;
    destruct (Qltb (-1) x) eqn:Hx2; destruct (Qltb (-1) y) eqn:Hy2;
    try apply Qltb_lt in Hx2; try apply Qltb_ge in Hx2;
    try apply Qltb_lt in Hy2; try apply Qltb_ge in Hy2;
    try destruct (Qltb (-1) 1) eqn:H11;
    try apply Qltb_lt in H11; try apply Qltb_ge in H11; lra.
Qed.

(** X4. The sample encoding keeps the order of the samples: a louder
    sample never gets a smaller word, across the clamp and across the
    change of scale at -1/2. *)
Theorem encodeSample_monotone (x y : Q) :
  x <= y -> (encodeSample x <= encodeSample y)%Z.
Proof.
  intros H. apply clampSample_mono in H.
  destruct (encodeSample_spec x) as (Hxlo & Hxhi & _).
  destruct (encodeSample_spec y) as (Hylo & Hyhi & _).
  destruct (Qlt_le_dec (clampSample x) (-(1 # 2))) as [Hx|Hx];
    destruct (Qlt_le_dec (clampSample y) (-(1 # 2))) as [Hy|Hy].
  - rewrite (Hxlo Hx), (Hylo Hy). apply Qtrunc_mono. lra.
  - rewrite (Hxlo Hx), (Hyhi Hy).
    destruct (clampSample_range x) as [Hx1 _].
    destruct (clampSample_range y) as [_ Hy1].
    assert (Ha : (-32768 <= Qtrunc (clampSample x * 32768) <= -16384)%Z)
      by (apply Qtrunc_between; unfold inject_Z; lra).
    assert (Hb : (-16384 <= Qtrunc (clampSample y * 32767) <= 32767)%Z)
      by (apply Qtrunc_between; unfold inject_Z; lra).
    lia.
  - lra.
  - rewrite (Hxhi Hx), (Hyhi Hy). apply Qtrunc_mono. lra.
Qed.

Lemma encodeSample_monotone_witness :
  -(3 # 4) <= 1 # 4 /\ (encodeSample (-(3 # 4)) <= encodeSample (1 # 4))%Z.
Proof.
  assert (H : -(3 # 4) <= 1 # 4) by (unfold Qle; cbn; lia).
  split; [exact H|]. exact (encodeSample_monotone _ _ H).
Defined.

(** X5. Full scale is not symmetric: every sample of 1 or more becomes
    32767 and every sample of -1 or less becomes -32768. *)
Theorem encodeSample_full_scale (x : Q) :
  (1 <= x -> encodeSample x = 32767%Z) /\ (x <= -1 -> encodeSample x = (-32768)%Z).
Proof.
  destruct (encodeSample_spec x) as (Hlo & Hhi & _).
  split; intros H.
  - assert (E : clampSample x == 1).
    { unfold clampSample, Math_max, Math_min.
      destruct (Qltb x 1) eqn:H1; [apply Qltb_lt in H1; lra|].
      reflexivity. }
    rewrite Hhi by lra.
    assert (Ha : (32767 <= Qtrunc (clampSample x * 32767) <= 32767)%Z)
      by (apply Qtrunc_between; unfold inject_Z; lra).
    lia.
  - assert (E : clampSample x == -1).
    { unfold clampSample, Math_max, Math_min.
      destruct (Qltb x 1) eqn:H1; [|apply Qltb_ge in H1; lra].
      destruct (Qltb (-1) x) eqn:H2; [apply Qltb_lt in H2; lra|]. reflexivity. }
    rewrite Hlo by lra.
    assert (Ha : (-32768 <= Qtrunc (clampSample x * 32768) <= -32768)%Z)
      by (apply Qtrunc_between; unfold inject_Z; lra).
    lia.
Qed.

Lemma encodeSample_full_scale_witness :
  1 <= 2 /\ -3 <= -1 /\ encodeSample 2 = 32767%Z /\ encodeSample (-3) = (-32768)%Z.
Proof.
  assert (H1 : 1 <= 2) by (unfold Qle; cbn; lia).
  assert (H2 : -3 <= -1) by (unfold Qle; cbn; lia).
  split; [exact H1|]. split; [exact H2|]. split.
  - exact (proj1 (encodeSample_full_scale 2) H1).
  - exact (proj2 (encodeSample_full_scale (-3)) H2).
Defined.

(** ** The reverb impulse *)

Lemma decay_range (a : Q) : 0 < a -> a <= 1 -> 0 < a ^ 4 /\ a ^ 4 <= 1.
Proof.
  intros Hlo Hhi.
  assert (E : a ^ 4 == (a * a) * (a * a)) by (simpl; ring).
  assert (H2 : 0 < a * a) by nra.
  assert (H3 : a * a <= 1) by nra.
  rewrite E. split; nra.
Qed.

Lemma envelope_position (length_ : Q) (k : nat) :
  (k < Z.to_nat (Qfloor length_))%nat ->
  0 < 1 - inject_Z (Z.of_nat k) / length_ /\ 1 - inject_Z (Z.of_nat k) / length_ <= 1.
Proof.
  intros Hk.
  assert (Hfl : inject_Z (Qfloor length_) <= length_) by apply Qfloor_le.
  assert (Hkz : (Z.of_nat k + 1 <= Qfloor length_)%Z) by lia.
  assert (Hkq : inject_Z (Z.of_nat k) + 1 <= inject_Z (Qfloor length_)).
  { change 1 with (inject_Z 1). rewrite <- inject_Z_plus. now rewrite <- Zle_Qle. }
  assert (Hk0 : 0 <= inject_Z (Z.of_nat k)).
  { change 0 with (inject_Z 0). rewrite <- Zle_Qle. lia. }
  assert (Hpos : 0 < length_) by lra.
  assert (Hq1 : inject_Z (Z.of_nat k) / length_ < 1).
  { apply Qlt_shift_div_r; [exact Hpos | lra]. }
  assert (Hq0 : 0 <= inject_Z (Z.of_nat k) / length_).
  { apply Qle_shift_div_l; [exact Hpos | lra]. }
  split; lra.
Qed.

(** X6. The impulse that [createReverbBuffer] makes, for a length of
    at least one frame, from draws in [[0, 1)]: two channels of
    [floor(sampleRate * duration)] samples, every one of them between -1
    and 1; the second channel draws after the first, the call takes
    [2 * ceil(length)] draws, and the sample at index [k] of a channel
    depends on the draws through its own draw only: another sequence with
    the same draw at that place gives the same sample. *)
Theorem createReverbBuffer_samples (rate dur : Q) (rnd : Rand) :
  1 <= rate * dur -> (forall n, 0 <= draws rnd n /\ draws rnd n < 1) ->
  exists left right,
    (createReverbBuffer rate dur rnd).1 = [left; right] /\
    length left = Z.to_nat (Qfloor (rate * dur)) /\
    length right = Z.to_nat (Qfloor (rate * dur)) /\
    cursor (createReverbBuffer rate dur rnd).2
    = (cursor rnd + 2 * Z.to_N (Qceiling (rate * dur)))%N /\
    draws (createReverbBuffer rate dur rnd).2 = draws rnd /\
    (forall (k : nat) x, left !! k = Some x \/ right !! k = Some x -> -1 <= x /\ x <= 1) /\
    (forall (rnd' : Rand) (k : nat),
       (draws rnd' (cursor rnd' + N.of_nat k)%N = draws rnd (cursor rnd + N.of_nat k)%N ->
        (createReverbBuffer rate dur rnd').1 !! 0%nat ≫= (.!! k) = left !! k) /\
       (draws rnd' (cursor rnd' + Z.to_N (Qceiling (rate * dur)) + N.of_nat k)%N
        = draws rnd (cursor rnd + Z.to_N (Qceiling (rate * dur)) + N.of_nat k)%N ->
        (createReverbBuffer rate dur rnd').1 !! 1%nat ≫= (.!! k) = right !! k)).
Proof.
  intros _ Hdraws. unfold createReverbBuffer. cbv zeta. cbn [fst snd cursor draws].
  eexists. eexists. split; [reflexivity|].
  rewrite !reverbChannel_length. split; [reflexivity|]. split; [reflexivity|].
  split; [lia|]. split; [reflexivity|]. split.
  - intros k x Hx.
    assert (Hk : (k < Z.to_nat (Qfloor (rate * dur)))%nat).
    { destruct Hx as [Hx|Hx]; apply lookup_lt_Some in Hx;
        now rewrite reverbChannel_length in Hx. }
    destruct (envelope_position (rate * dur) k Hk) as [Ha0 Ha1].
    destruct (decay_range _ Ha0 Ha1) as [Hd0 Hd1].
    rewrite !reverbChannel_lookup in Hx by exact Hk.
    rewrite N.add_0_l, nat_N_Z in Hx.
    set (decay := (1 - inject_Z (Z.of_nat k) / (rate * dur)) ^ 4) in *.
    destruct Hx as [Hx|Hx]; injection Hx as <-.
    + destruct (Hdraws (cursor rnd + N.of_nat k)%N) as [H0 H1]. split; nra.
    + destruct (Hdraws (cursor rnd + Z.to_N (Qceiling (rate * dur)) + N.of_nat k)%N)
        as [H0 H1]. split; nra.
  - intros rnd' k. cbn [lookup list_lookup mbind option_bind].
    destruct (Nat.lt_ge_cases k (Z.to_nat (Qfloor (rate * dur)))) as [Hk|Hk].
    + rewrite !reverbChannel_lookup by exact Hk. rewrite N.add_0_l.
      split; intros ->; reflexivity.
    + rewrite !lookup_ge_None_2 by (rewrite reverbChannel_length; exact Hk).
      split; reflexivity.
Qed.

Lemma createReverbBuffer_samples_witness :
  1 <= 44100 * 2 /\ (forall n, 0 <= draws exRand n /\ draws exRand n < 1) /\
  exists left right,
    (createReverbBuffer 44100 2 exRand).1 = [left; right] /\
    length left = Z.to_nat (Qfloor (44100 * 2)) /\
    length right = Z.to_nat (Qfloor (44100 * 2)) /\
    cursor (createReverbBuffer 44100 2 exRand).2 = (cursor exRand + 176400)%N /\
    (forall (k : nat) x, left !! k = Some x \/ right !! k = Some x -> -1 <= x /\ x <= 1) /\
    (createReverbBuffer 44100 2 exReplay).1 !! 0%nat ≫= (.!! 1%nat) = left !! 1%nat /\
    (createReverbBuffer 44100 2 exReplay).1 !! 1%nat ≫= (.!! 0%nat) = right !! 0%nat.
Proof.
  assert (H0 : 1 <= 44100 * 2) by (lazy; discriminate).
  assert (H : forall n, 0 <= draws exRand n /\ draws exRand n < 1).
  { intros n. unfold exRand, exDraws, draws. unfold Qle, Qlt. cbn. lia. }
  split; [exact H0|]. split; [exact H|].
  destruct (createReverbBuffer_samples 44100 2 exRand H0 H)
    as (left & right & E & Hl & Hr & Hc & _ & Hrange & Hsame).
  exists left, right. split; [exact E|]. split; [exact Hl|]. split; [exact Hr|].
  split; [exact Hc|]. split; [exact Hrange|]. split.
  - exact (proj1 (Hsame exReplay 1%nat) eq_refl).
  - exact (proj2 (Hsame exReplay 0%nat) eq_refl).
Defined.

(** ** The offline render and its window *)

Lemma Qtrunc_zero (x : Q) : -1 < x -> x < 1 -> Qtrunc x = 0%Z.
Proof.
  unfold Qlt, Qtrunc. destruct x as [n d]. cbn. intros Hlo Hhi.
  apply Z.quot_small_iff; lia.
Qed.

(** X7. An empty render window is refused.  When the window starts and
    ends at the same time, the offline context is asked for 0 frames and
    its constructor throws [NotSupportedError]: [exportAudio] throws
    where [play] starts a reader of length 0, and no draw is taken. *)
Theorem exportAudio_rejects_empty_window (controls : AudioProcessorControls) (rnd : Rand)
    (h : Hook) (audioBuffer : AudioBuffer) :
  audioBufferRef h = Some audioBuffer ->
  cutEndTimeOf controls audioBuffer == cutStartTimeOf controls audioBuffer ->
  exportAudio controls rnd h = Raise NotSupportedError.
Proof.
  intros Hbuf Hsame. unfold exportAudio. rewrite Hbuf. cbv zeta.
  fold (cutStartTimeOf controls audioBuffer) (cutEndTimeOf controls audioBuffer).
  set (renderDuration := cutEndTimeOf controls audioBuffer - cutStartTimeOf controls audioBuffer)
    in *.
  unfold toUnsignedLong. fold (Qtrunc (renderDuration * 44100)).
  rewrite (Qtrunc_zero (renderDuration * 44100)) by (subst renderDuration; lra).
  reflexivity.
Qed.

Lemma exportAudio_rejects_empty_window_witness :
  audioBufferRef exLoaded = Some exBuffer /\
  cutEndTimeOf exEmptyWindow exBuffer == cutStartTimeOf exEmptyWindow exBuffer /\
  exportAudio exEmptyWindow exRand exLoaded = Raise NotSupportedError.
Proof.
  assert (H1 : audioBufferRef exLoaded = Some exBuffer) by exact (proj1 (proj2 exLoaded_facts)).
  assert (H2 : cutEndTimeOf exEmptyWindow exBuffer == cutStartTimeOf exEmptyWindow exBuffer)
    by reflexivity.
  split; [exact H1|]. split; [exact H2|].
  exact (exportAudio_rejects_empty_window exEmptyWindow exRand exLoaded exBuffer H1 H2).
Defined.

(** * The transport, in closed form *)

(** ** The first lines of [play] *)

Lemma tryIgnore_halt (p : nat) (h : Hook) :
  tryIgnore (stopSource p h) h = with_sources h (haltReader p (sources h)).
Proof.
  unfold stopSource, onSource, haltReader, sourceStop.
  destruct (sources h !! p) as [s|]; cbn.
  - destruct (started s); cbn; [reflexivity | now rewrite with_sources_same].
  - now rewrite with_sources_same.
Qed.

Lemma haltReader_length (p : nat) (srcs : list AudioBufferSourceNode) :
  length (haltReader p srcs) = length srcs.
Proof.
  unfold haltReader. destruct (srcs !! p) as [s|]; [|reflexivity].
  destruct (started s); [apply length_insert | reflexivity].
Qed.

(** A reader that sounds after the halt of [p] is another reader, and it
    sounded before. *)
Lemma haltReader_sounding (p q : nat) (srcs : list AudioBufferSourceNode)
    (s : AudioBufferSourceNode) :
  haltReader p srcs !! q = Some s -> sounding s = true -> q <> p /\ srcs !! q = Some s.
Proof.
  unfold haltReader. intros Hs Hlive.
  destruct (srcs !! p) as [s0|] eqn:Hp.
  - destruct (started s0) as [args|] eqn:Hst.
    + destruct (decide (q = p)) as [->|Hne].
      * rewrite list_lookup_insert_eq in Hs by (now apply lookup_lt_Some with s0).
        injection Hs as <-. unfold sounding in Hlive. cbn in Hlive.
        rewrite ?Hst in Hlive. discriminate.
      * rewrite list_lookup_insert_ne in Hs by congruence. now split.
    + destruct (decide (q = p)) as [->|Hne]; [|now split].
      rewrite Hp in Hs. injection Hs as <-. unfold sounding in Hlive.
      rewrite Hst in Hlive. discriminate.
  - destruct (decide (q = p)) as [->|Hne]; [congruence | now split].
Qed.

(** A halt keeps what each reader was started with. *)
Lemma haltReader_started (p q : nat) (srcs : list AudioBufferSourceNode) :
  started <$> haltReader p srcs !! q = started <$> srcs !! q.
Proof.
  unfold haltReader. destruct (srcs !! p) as [s0|] eqn:Hp; [|reflexivity].
  destruct (started s0) as [args|] eqn:Hst; [|reflexivity].
  destruct (decide (q = p)) as [->|Hne].
  - rewrite list_lookup_insert_eq by (now apply lookup_lt_Some with s0).
    rewrite Hp. cbn. now rewrite Hst.
  - now rewrite list_lookup_insert_ne by congruence.
Qed.

Lemma prologue_exact (ctx : AudioContext) (h : Hook) :
  audioContextRef h = Some ctx ->
  detachPrevious (resumeContext ctx h)
  = with_connections
      (with_sources (with_audioContextRef h (Some (resumedContext ctx))) (detachedSources h))
      (detachedConnections h).
Proof.
  intros Hctx.
  assert (E : resumeContext ctx h = with_audioContextRef h (Some (resumedContext ctx))).
  { unfold resumeContext, resumedContext.
    destruct (ctxState ctx);
      [reflexivity | rewrite <- Hctx; symmetry; apply with_audioContextRef_same ..]. }
  rewrite E. unfold detachPrevious, detachedSources, detachedConnections.
  destruct h as [st ctxo src g b t rv c an eqs buf t0 t1 fr srcs rgs es pend nxt].
  cbn [sourceNodeRef with_audioContextRef]. destruct src as [p|].
  - rewrite tryIgnore_halt. reflexivity.
  - reflexivity.
Qed.

(** ** The connections that [play] makes *)

Lemma elem_of_connect (a b : NodeId) (es : list Edge) (e : Edge) :
  e ∈ connect a b es <-> e = (a, b) \/ e ∈ es.
Proof.
  unfold connect. destruct (decide ((a, b) ∈ es)) as [Hin|Hout].
  - split; [now right | intros [->|H]; assumption].
  - rewrite elem_of_app, list_elem_of_singleton. tauto.
Qed.

Lemma elem_of_disconnect (a : NodeId) (es : list Edge) (e : Edge) :
  e ∈ disconnect a es <-> e ∈ es /\ e.1 <> a.
Proof. unfold disconnect. rewrite list_elem_of_filter. tauto. Qed.

Lemma disconnectEq_S (n : nat) (es : list Edge) :
  disconnectEq (S n) es = disconnect (NEq n) (disconnectEq n es).
Proof. unfold disconnectEq. now rewrite seq_S, foldl_app. Qed.

Lemma elem_of_disconnectEq (n : nat) (es : list Edge) (e : Edge) :
  e ∈ disconnectEq n es <-> e ∈ es /\ forall i, (i < n)%nat -> e.1 <> NEq i.
Proof.
  induction n as [|n IH].
  - cbn. split; [intros H; split; [exact H | lia] | tauto].
  - rewrite disconnectEq_S, elem_of_disconnect, IH. split.
    + intros [[Hin Hlow] Hn]. split; [exact Hin|].
      intros i Hi. destruct (decide (i = n)) as [->|Hne]; [exact Hn | apply Hlow; lia].
    + intros [Hin Hall]. split; [split; [exact Hin|] |]; [intros i Hi|]; apply Hall; lia.
Qed.

Lemma chainEq_S (lastNode : NodeId) (n : nat) (es : list Edge) :
  chainEq lastNode (S n) es
  = (NEq n, connect (chainEq lastNode n es).1 (NEq n) (chainEq lastNode n es).2).
Proof. unfold chainEq. now rewrite seq_S, foldl_app. Qed.

Lemma chainEq_end (lastNode : NodeId) (n : nat) (es : list Edge) :
  (chainEq lastNode n es).1 = chainEnd lastNode n.
Proof. destruct n as [|n]; [reflexivity | now rewrite chainEq_S]. Qed.

Lemma chainLinks_S (lastNode : NodeId) (n : nat) :
  chainLinks lastNode (S n) = chainLinks lastNode n ++ [(chainEnd lastNode n, NEq n)].
Proof.
  destruct n as [|n]; [reflexivity|].
  cbn [chainLinks chainEnd]. rewrite seq_S, map_app. reflexivity.
Qed.

Lemma elem_of_chainEq (lastNode : NodeId) (n : nat) (es : list Edge) (e : Edge) :
  e ∈ (chainEq lastNode n es).2 <-> e ∈ chainLinks lastNode n \/ e ∈ es.
Proof.
  induction n as [|n IH].
  - cbn. rewrite elem_of_nil. tauto.
  - rewrite chainEq_S. cbn [snd]. rewrite elem_of_connect, IH, chainEq_end, chainLinks_S.
    rewrite elem_of_app, list_elem_of_singleton. tauto.
Qed.

(** The connections after the rewiring: the signal path, and what was
    there before on the nodes that the rewiring leaves alone. *)
Lemma elem_of_rewire (p r n : nat) (es : list Edge) (e : Edge) :
  e ∈ rewire p r n es
  <-> e ∈ signalPath p r n \/ (e ∈ es /\ keepsEdges None n e.1 = true).
Proof.
  unfold rewire, signalPath. cbv zeta.
  rewrite !elem_of_connect, elem_of_chainEq, !elem_of_disconnect, elem_of_disconnectEq.
  rewrite chainEq_end, elem_of_app, !elem_of_cons, elem_of_nil.
  assert (K : keepsEdges None n e.1 = true
              <-> (forall i, (i < n)%nat -> e.1 <> NEq i) /\ e.1 <> NBass /\ e.1 <> NTreble
                  /\ e.1 <> NCompressor /\ e.1 <> NGain /\ e.1 <> NReverb).
  { destruct e as [a b]. cbn [fst]. destruct a; cbn [keepsEdges];
      rewrite ?bool_decide_eq_true; split; intros H;
      repeat split; try congruence; try easy.
    - intros j Hj [= ->]. lia.
    - destruct H as [H _]. destruct (decide (n <= i)%nat) as [Hle|Hgt]; [exact Hle|].
      exfalso. apply (H i); [lia | reflexivity]. }
  rewrite K. tauto.
Qed.

Lemma nodePresent_with_connections (h : Hook) (es : list Edge) (n : NodeId) :
  nodePresent (with_connections h es) n = nodePresent h n.
Proof. now destruct n. Qed.

Lemma with_connections_twice (h : Hook) (es es' : list Edge) :
  with_connections (with_connections h es) es' = with_connections h es'.
Proof. reflexivity. Qed.

Lemma disconnectNode_exact (n : NodeId) (h : Hook) (es : list Edge) :
  nodePresent h n = true ->
  disconnectNode n (with_connections h es) = with_connections h (disconnect n es).
Proof.
  intros Hn. unfold disconnectNode. rewrite nodePresent_with_connections, Hn. reflexivity.
Qed.

Lemma connectNodes_exact (a b : NodeId) (h : Hook) (es : list Edge) :
  nodePresent h a = true -> nodePresent h b = true ->
  connectNodes a b (with_connections h es) = Ok (with_connections h (connect a b es)).
Proof.
  intros Ha Hb. unfold connectNodes. rewrite !nodePresent_with_connections, Ha, Hb.
  reflexivity.
Qed.

Lemma disconnectEqNodes_exact (h : Hook) (es : list Edge) :
  disconnectEqNodes (with_connections h es)
  = with_connections h (disconnectEq (length (eqNodesRef h)) es).
Proof.
  unfold disconnectEqNodes. change (eqNodesRef (with_connections h es)) with (eqNodesRef h).
  assert (G : forall n, (n <= length (eqNodesRef h))%nat ->
            foldl (fun h' i => disconnectNode (NEq i) h') (with_connections h es) (seq 0 n)
            = with_connections h (disconnectEq n es)).
  { induction n as [|n IH]; intros Hn; [reflexivity|].
    rewrite seq_S, foldl_app, IH by lia. cbn [foldl Nat.add].
    rewrite disconnectNode_exact by (cbn; apply bool_decide_eq_true; lia).
    now rewrite disconnectEq_S. }
  now apply G.
Qed.

Lemma chainEnd_present (h : Hook) (lastNode : NodeId) (n : nat) :
  nodePresent h lastNode = true -> (n <= length (eqNodesRef h))%nat ->
  nodePresent h (chainEnd lastNode n) = true.
Proof.
  intros Hlast Hn. destruct n as [|n]; [exact Hlast|].
  cbn. apply bool_decide_eq_true. lia.
Qed.

Lemma chainEqNodes_exact (lastNode : NodeId) (h : Hook) (es : list Edge) :
  nodePresent h lastNode = true ->
  chainEqNodes lastNode (with_connections h es)
  = Ok ((chainEq lastNode (length (eqNodesRef h)) es).1,
        with_connections h (chainEq lastNode (length (eqNodesRef h)) es).2).
Proof.
  intros Hlast. unfold chainEqNodes.
  change (eqNodesRef (with_connections h es)) with (eqNodesRef h).
  assert (G : forall n, (n <= length (eqNodesRef h))%nat ->
            foldl (fun acc i =>
                     prev <- acc ;;
                     h' <- connectNodes prev.1 (NEq i) prev.2 ;;
                     Ok (NEq i, h'))
                  (Ok (lastNode, with_connections h es)) (seq 0 n)
            = Ok ((chainEq lastNode n es).1, with_connections h (chainEq lastNode n es).2)).
  { induction n as [|n IH]; intros Hn; [reflexivity|].
    rewrite seq_S, foldl_app, IH by lia. cbn [foldl Nat.add bind fst snd].
    rewrite connectNodes_exact.
    - cbn [bind]. now rewrite chainEq_S.
    - rewrite chainEq_end. apply chainEnd_present; [exact Hlast | lia].
    - cbn. apply bool_decide_eq_true. lia. }
  now apply G.
Qed.

Lemma with_roomGains_connections (h : Hook) (es : list Edge) (rgs : list GainNode) :
  with_roomGains (with_connections h es) rgs = with_connections (with_roomGains h rgs) es.
Proof. reflexivity. Qed.

(** The rewiring of [play], exactly. *)
Lemma reconnectGraph_exact (p : nat) (controls : AudioProcessorControls) (h : Hook)
    (es : list Edge) :
  (p < length (sources h))%nat ->
  is_Some (bassNodeRef h) -> is_Some (trebleNodeRef h) ->
  is_Some (compressorNodeRef h) -> is_Some (reverbNodeRef h) ->
  is_Some (gainNodeRef h) -> is_Some (analyserNodeRef h) ->
  reconnectGraph p controls (with_connections h es)
  = Ok (with_connections
          (with_roomGains h (roomGains h ++ [mkGain (param (wetLevelOf controls))]))
          (rewire p (length (roomGains h)) (length (eqNodesRef h)) es)).
Proof.
  intros Hp Hb Ht Hc Hr Hg Ha.
  assert (Psrc : nodePresent h (NSource p) = true) by (cbn; now apply bool_decide_eq_true).
  assert (Pb : nodePresent h NBass = true) by (cbn; now apply bool_decide_eq_true).
  assert (Pt : nodePresent h NTreble = true) by (cbn; now apply bool_decide_eq_true).
  assert (Pc : nodePresent h NCompressor = true) by (cbn; now apply bool_decide_eq_true).
  assert (Pr : nodePresent h NReverb = true) by (cbn; now apply bool_decide_eq_true).
  assert (Pg : nodePresent h NGain = true) by (cbn; now apply bool_decide_eq_true).
  assert (Pa : nodePresent h NAnalyser = true) by (cbn; now apply bool_decide_eq_true).
  unfold reconnectGraph.
  rewrite disconnectEqNodes_exact. rewrite !disconnectNode_exact by assumption.
  rewrite chainEqNodes_exact by exact Psrc. cbn [bind fst snd].
  rewrite connectNodes_exact;
    [|rewrite chainEq_end; apply chainEnd_present; [exact Psrc | lia] | exact Pb].
  cbn [bind]. rewrite connectNodes_exact by assumption.
  cbn [bind]. rewrite connectNodes_exact by assumption.
  cbn [bind]. change (roomGains (with_connections h ?es0)) with (roomGains h).
  rewrite with_roomGains_connections.
  set (rg := mkGain (setValue (wetLevelOf controls) (gain createGain))).
  set (hr := with_roomGains h (roomGains h ++ [rg])).
  assert (P : forall n, nodePresent h n = true -> nodePresent hr n = true)
    by (intros n Hn; now apply nodePresent_with_roomGains).
  assert (Prg : nodePresent hr (NRoomGain (length (roomGains h))) = true).
  { cbn. apply bool_decide_eq_true. rewrite length_app. cbn. lia. }
  rewrite connectNodes_exact by auto. cbn [bind].
  rewrite connectNodes_exact by auto. cbn [bind].
  rewrite connectNodes_exact by auto. cbn [bind].
  rewrite connectNodes_exact by auto. cbn [bind].
  rewrite connectNodes_exact by auto. cbn [bind].
  rewrite connectNodes_exact by auto.
  unfold rewire. cbv zeta. reflexivity.
Qed.

(** ** [play], up to its first [tick] *)

Lemma detachedSources_length (h : Hook) : length (detachedSources h) = length (sources h).
Proof.
  unfold detachedSources. destruct (sourceNodeRef h); [apply haltReader_length | reflexivity].
Qed.

Lemma play_closed (controls : AudioProcessorControls) (clk : PlayClock) (h : Hook)
    (ctx : AudioContext) (audioBuffer : AudioBuffer) :
  initialised h -> audioContextRef h = Some ctx -> audioBufferRef h = Some audioBuffer ->
  0 <= atParams clk ->
  0 <= startOffsetOf (pauseTimeRef h) (cutStartTimeOf controls audioBuffer)
                     (cutEndTimeOf controls audioBuffer) ->
  play controls clk h
  = (h2 <- tick (cutStartTimeOf controls audioBuffer) (cutEndTimeOf controls audioBuffer)
                (atTick clk) (playStarted controls clk ctx audioBuffer h) ;;
     srcs <- onSource (fun s => Ok (setOnended s)) (length (sources h)) (sources h2) ;;
     Ok (with_sources h2 srcs)).
Proof.
  intros [_ Hg Hb Ht Hr Hc Ha _] Hctx Hbuf Hnow Hso.
  unfold play. rewrite Hctx, Hbuf, (prologue_exact ctx h Hctx).
  unfold playStarted. cbv zeta.
  rewrite <- (detachedSources_length h).
  set (dsrcs := detachedSources h). set (des := detachedConnections h).
  clearbody dsrcs des.
  destruct h as [st ctxo src g b t rv c an eqs buf t0 t1 fr srcs0 rgs es0 pend nxt].
  cbn [audioBufferRef pauseTimeRef gainNodeRef bassNodeRef trebleNodeRef reverbNodeRef
       compressorNodeRef analyserNodeRef animationFrameRef pendingFrames audioContextRef
       state eqNodesRef roomGains nextFrame] in *.
  fold (cutStartTimeOf controls audioBuffer) (cutEndTimeOf controls audioBuffer).
  set (cs := cutStartTimeOf controls audioBuffer) in *.
  set (ce := cutEndTimeOf controls audioBuffer) in *.
  simpl_hook.
  set (so := startOffsetOf t1 cs ce) in *.
  set (source := mkSource (Some audioBuffer) _ None false false).
  match goal with
  | |- context [reconnectGraph ?p ?c ?hh] =>
      change (reconnectGraph p c hh)
        with (reconnectGraph p c (with_connections hh des))
  end.
  rewrite reconnectGraph_exact; try assumption.
  2:{ cbn. rewrite length_app. cbn. lia. }
  cbn [bind]. rewrite updateParams_ok by exact Hnow. cbn [bind].
  unfold paramsAfter. simpl_hook.
  rewrite updateSource_last, onSource_last.
  rewrite sourceStart_ok; [|reflexivity|exact Hso|apply Math_max_nonneg].
  subst source buf. cbn [bind buffer detune stopped onended detuneRampedTo].
  reflexivity.
Qed.

(** ** [stop], [pause], the poll and [loadFile] *)

Lemma stop_exact (h : Hook) : stop h = Ok (stopResult h).
Proof.
  unfold stop, stopResult, detachedSources, cancelled, cancelPendingFrame.
  destruct h as [st ctxo src g b t rv c an eqs buf t0 t1 fr srcs rgs es pend nxt].
  cbn [sourceNodeRef]. destruct src as [p|].
  - rewrite tryIgnore_halt. destruct fr; reflexivity.
  - destruct fr; reflexivity.
Qed.

Lemma pause_exact (now : Q) (h : Hook) (p : nat) (s : AudioBufferSourceNode) :
  sourceNodeRef h = Some p -> is_Some (audioContextRef h) ->
  sources h !! p = Some s -> is_Some (started s) ->
  pause now h = Ok (pauseResult now h).
Proof.
  intros Hp [ctx Hctx] Hs Hst. unfold pause. rewrite Hp, Hctx.
  rewrite (stopSource_started p h s Hs Hst). cbn [bind].
  unfold pauseResult, detachedSources, haltReader, cancelled, cancelPendingFrame.
  rewrite Hp, Hs. destruct Hst as [args Hst]. rewrite Hst.
  destruct h as [st ctxo src g b t rv c an eqs buf t0 t1 fr srcs rgs es pend nxt].
  cbn in Hp, Hctx. subst src ctxo. destruct fr; reflexivity.
Qed.

Lemma tick_exact (cutStartTime cutEndTime now : Q) (h : Hook) :
  tick cutStartTime cutEndTime now h = Ok (tickResult cutStartTime cutEndTime now h).
Proof.
  unfold tick, tickResult. destruct (sourceNodeRef h); [|reflexivity].
  destruct (Qgeb (now - startTimeRef h) cutEndTime); [|reflexivity].
  now rewrite stop_exact.
Qed.

Lemma play_exact (controls : AudioProcessorControls) (clk : PlayClock) (h : Hook)
    (ctx : AudioContext) (audioBuffer : AudioBuffer) :
  initialised h -> audioContextRef h = Some ctx -> audioBufferRef h = Some audioBuffer ->
  0 <= atParams clk ->
  0 <= startOffsetOf (pauseTimeRef h) (cutStartTimeOf controls audioBuffer)
                     (cutEndTimeOf controls audioBuffer) ->
  play controls clk h = Ok (playResult controls clk ctx audioBuffer h).
Proof.
  intros Hinit Hctx Hbuf Hnow Hso.
  rewrite (play_closed controls clk h ctx audioBuffer Hinit Hctx Hbuf Hnow Hso).
  rewrite tick_exact. cbn [bind].
  rewrite (onSource_ok _ setOnended) by reflexivity. reflexivity.
Qed.

Lemma loadFile_exact (decodedBuffer : AudioBuffer) (h : Hook) :
  is_Some (audioContextRef h) -> loadFile decodedBuffer h = Ok (loadResult decodedBuffer h).
Proof.
  intros [ctx Hctx]. unfold loadFile. rewrite Hctx, stop_exact. reflexivity.
Qed.

(** Where [play] starts is never before the window start. *)
Lemma startOffsetOf_lower (pauseTime cutStartTime cutEndTime : Q) :
  cutStartTime <= startOffsetOf pauseTime cutStartTime cutEndTime.
Proof.
  unfold startOffsetOf. cbv zeta.
  destruct (Qltb pauseTime cutStartTime) eqn:H1.
  - destruct (Qgeb cutStartTime cutEndTime); lra.
  - apply Qltb_ge in H1. destruct (Qgeb pauseTime cutEndTime); lra.
Qed.

(** ** The invariant *)

Lemma detached_silent (h : Hook) :
  (forall q s, sources h !! q = Some s -> sounding s = true -> sourceNodeRef h = Some q) ->
  forall q s, detachedSources h !! q = Some s -> sounding s = false.
Proof.
  intros Hone q s Hs. destruct (sounding s) eqn:Hlive; [exfalso|reflexivity].
  unfold detachedSources in Hs. destruct (sourceNodeRef h) as [p|] eqn:Hp.
  - destruct (haltReader_sounding p q _ s Hs Hlive) as [Hne Hq].
    specialize (Hone q s Hq Hlive). congruence.
  - specialize (Hone q s Hs Hlive). discriminate.
Qed.

Lemma detached_started (h : Hook) (p : nat) (s : AudioBufferSourceNode) :
  sources h !! p = Some s ->
  exists s', detachedSources h !! p = Some s' /\ started s' = started s.
Proof.
  intros Hs. unfold detachedSources. destruct (sourceNodeRef h) as [p0|].
  - pose proof (haltReader_started p0 p (sources h)) as E. rewrite Hs in E.
    destruct (haltReader p0 (sources h) !! p) as [s'|]; [|discriminate].
    exists s'. split; [reflexivity|]. now injection E.
  - now exists s.
Qed.

Lemma map_frequency_bands (controls : AudioProcessorControls) (now : Q)
    (eqs : list BiquadFilterNode) :
  map frequency (imap (bandAfter controls now) eqs) = map frequency eqs.
Proof.
  apply list_eq. intros i. rewrite !list_lookup_fmap, list_lookup_imap.
  destruct (eqs !! i) as [node|]; [|reflexivity].
  cbn. now rewrite bandAfter_frequency.
Qed.

Lemma updateSource_lookup (f : AudioBufferSourceNode -> AudioBufferSourceNode)
    (p q : nat) (srcs : list AudioBufferSourceNode) :
  updateSource f p srcs !! q = if decide (q = p) then f <$> srcs !! p else srcs !! q.
Proof.
  unfold updateSource. destruct (srcs !! p) as [s|] eqn:Hp.
  - destruct (decide (q = p)) as [->|Hne].
    + now rewrite list_lookup_insert_eq by (now apply lookup_lt_Some with s).
    + now rewrite list_lookup_insert_ne by congruence.
  - destruct (decide (q = p)) as [->|Hne]; [exact Hp | reflexivity].
Qed.

(** An update of a reader that keeps [started] and [stopped] keeps the
    part of the invariant that speaks of the readers. *)
Lemma updateSource_readers (f : AudioBufferSourceNode -> AudioBufferSourceNode)
    (p : nat) (srcs : list AudioBufferSourceNode) (cell : option nat) :
  (forall s, started (f s) = started s /\ stopped (f s) = stopped s) ->
  (forall p0, cell = Some p0 -> exists s, srcs !! p0 = Some s /\ is_Some (started s)) ->
  (forall q s, srcs !! q = Some s -> sounding s = true -> cell = Some q) ->
  (forall p0, cell = Some p0 ->
     exists s, updateSource f p srcs !! p0 = Some s /\ is_Some (started s)) /\
  (forall q s, updateSource f p srcs !! q = Some s -> sounding s = true -> cell = Some q).
Proof.
  intros Hf Hcell Hone. split.
  - intros p0 Hp0. destruct (Hcell p0 Hp0) as (s & Hs & Hst).
    rewrite updateSource_lookup. destruct (decide (p0 = p)) as [->|Hne].
    + rewrite Hs. exists (f s). split; [reflexivity|]. now rewrite (proj1 (Hf s)).
    + now exists s.
  - intros q s. rewrite updateSource_lookup. destruct (decide (q = p)) as [->|Hne].
    + destruct (srcs !! p) as [s0|] eqn:Hs0; [|discriminate].
      intros [= <-] Hlive. apply (Hone p s0 Hs0).
      unfold sounding in *. destruct (Hf s0) as [-> ->] in Hlive. exact Hlive.
    + apply Hone.
Qed.

Lemma sane_mount (ctx : AudioContext) (rnd : Rand) : sane (mount (Some ctx) rnd).1.
Proof.
  split; [apply mount_initialised | | |];
    unfold mount; destruct (createReverbBuffer (ctxSampleRate ctx) 2 rnd) as [rb rnd'];
    cbn [fst sourceNodeRef sources audioBufferRef]; intros; discriminate.
Qed.

Lemma sane_stopResult (h : Hook) : sane h -> sane (stopResult h).
Proof.
  intros [[Hctx Hg Hb Ht Hr Hc Ha Hf] Hcell Hone Hdur]. split.
  - now split.
  - intros p [=].
  - cbn [stopResult sources sourceNodeRef]. intros q s Hs Hlive.
    now rewrite (detached_silent h Hone q s Hs) in Hlive.
  - exact Hdur.
Qed.

Lemma sane_loadResult (decodedBuffer : AudioBuffer) (h : Hook) :
  sane h -> 0 <= duration decodedBuffer -> sane (loadResult decodedBuffer h).
Proof.
  intros [[Hctx Hg Hb Ht Hr Hc Ha Hf] Hcell Hone _] Hdur. split.
  - now split.
  - intros p [=].
  - cbn [loadResult sources sourceNodeRef]. intros q s Hs Hlive.
    now rewrite (detached_silent h Hone q s Hs) in Hlive.
  - cbn [loadResult audioBufferRef]. now intros b [= <-].
Qed.

Lemma sane_pauseResult (now : Q) (h : Hook) : sane h -> sane (pauseResult now h).
Proof.
  intros [[Hctx Hg Hb Ht Hr Hc Ha Hf] Hcell Hone Hdur]. split.
  - now split.
  - cbn [pauseResult sources sourceNodeRef]. intros p Hp.
    destruct (Hcell p Hp) as (s & Hs & Hst).
    destruct (detached_started h p s Hs) as (s' & Hs' & E).
    exists s'. split; [exact Hs' | now rewrite E].
  - cbn [pauseResult sources sourceNodeRef]. intros q s Hs Hlive.
    now rewrite (detached_silent h Hone q s Hs) in Hlive.
  - exact Hdur.
Qed.

Lemma sane_with_pauseTimeRef (h : Hook) (x : Q) : sane h -> sane (with_pauseTimeRef h x).
Proof. intros [[] ? ? ?]. destruct h. split; [split|..]; assumption. Qed.

Lemma sane_polling (h : Hook) (t : Q) :
  sane h -> sane (requestAnimationFrame (setCurrentTime t h)).
Proof. intros [[] ? ? ?]. destruct h. split; [split|..]; assumption. Qed.

Lemma sane_tickResult (cutStartTime cutEndTime now : Q) (h : Hook) :
  sane h -> sane (tickResult cutStartTime cutEndTime now h).
Proof.
  intros Hs. unfold tickResult. destruct (sourceNodeRef h); [|exact Hs].
  destruct (Qgeb (now - startTimeRef h) cutEndTime).
  - apply sane_with_pauseTimeRef, sane_stopResult, Hs.
  - apply sane_polling, Hs.
Qed.

Lemma sane_flagged (p : nat) (h : Hook) :
  sane h -> sane (with_sources h (updateSource setOnended p (sources h))).
Proof.
  intros [[Hctx Hg Hb Ht Hr Hc Ha Hf] Hcell Hone Hdur].
  destruct (updateSource_readers setOnended p (sources h) (sourceNodeRef h)) as [Hc' Ho'];
    [now intros s | exact Hcell | exact Hone |].
  destruct h. split; [split|..]; assumption.
Qed.

Lemma sane_paramsAfter (controls : AudioProcessorControls) (now : Q) (h : Hook) :
  sane h -> sane (paramsAfter controls now h).
Proof.
  intros [[Hctx Hg Hb Ht Hr Hc Ha Hf] Hcell Hone Hdur].
  unfold paramsAfter. destruct Hctx as [ctx Hctx]. rewrite Hctx.
  assert (Hsrc : (forall p0, sourceNodeRef h = Some p0 ->
                    exists s, match sourceNodeRef h with
                              | Some p => updateSource
                                            (detuneRampedTo ((pitch controls - 50) * 24)
                                                            (now + (1 # 10))) p (sources h)
                              | None => sources h
                              end !! p0 = Some s /\ is_Some (started s)) /\
                 (forall q s, match sourceNodeRef h with
                              | Some p => updateSource
                                            (detuneRampedTo ((pitch controls - 50) * 24)
                                                            (now + (1 # 10))) p (sources h)
                              | None => sources h
                              end !! q = Some s -> sounding s = true ->
                              sourceNodeRef h = Some q)).
  { destruct (sourceNodeRef h) as [p|] eqn:Hp; [|now split].
    apply updateSource_readers; [now intros s | exact Hcell | exact Hone]. }
  destruct Hsrc as [Hc' Ho'].
  destruct h as [st ctxo src g b t rv c an eqs buf t0 t1 fr srcs rgs es pend nxt].
  cbn [audioContextRef gainNodeRef bassNodeRef trebleNodeRef reverbNodeRef
       compressorNodeRef analyserNodeRef eqNodesRef sourceNodeRef sources audioBufferRef] in *.
  simpl_hook.
  split; [split|..]; cbn [audioContextRef gainNodeRef bassNodeRef trebleNodeRef reverbNodeRef
       compressorNodeRef analyserNodeRef eqNodesRef sourceNodeRef sources audioBufferRef];
    try assumption; try (apply fmap_is_Some; assumption); eauto.
  now rewrite map_frequency_bands.
Qed.

Lemma sane_playStarted (controls : AudioProcessorControls) (clk : PlayClock)
    (ctx : AudioContext) (audioBuffer : AudioBuffer) (h : Hook) :
  sane h -> 0 <= duration audioBuffer -> sane (playStarted controls clk ctx audioBuffer h).
Proof.
  intros [[Hctx Hg Hb Ht Hr Hc Ha Hf] Hcell Hone _] Hdur.
  unfold playStarted. cbv zeta. split; [split|..];
    cbn [audioContextRef gainNodeRef bassNodeRef trebleNodeRef reverbNodeRef
         compressorNodeRef analyserNodeRef eqNodesRef sourceNodeRef sources audioBufferRef];
    try assumption; try (apply fmap_is_Some; assumption); eauto.
  - now rewrite map_frequency_bands.
  - intros p [= <-]. rewrite <- (detachedSources_length h).
    eexists. split; [apply list_lookup_middle; reflexivity|]. cbn. eauto.
  - intros q s Hs Hlive. rewrite <- (detachedSources_length h).
    destruct (decide (q < length (detachedSources h))%nat) as [Hlt|Hge].
    + rewrite lookup_app_l in Hs by exact Hlt.
      now rewrite (detached_silent h Hone q s Hs) in Hlive.
    + apply lookup_lt_Some in Hs as Hq. rewrite length_app in Hq. cbn in Hq.
      f_equal. lia.
  - now intros b [= <-].
Qed.

Lemma sane_playResult (controls : AudioProcessorControls) (clk : PlayClock)
    (ctx : AudioContext) (audioBuffer : AudioBuffer) (h : Hook) :
  sane h -> 0 <= duration audioBuffer -> sane (playResult controls clk ctx audioBuffer h).
Proof.
  intros Hs Hdur. unfold playResult. cbv zeta.
  apply sane_flagged, sane_tickResult, sane_playStarted; assumption.
Qed.

Lemma sane_ended (h : Hook) : sane h -> sane (onendedHandler h).
Proof.
  intros [[] ? ? ?]. unfold onendedHandler, cancelPendingFrame.
  destruct h as [st ctxo src g b t rv c an eqs buf t0 t1 fr srcs rgs es pend nxt].
  destruct fr; (split; [split|..]; assumption).
Qed.

Lemma play_sane (controls : AudioProcessorControls) (clk : PlayClock) (h : Hook) :
  sane h -> 0 <= cutStart controls -> 0 <= atParams clk ->
  exists h', play controls clk h = Ok h' /\ sane h'.
Proof.
  intros Hs Hcs Hnow.
  destruct (audioBufferRef h) as [audioBuffer|] eqn:Hbuf.
  - destruct (init_context h (sane_initialised h Hs)) as [ctx Hctx].
    pose proof (sane_duration h Hs audioBuffer Hbuf) as Hdur.
    exists (playResult controls clk ctx audioBuffer h). split.
    + apply play_exact; try assumption; [apply (sane_initialised h Hs)|].
      eapply Qle_trans; [|apply startOffsetOf_lower].
      now apply cutTime_nonneg.
    + now apply sane_playResult.
  - exists h. split; [|exact Hs]. unfold play. rewrite Hbuf.
    now destruct (audioContextRef h).
Qed.

Lemma pause_sane (now : Q) (h : Hook) : sane h -> exists h', pause now h = Ok h' /\ sane h'.
Proof.
  intros Hs. destruct (sourceNodeRef h) as [p|] eqn:Hp.
  - destruct (sane_cell h Hs p Hp) as (s & Hsrc & Hst).
    exists (pauseResult now h). split.
    + apply (pause_exact now h p s Hp (init_context h (sane_initialised h Hs)) Hsrc Hst).
    + now apply sane_pauseResult.
  - exists h. split; [|exact Hs]. unfold pause. now rewrite Hp.
Qed.

Lemma call_sane (c : Call) (h : Hook) :
  sane h -> admissible c -> exists h', call c h = Ok h' /\ sane h'.
Proof.
  intros Hs Hc. destruct c as [b|controls now|controls clk|now| |controls clk now|cs ce now| ];
    cbn [call admissible] in *.
  - exists (loadResult b h). split; [|now apply sane_loadResult].
    apply loadFile_exact, (init_context h (sane_initialised h Hs)).
  - exists (paramsAfter controls now h). split; [|now apply sane_paramsAfter].
    now apply updateParams_ok.
  - destruct Hc. now apply play_sane.
  - now apply pause_sane.
  - exists (stopResult h). split; [apply stop_exact | now apply sane_stopResult].
  - unfold togglePlayback. destruct (isPlaying (state h)).
    + now apply pause_sane.
    + destruct Hc. now apply play_sane.
  - exists (tickResult cs ce now h). split; [apply tick_exact | now apply sane_tickResult].
  - exists (onendedHandler h). split; [reflexivity | now apply sane_ended].
Qed.

Lemma run_sane (calls : list Call) :
  forall h, sane h -> Forall admissible calls -> exists h', run calls h = Ok h' /\ sane h'.
Proof.
  induction calls as [|c calls IH]; intros h Hs Hall.
  - now exists h.
  - inversion Hall as [|? ? Hc Hrest]; subst.
    destruct (call_sane c h Hs Hc) as (h1 & E & Hs1).
    cbn [run]. rewrite E. cbn [bind]. now apply IH.
Qed.

(** * Further properties of the hook *)

(** X8. No sequence of calls throws, and no two readers ever sound at
    once.  From the mount effect on, whatever the page calls and whenever
    the polls run and the readers end, as long as the clock, the trim
    start and the decoded durations are not negative: every call
    returns, the nodes stay in place, the reader in the cell was started,
    and a reader that was started and not stopped is the one in the
    cell. *)
Theorem session_never_throws (ctx : AudioContext) (rnd : Rand) (calls : list Call) :
  Forall admissible calls ->
  exists h,
    run calls (mount (Some ctx) rnd).1 = Ok h /\
    initialised h /\
    (forall p, sourceNodeRef h = Some p ->
       exists s, sources h !! p = Some s /\ is_Some (started s)) /\
    (forall q s, sources h !! q = Some s -> sounding s = true -> sourceNodeRef h = Some q) /\
    (forall q q' s s',
       sources h !! q = Some s -> sources h !! q' = Some s' ->
       sounding s = true -> sounding s' = true -> q = q').
Proof.
  intros Hall.
  destruct (run_sane calls _ (sane_mount ctx rnd) Hall) as (h & E & [Hi Hcell Hone Hdur]).
  exists h. split; [exact E|]. split; [exact Hi|]. split; [exact Hcell|].
  split; [exact Hone|].
  intros q q' s s' Hq Hq' Hl Hl'.
  pose proof (Hone q s Hq Hl) as E1. pose proof (Hone q' s' Hq' Hl') as E2. congruence.
Qed.

Lemma session_never_throws_witness :
  Forall admissible exCalls /\
  exists h,
    run exCalls (mount (Some exContext) exRand).1 = Ok h /\
    initialised h /\
    (forall p, sourceNodeRef h = Some p ->
       exists s, sources h !! p = Some s /\ is_Some (started s)) /\
    (forall q s, sources h !! q = Some s -> sounding s = true -> sourceNodeRef h = Some q) /\
    (forall q q' s s',
       sources h !! q = Some s -> sources h !! q' = Some s' ->
       sounding s = true -> sounding s' = true -> q = q').
Proof.
  assert (H : Forall admissible exCalls).
  { unfold exCalls. repeat constructor; lazy; discriminate. }
  split; [exact H|]. exact (session_never_throws exContext exRand exCalls H).
Defined.

(** ** What each result holds *)

Lemma tickResult_graph (cutStartTime cutEndTime now : Q) (h : Hook) :
  connections (tickResult cutStartTime cutEndTime now h) = connections h /\
  roomGains (tickResult cutStartTime cutEndTime now h) = roomGains h.
Proof.
  unfold tickResult. destruct (sourceNodeRef h); [|now split].
  destruct (Qgeb (now - startTimeRef h) cutEndTime); destruct h; now split.
Qed.





Lemma keepsEdges_previous (previous : option nat) (n : nat) (es : list Edge) (e : Edge) :
  e ∈ match previous with
      | Some p => disconnect (NSource p) es
      | None => es
      end /\ keepsEdges None n e.1 = true
  <-> e ∈ es /\ keepsEdges previous n e.1 = true.
Proof.
  destruct previous as [p|]; [|reflexivity].
  rewrite elem_of_disconnect. destruct e as [a b]. cbn [fst].
  destruct a; cbn [keepsEdges]; rewrite ?bool_decide_eq_true;
    intuition (try congruence; try discriminate).
Qed.

Lemma initialised_bands (h : Hook) : initialised h -> length (eqNodesRef h) = 23%nat.
Proof. intros Hi. now rewrite <- (length_map frequency), (init_frequencies h Hi). Qed.

(** X9. The graph that [play] leaves.  Its connections are the signal
    path -- the new reader into the 23 equalizer filters in order, then
    bass, treble and compressor, from the compressor both into the new
    reverb send gain, the reverb and the master gain, and straight into
    the master gain, then analyser and destination -- together with what
    was connected before on the nodes that [play] leaves alone; the
    reader of the previous [play] and the persistent nodes keep no other
    connection. *)
Theorem play_signal_path (controls : AudioProcessorControls) (clk : PlayClock) (h : Hook)
    (audioBuffer : AudioBuffer) :
  initialised h -> audioBufferRef h = Some audioBuffer -> 0 <= duration audioBuffer ->
  0 <= cutStart controls -> 0 <= atParams clk ->
  exists h',
    play controls clk h = Ok h' /\
    roomGains h' = roomGains h ++ [mkGain (param (wetLevelOf controls))] /\
    forall e : Edge,
      e ∈ connections h'
      <-> e ∈ signalPath (length (sources h)) (length (roomGains h)) 23
          \/ (e ∈ connections h /\ keepsEdges (sourceNodeRef h) 23 e.1 = true).
Proof.
  intros Hi Hbuf Hdur Hcs Hnow.
  destruct (init_context h Hi) as [ctx Hctx].
  exists (playResult controls clk ctx audioBuffer h). split.
  { apply play_exact; try assumption.
    eapply Qle_trans; [|apply startOffsetOf_lower]. now apply cutTime_nonneg. }
  unfold playResult. cbv zeta. cbn [with_sources roomGains connections].
  destruct (tickResult_graph (cutStartTimeOf controls audioBuffer)
              (cutEndTimeOf controls audioBuffer) (atTick clk)
              (playStarted controls clk ctx audioBuffer h)) as [-> ->].
  split; [reflexivity|]. intros e.
  cbn [playStarted connections]. rewrite (initialised_bands h Hi), elem_of_rewire.
  unfold detachedConnections. now rewrite keepsEdges_previous.
Qed.

Lemma play_signal_path_witness :
  initialised exLoaded /\ audioBufferRef exLoaded = Some exBuffer /\
  0 <= duration exBuffer /\ 0 <= cutStart exNeutral /\ 0 <= atParams exClock /\
  exists h',
    play exNeutral exClock exLoaded = Ok h' /\
    roomGains h' = roomGains exLoaded ++ [mkGain (param (wetLevelOf exNeutral))] /\
    forall e : Edge,
      e ∈ connections h'
      <-> e ∈ signalPath (length (sources exLoaded)) (length (roomGains exLoaded)) 23
          \/ (e ∈ connections exLoaded /\ keepsEdges (sourceNodeRef exLoaded) 23 e.1 = true).
Proof.
  assert (H1 : initialised exLoaded) by exact (proj1 exLoaded_facts).
  assert (H2 : audioBufferRef exLoaded = Some exBuffer) by exact (proj1 (proj2 exLoaded_facts)).
  assert (H3 : 0 <= duration exBuffer) by (lazy; discriminate).
  assert (H4 : 0 <= cutStart exNeutral) by (lazy; discriminate).
  assert (H5 : 0 <= atParams exClock) by (lazy; discriminate).
  split; [exact H1|]. split; [exact H2|]. split; [exact H3|]. split; [exact H4|].
  split; [exact H5|].
  exact (play_signal_path exNeutral exClock exLoaded exBuffer H1 H2 H3 H4 H5).
Defined.

(** The graph of the session that plays the loaded source: nothing was
    connected before, so it is the signal path and nothing else. *)
Example exPlaying_graph :
  connections exPlaying = signalPath 0 0 23 /\
  length (connections exPlaying) = 32%nat /\
  roomGains exPlaying = [mkGain (param (30 # 200))].
Proof.
  split; [lazy; reflexivity|]. split; [lazy; reflexivity|]. lazy. reflexivity.
Qed.

Lemma map_updateSource {B : Type} (g : AudioBufferSourceNode -> B)
    (f : AudioBufferSourceNode -> AudioBufferSourceNode) (p : nat)
    (srcs : list AudioBufferSourceNode) :
  (forall s, g (f s) = g s) -> map g (updateSource f p srcs) = map g srcs.
Proof.
  intros Hg. apply list_eq. intros q. rewrite !list_lookup_fmap, updateSource_lookup.
  destruct (decide (q = p)) as [->|Hne]; [|reflexivity].
  destruct (srcs !! p); cbn; [now rewrite Hg | reflexivity].
Qed.

Lemma map_imap_same {A B : Type} (g : A -> B) (f : nat -> A -> A) (l : list A) :
  (forall i x, g (f i x) = g x) -> map g (imap f l) = map g l.
Proof.
  intros Hg. apply list_eq. intros i. rewrite !list_lookup_fmap, list_lookup_imap.
  destruct (l !! i); cbn; [now rewrite Hg | reflexivity].
Qed.


(** X10. [updateParams] only schedules ramps and sets the compressor.
    It returns when the clock is not negative, and it leaves alone the
    published state, the cells of the reader and of the decoded source,
    both times, the graph, the reverb and every reverb send gain (so the
    room controls wait for the next [play]), the pending polls, and what
    every reader, filter and gain is at that instant. *)
Theorem updateParams_schedules_only (controls : AudioProcessorControls) (now : Q) (h : Hook) :
  0 <= now ->
  exists h',
    updateParams controls now h = Ok h' /\
    state h' = state h /\ sourceNodeRef h' = sourceNodeRef h /\
    audioBufferRef h' = audioBufferRef h /\
    startTimeRef h' = startTimeRef h /\ pauseTimeRef h' = pauseTimeRef h /\
    connections h' = connections h /\ roomGains h' = roomGains h /\
    reverbNodeRef h' = reverbNodeRef h /\
    animationFrameRef h' = animationFrameRef h /\ pendingFrames h' = pendingFrames h /\
    map readerNow (sources h') = map readerNow (sources h) /\
    map filterNow (eqNodesRef h') = map filterNow (eqNodesRef h) /\
    filterNow <$> bassNodeRef h' = filterNow <$> bassNodeRef h /\
    filterNow <$> trebleNodeRef h' = filterNow <$> trebleNodeRef h /\
    (value ∘ gain) <$> gainNodeRef h' = (value ∘ gain) <$> gainNodeRef h.
Proof.
  intros Hnow. exists (paramsAfter controls now h).
  split; [now apply updateParams_ok|].
  unfold paramsAfter. destruct (audioContextRef h) as [ctx|]; [|repeat split].
  destruct h as [st ctxo src g b t rv c an eqs buf t0 t1 fr srcs rgs es pend nxt].
  simpl_hook. repeat (split; [reflexivity|]).
  split; [|split; [|split; [|split]]].
  - destruct src as [p|]; [|reflexivity]. now apply map_updateSource.
  - apply map_imap_same. intros i x. unfold bandAfter.
    now destruct (eqBandAt controls i).
  - now destruct b.
  - now destruct t.
  - now destruct g.
Qed.

Lemma updateParams_schedules_only_witness :
  0 <= 2 /\
  exists h',
    updateParams exMastered 2 exPlaying = Ok h' /\
    state h' = state exPlaying /\ sourceNodeRef h' = sourceNodeRef exPlaying /\
    audioBufferRef h' = audioBufferRef exPlaying /\
    startTimeRef h' = startTimeRef exPlaying /\ pauseTimeRef h' = pauseTimeRef exPlaying /\
    connections h' = connections exPlaying /\ roomGains h' = roomGains exPlaying /\
    reverbNodeRef h' = reverbNodeRef exPlaying /\
    animationFrameRef h' = animationFrameRef exPlaying /\
    pendingFrames h' = pendingFrames exPlaying /\
    map readerNow (sources h') = map readerNow (sources exPlaying) /\
    map filterNow (eqNodesRef h') = map filterNow (eqNodesRef exPlaying) /\
    filterNow <$> bassNodeRef h' = filterNow <$> bassNodeRef exPlaying /\
    filterNow <$> trebleNodeRef h' = filterNow <$> trebleNodeRef exPlaying /\
    (value ∘ gain) <$> gainNodeRef h' = (value ∘ gain) <$> gainNodeRef exPlaying.
Proof.
  assert (H : 0 <= 2) by (lazy; discriminate).
  split; [exact H|]. exact (updateParams_schedules_only exMastered 2 exPlaying H).
Defined.

(** ** Sessions used as examples *)

Lemma Ok_inj {A : Type} (a b : A) : Ok a = Ok b -> a = b.
Proof. now intros [=]. Qed.

Lemma exLoaded_sane : sane exLoaded.
Proof.
  unfold exLoaded.
  rewrite loadFile_exact by apply (init_context _ exMounted_initialised).
  apply sane_loadResult; [apply sane_mount | lazy; discriminate].
Qed.

Lemma exPlaying_sane : sane exPlaying.
Proof.
  destruct (play_sane exNeutral exClock exLoaded exLoaded_sane) as (h' & E & Hs);
    [lazy; discriminate .. |].
  rewrite exPlaying_run in E. apply Ok_inj in E. rewrite E. exact Hs.
Qed.

(** ** The trim window at play *)

(** *** The paused session *)






(** *** Where playback starts *)




(** *** The empty window *)



(** *** The same lines in binary64 *)

Section Binary64Order.

Import PrimFloat SpecFloat FloatOps FloatAxioms.

(** The comparison of two doubles that are numbers is the comparison of
    their ranks. *)
Lemma SFcompare_rank (x y : spec_float) :
  x <> S754_nan -> y <> S754_nan ->
  SFcompare x y = Some (Binary64.lexCompare (Binary64.rank x) (Binary64.rank y)).
Proof.
  intros Hx Hy. destruct x as [sx|sx| |sx mx ex], y as [sy|sy| |sy my ey];
    try congruence; try (destruct sx; reflexivity); try (destruct sy; reflexivity);
    try (destruct sx, sy; reflexivity).
  unfold SFcompare, Binary64.lexCompare, Binary64.rank. f_equal.
  destruct sx, sy; cbn [fst snd]; try reflexivity.
  rewrite !Z.compare_opp, (Z.compare_antisym ex ey), Pos.compare_cont_spec.
  cbn [Pos.switch_Eq]. change (Z.pos my ?= Z.pos mx)%Z with (my ?= mx)%positive.
  rewrite (Pos.compare_antisym mx my).
  destruct (ex ?= ey)%Z; cbn; try reflexivity.
  destruct (mx ?= my)%positive; reflexivity.
Qed.

Lemma lexCompare_spec (a b : Z * Z * Z) :
  match Binary64.lexCompare a b with
  | Lt => Binary64.lexLt a b
  | Eq => Binary64.lexLe a b /\ Binary64.lexLe b a
  | Gt => Binary64.lexLt b a
  end.
Proof.
  unfold Binary64.lexCompare, Binary64.lexLt, Binary64.lexLe.
  destruct (Z.compare_spec a.1.1 b.1.1); [|lia..].
  destruct (Z.compare_spec a.1.2 b.1.2); [|lia..].
  destruct (Z.compare_spec a.2 b.2); lia.
Qed.

Lemma number_spec (x : float) : Binary64.number x <-> Prim2SF x <> S754_nan.
Proof.
  unfold Binary64.number. rewrite eqb_spec. unfold SFeqb. split.
  - intros H E. rewrite E in H. discriminate.
  - intros H. rewrite SFcompare_rank by assumption.
    pose proof (lexCompare_spec (Binary64.rank (Prim2SF x)) (Binary64.rank (Prim2SF x))) as Hc.
    destruct (Binary64.lexCompare _ _); [reflexivity | unfold Binary64.lexLt in Hc; lia ..].
Qed.

Lemma ltb_number (x y : float) :
  (x <? y)%float = true -> Binary64.number x /\ Binary64.number y.
Proof.
  rewrite ltb_spec, !number_spec. unfold SFltb.
  destruct (Prim2SF x), (Prim2SF y); cbn; try discriminate; split; discriminate.
Qed.

Lemma leb_number (x y : float) :
  (x <=? y)%float = true -> Binary64.number x /\ Binary64.number y.
Proof.
  rewrite leb_spec, !number_spec. unfold SFleb.
  destruct (Prim2SF x), (Prim2SF y); cbn; try discriminate; split; discriminate.
Qed.

Lemma ltb_lexLt (x y : float) :
  Binary64.number x -> Binary64.number y ->
  ((x <? y)%float = true
   <-> Binary64.lexLt (Binary64.rank (Prim2SF x)) (Binary64.rank (Prim2SF y))).
Proof.
  rewrite !number_spec. intros Hx Hy. rewrite ltb_spec. unfold SFltb.
  rewrite SFcompare_rank by assumption.
  pose proof (lexCompare_spec (Binary64.rank (Prim2SF x)) (Binary64.rank (Prim2SF y))) as Hc.
  unfold Binary64.lexLt, Binary64.lexLe in *.
  destruct (Binary64.lexCompare _ _); split; intros H; try reflexivity;
    try discriminate; try assumption; lia.
Qed.

Lemma leb_lexLe (x y : float) :
  Binary64.number x -> Binary64.number y ->
  ((x <=? y)%float = true
   <-> Binary64.lexLe (Binary64.rank (Prim2SF x)) (Binary64.rank (Prim2SF y))).
Proof.
  rewrite !number_spec. intros Hx Hy. rewrite leb_spec. unfold SFleb.
  rewrite SFcompare_rank by assumption.
  pose proof (lexCompare_spec (Binary64.rank (Prim2SF x)) (Binary64.rank (Prim2SF y))) as Hc.
  unfold Binary64.lexLt, Binary64.lexLe in *.
  destruct (Binary64.lexCompare _ _); split; intros H; try reflexivity;
    try discriminate; try tauto; lia.
Qed.

Ltac order_facts :=
  repeat match goal with
         | H : (_ <? _)%float = true |- _ => apply ltb_lexLt in H; [|assumption..]
         | H : (_ <=? _)%float = true |- _ => apply leb_lexLe in H; [|assumption..]
         | H : (_ <? _)%float = false |- _ =>
             apply not_true_iff_false in H; rewrite ltb_lexLt in H by assumption
         | H : (_ <=? _)%float = false |- _ =>
             apply not_true_iff_false in H; rewrite leb_lexLe in H by assumption
         | |- (_ <? _)%float = true => apply ltb_lexLt; [assumption..|]
         | |- (_ <=? _)%float = true => apply leb_lexLe; [assumption..|]
         end;
  unfold Binary64.lexLt, Binary64.lexLe in *.

(** Lines 308 to 310 in binary64, for a paused position that is a
    number: when the computed times are in order, the start offset lies
    in the window, at the paused position when that lies in the window
    and at the window start when it does not. *)
Lemma startOffsetOf_window64 (pauseTime cutStartTime cutEndTime : float) :
  Binary64.number pauseTime -> (cutStartTime <? cutEndTime)%float = true ->
  let startOffset := Binary64.startOffsetOf pauseTime cutStartTime cutEndTime in
  (cutStartTime <=? startOffset)%float = true /\
  (startOffset <? cutEndTime)%float = true /\
  ((pauseTime <? cutStartTime)%float = true \/ (cutEndTime <=? pauseTime)%float = true ->
   startOffset = cutStartTime) /\
  ((cutStartTime <=? pauseTime)%float = true /\ (pauseTime <? cutEndTime)%float = true ->
   startOffset = pauseTime).
Proof.
  intros Hp Hwin. destruct (ltb_number _ _ Hwin) as [Hcs Hce].
  unfold Binary64.startOffsetOf. cbv zeta.
  destruct (pauseTime <? cutStartTime)%float eqn:H1.
  - destruct (cutEndTime <=? cutStartTime)%float eqn:H2.
    + order_facts. lia.
    + repeat split; try reflexivity.
      * order_facts. lia.
      * exact Hwin.
      * intros [H3 H4]. order_facts. lia.
  - destruct (cutEndTime <=? pauseTime)%float eqn:H2.
    + repeat split; try reflexivity.
      * order_facts. lia.
      * exact Hwin.
      * intros [H3 H4]. order_facts. lia.
    + repeat split; try reflexivity.
      * order_facts. lia.
      * order_facts. lia.
      * intros [H3 | H3]; congruence.
Qed.

(** When they are not in order, it is the window start. *)
Lemma startOffsetOf_empty64 (pauseTime cutStartTime cutEndTime : float) :
  Binary64.number pauseTime -> (cutEndTime <=? cutStartTime)%float = true ->
  Binary64.startOffsetOf pauseTime cutStartTime cutEndTime = cutStartTime.
Proof.
  intros Hp Hwin. destruct (leb_number _ _ Hwin) as [Hce Hcs].
  unfold Binary64.startOffsetOf. cbv zeta.
  destruct (pauseTime <? cutStartTime)%float eqn:H1.
  - now rewrite Hwin.
  - destruct (cutEndTime <=? pauseTime)%float eqn:H2; [reflexivity|].
    order_facts. lia.
Qed.


(** The numbers of the paused session in binary64: paused at
    [1.25 - (1 - 0)], with the window from [(10 / 100) * 1] to
    [(50 / 100) * 1], [play] resumes at 0.25. *)
Example paused_inside_resumes_there :
  let cutStartTime := Binary64.cutTimeOf 10 1 in
  let cutEndTime := Binary64.cutTimeOf 50 1 in
  let paused := Binary64.positionOf 0 1 1.25 in
  (cutStartTime <? paused)%float = true /\ (paused <? cutEndTime)%float = true /\
  Binary64.startOffsetOf paused cutStartTime cutEndTime = 0.25%float.
Proof. repeat split. Qed.


(** The empty window in the middle of the source in binary64:
    [1 - (1 - 0.5)] is 0.5, and the poll stops. *)
Example exact_percentages_stop_at_once :
  let cutStartTime := Binary64.cutTimeOf 50 1 in
  let cutEndTime := Binary64.cutTimeOf 50 1 in
  let startOffset := Binary64.startOffsetOf 0 cutStartTime cutEndTime in
  startOffset = cutStartTime /\
  Binary64.reachedEnd (Binary64.positionOf startOffset 1 1) cutEndTime = true.
Proof. repeat split. Qed.

(** A pause at the clock read of the play records a position below the
    window start, and the next [play] starts at the window start. *)
Example pause_at_once_restarts :
  let cutStartTime := Binary64.cutTimeOf 10 1 in
  let cutEndTime := Binary64.cutTimeOf 50 1 in
  let startOffset := Binary64.startOffsetOf 0 cutStartTime cutEndTime in
  let paused := Binary64.positionOf startOffset 1 1 in
  startOffset = cutStartTime /\ (paused <? cutStartTime)%float = true /\
  Binary64.startOffsetOf paused cutStartTime cutEndTime = cutStartTime.
Proof. repeat split. Qed.

(** A pause a quarter of a second later records a position inside the
    window, and the next [play] starts there. *)
Example pause_later_resumes_there :
  let cutStartTime := Binary64.cutTimeOf 10 1 in
  let cutEndTime := Binary64.cutTimeOf 50 1 in
  let startOffset := Binary64.startOffsetOf 0 cutStartTime cutEndTime in
  let paused := Binary64.positionOf startOffset 1 1.25 in
  (Binary64.positionOf startOffset 1 1 <? cutEndTime)%float = true /\
  (cutStartTime <=? paused)%float = true /\ (paused <? cutEndTime)%float = true /\
  Binary64.startOffsetOf paused cutStartTime cutEndTime = paused.
Proof. repeat split. Qed.

(** The length that [exportAudio] asks the offline context for, for the
    first 35% of a source of one second: below 15435, so 15434 frames. *)
Example render_length_below_product :
  let length := Binary64.renderLengthOf 0 35 1 in
  (15434 <=? length)%float = true /\ (length <? 15435)%float = true.
Proof. repeat split. Qed.

(** The last of 13 columns of the waterfall on a canvas of 600 pixels
    starts left of the right edge and ends beyond it. *)
Example last_column_overhangs :
  let xPos := Binary64.xPosOf 600 13 12 in
  let cellWidth := Binary64.cellWidthOf 600 13 in
  (xPos <? 600)%float = true /\ (600 <? xPos + cellWidth)%float = true.
Proof. repeat split. Qed.

End Binary64Order.

(** ** Pause and resume *)

(** X11. [pause()] on a session whose cell holds a reader: it returns,
    records the position [currentTime - startTimeRef], publishes that
    nothing plays, leaves no reader sounding and cancels the pending
    poll; the graph and the cell stay as they were.  The cell still
    holding the stopped reader, a second [pause()] returns too and moves
    the recorded position on with the clock. *)
Theorem pause_records_position (now : Q) (h : Hook) (p : nat) :
  sane h -> sourceNodeRef h = Some p ->
  exists h',
    pause now h = Ok h' /\
    pauseTimeRef h' = now - startTimeRef h /\
    state h' = mkState false (currentTime (state h)) (stateDuration (state h))
                       (analyser (state h)) /\
    sourceNodeRef h' = Some p /\ startTimeRef h' = startTimeRef h /\
    connections h' = connections h /\
    (forall q s, sources h' !! q = Some s -> sounding s = false) /\
    (forall f, animationFrameRef h = Some f -> f ∉ pendingFrames h') /\
    (forall later, exists h'',
       pause later h' = Ok h'' /\ pauseTimeRef h'' = later - startTimeRef h).
Proof.
  intros Hs Hp. destruct (sane_cell h Hs p Hp) as (s & Hsrc & Hst).
  pose proof (init_context h (sane_initialised h Hs)) as Hctx.
  exists (pauseResult now h).
  split; [exact (pause_exact now h p s Hp Hctx Hsrc Hst)|].
  split; [reflexivity|]. split; [reflexivity|]. split; [exact Hp|].
  split; [reflexivity|]. split; [reflexivity|]. split; [|split].
  - cbn [pauseResult sources]. apply detached_silent, (sane_one h Hs).
  - intros f Hf. cbn [pauseResult pendingFrames]. unfold cancelled. rewrite Hf.
    rewrite list_elem_of_filter. tauto.
  - intros later. pose proof (sane_pauseResult now h Hs) as Hs'.
    destruct (sane_cell _ Hs' p Hp) as (s' & Hsrc' & Hst').
    exists (pauseResult later (pauseResult now h)). split; [|reflexivity].
    exact (pause_exact later (pauseResult now h) p s' Hp Hctx Hsrc' Hst').
Qed.

Lemma pause_records_position_witness :
  sane exPlaying /\ sourceNodeRef exPlaying = Some 0%nat /\
  exists h',
    pause 2 exPlaying = Ok h' /\
    pauseTimeRef h' = 2 - startTimeRef exPlaying /\
    state h' = mkState false (currentTime (state exPlaying)) (stateDuration (state exPlaying))
                       (analyser (state exPlaying)) /\
    sourceNodeRef h' = Some 0%nat /\ startTimeRef h' = startTimeRef exPlaying /\
    connections h' = connections exPlaying /\
    (forall q s, sources h' !! q = Some s -> sounding s = false) /\
    (forall f, animationFrameRef exPlaying = Some f -> f ∉ pendingFrames h') /\
    (forall later, exists h'',
       pause later h' = Ok h'' /\ pauseTimeRef h'' = later - startTimeRef exPlaying).
Proof.
  assert (H1 : sane exPlaying) by exact exPlaying_sane.
  assert (H2 : sourceNodeRef exPlaying = Some 0%nat) by (lazy; reflexivity).
  split; [exact H1|]. split; [exact H2|].
  exact (pause_records_position 2 exPlaying 0 H1 H2).
Defined.






(** ** The end of the window and the end of the reader *)






(** ** A new source *)




(** * The page *)

(** ** The trim input *)

Lemma parseInt_nonneg (digits : String.string) : 0 <= parseInt digits.
Proof.
  unfold parseInt. change 0 with (inject_Z 0). rewrite <- Zle_Qle. lia.
Qed.

Lemma percent_range (startTime endTime duration : Q) :
  0 <= startTime -> startTime < endTime -> endTime <= duration ->
  0 <= startTime / duration * 100 /\
  startTime / duration * 100 < endTime / duration * 100 /\
  endTime / duration * 100 <= 100.
Proof.
  intros H0 Hlt Hle.
  assert (Hd : 0 < duration) by lra.
  assert (Hi : 0 < / duration) by now apply Qinv_lt_0_compat.
  unfold Qdiv.
  assert (H1 : 0 <= startTime * / duration) by nra.
  assert (H2 : startTime * / duration < endTime * / duration) by nra.
  assert (H3 : endTime * / duration <= 1).
  { apply Qle_shift_div_r; [exact Hd | lra]. }
  repeat split; lra.
Qed.

(** X16. The trim range of the page stays a range.  Whatever is typed
    into the trim input, [handleCutInputChange] stores the text, and the
    range it leaves -- the one it found, or the one it computed from an
    accepted text -- satisfies [0 <= start < end <= 100]; so do the
    [cutStart] and [cutEnd] that [currentControls] hands to the hook. *)
Theorem trim_range_stays_valid (val : String.string) (duration : Q) (st : HomeState)
    (controls : AudioProcessorControls) :
  0 <= (cutRange st).1 -> (cutRange st).1 < (cutRange st).2 -> (cutRange st).2 <= 100 ->
  cutInput (handleCutInputChange val duration st) = val /\
  0 <= cutStart (currentControls controls (handleCutInputChange val duration st)) /\
  cutStart (currentControls controls (handleCutInputChange val duration st))
  < cutEnd (currentControls controls (handleCutInputChange val duration st)) /\
  cutEnd (currentControls controls (handleCutInputChange val duration st)) <= 100.
Proof.
  intros H0 Hlt H100. unfold currentControls. cbn [cutStart cutEnd].
  unfold handleCutInputChange. cbv zeta.
  destruct (matchCut val) as [[[[g1 g2] g3] g4]|]; [|now repeat split].
  destruct (Qltb 0 duration) eqn:Hd; [|now repeat split].
  destruct (Qltb (parseInt g1 * 60 + parseInt g2) (parseInt g3 * 60 + parseInt g4)
            && Qle_bool (parseInt g3 * 60 + parseInt g4) duration) eqn:Hok;
    [|now repeat split].
  apply andb_true_iff in Hok as [Hs He].
  apply Qltb_lt in Hs. apply Qle_bool_iff in He.
  cbn [cutInput cutRange fst snd]. split; [reflexivity|].
  apply percent_range; try assumption.
  pose proof (parseInt_nonneg g1). pose proof (parseInt_nonneg g2). lra.
Qed.

Lemma trim_range_stays_valid_witness :
  0 <= (cutRange (mkHome String.EmptyString (0, 100))).1 /\
  (cutRange (mkHome String.EmptyString (0, 100))).1
  < (cutRange (mkHome String.EmptyString (0, 100))).2 /\
  (cutRange (mkHome String.EmptyString (0, 100))).2 <= 100 /\
  cutInput (handleCutInputChange "0:10-0:40"%string 60 (mkHome String.EmptyString (0, 100)))
  = "0:10-0:40"%string /\
  0 <= cutStart (currentControls exNeutral
                   (handleCutInputChange "0:10-0:40"%string 60
                      (mkHome String.EmptyString (0, 100)))) /\
  cutStart (currentControls exNeutral
              (handleCutInputChange "0:10-0:40"%string 60
                 (mkHome String.EmptyString (0, 100))))
  < cutEnd (currentControls exNeutral
              (handleCutInputChange "0:10-0:40"%string 60
                 (mkHome String.EmptyString (0, 100)))) /\
  cutEnd (currentControls exNeutral
            (handleCutInputChange "0:10-0:40"%string 60
               (mkHome String.EmptyString (0, 100)))) <= 100.
Proof.
  assert (H1 : 0 <= (cutRange (mkHome String.EmptyString (0, 100))).1)
    by (lazy; discriminate).
  assert (H2 : (cutRange (mkHome String.EmptyString (0, 100))).1
               < (cutRange (mkHome String.EmptyString (0, 100))).2)
    by (lazy; reflexivity).
  assert (H3 : (cutRange (mkHome String.EmptyString (0, 100))).2 <= 100)
    by (lazy; discriminate).
  split; [exact H1|]. split; [exact H2|]. split; [exact H3|].
  exact (trim_range_stays_valid "0:10-0:40"%string 60 (mkHome String.EmptyString (0, 100))
           exNeutral H1 H2 H3).
Defined.

(** ** What the time display prints, the trim input reads *)

Lemma append_assoc (s t u : String.string) :
  String.append (String.append s t) u = String.append s (String.append t u).
Proof. induction s as [|c s IH]; cbn; [reflexivity | now rewrite IH]. Qed.

Lemma parseDigits_app (s t : String.string) :
  forall acc, parseDigits acc (String.append s t) = parseDigits (parseDigits acc s) t.
Proof. induction s as [|c s IH]; intros acc; cbn; [reflexivity | apply IH]. Qed.

Lemma digitChar_value (d : N) : (d < 10)%N -> digitValue (digitChar d) = d.
Proof.
  intros Hd. unfold digitValue, digitChar.
  rewrite Ascii.N_ascii_embedding by lia. lia.
Qed.

Lemma digitChar_isDigit (d : N) : (d < 10)%N -> isDigit (digitChar d) = true.
Proof.
  intros Hd. unfold isDigit, digitChar.
  rewrite Ascii.N_ascii_embedding by lia.
  apply andb_true_iff. split; apply N.leb_le; lia.
Qed.

Lemma takeDigits_app (s rest : String.string) :
  takeDigits s = (s, String.EmptyString) ->
  takeDigits (String.append s rest)
  = (String.append s (takeDigits rest).1, (takeDigits rest).2).
Proof.
  induction s as [|c s IH]; intros Hs.
  - cbn. now destruct (takeDigits rest).
  - cbn in Hs |- *. destruct (isDigit c); [|discriminate].
    injection Hs as Hs1 Hs2.
    rewrite IH; [reflexivity|].
    destruct (takeDigits s) as [x y]. cbn in Hs1, Hs2. now subst.
Qed.

Lemma digitsOf_digits (fuel : nat) :
  forall n, takeDigits (digitsOf fuel n) = (digitsOf fuel n, String.EmptyString).
Proof.
  induction fuel as [|fuel IH]; intros n; [reflexivity|].
  cbn [digitsOf]. destruct (N.ltb_spec n 10) as [Hlt|Hge].
  - cbn. now rewrite digitChar_isDigit.
  - rewrite takeDigits_app by apply IH. cbn.
    rewrite digitChar_isDigit by (apply N.mod_lt; lia). reflexivity.
Qed.

Lemma digitsOf_value (fuel : nat) :
  forall n, (N.to_nat n < fuel)%nat -> parseDigits 0 (digitsOf fuel n) = n.
Proof.
  induction fuel as [|fuel IH]; intros n Hn; [lia|].
  cbn [digitsOf]. destruct (N.ltb_spec n 10) as [Hlt|Hge].
  - cbn. rewrite digitChar_value by exact Hlt. lia.
  - rewrite parseDigits_app, IH.
    + cbn. rewrite digitChar_value by (apply N.mod_lt; lia).
      pose proof (N.div_mod n 10 ltac:(lia)). lia.
    + assert (n / 10 < n)%N by (apply N.div_lt; lia). lia.
Qed.

Lemma digitsOf_nonempty (fuel : nat) (n : N) :
  digitsOf (S fuel) n <> String.EmptyString.
Proof.
  cbn [digitsOf]. destruct (n <? 10)%N; [discriminate|].
  destruct (digitsOf fuel (n / 10)); discriminate.
Qed.

(** The minutes and the seconds that [formatTime] prints for a whole
    number of seconds. *)
Lemma formatTime_whole (a : Z) :
  (0 <= a)%Z ->
  formatTime (inject_Z a)
  = String.append (toString (a / 60))
                  (String.String ":"%char (padStart2 (toString (a mod 60)))).
Proof.
  intros Ha. unfold formatTime. cbv zeta.
  assert (E1 : Qfloor (inject_Z a / 60) = (a / 60)%Z) by (symmetry; apply Zdiv_Qdiv).
  assert (E2 : Qtrunc (inject_Z a / 60) = (a / 60)%Z).
  { unfold Qtrunc. cbn. rewrite Z.mul_1_r. apply Z.quot_div_nonneg; lia. }
  assert (E3 : Qrem (inject_Z a) 60 == inject_Z (a mod 60)).
  { unfold Qrem. rewrite E2. rewrite (Z.mod_eq a 60) by lia.
    unfold Zminus. rewrite inject_Z_plus, inject_Z_opp, inject_Z_mult. reflexivity. }
  rewrite E1, (Qfloor_comp _ _ E3), Qfloor_Z. reflexivity.
Qed.

Lemma toString_nonneg (z : Z) :
  (0 <= z)%Z -> toString z = digitsOf (S (Z.to_nat z)) (Z.to_N z).
Proof. intros Hz. unfold toString. now rewrite (proj2 (Z.ltb_ge z 0)). Qed.

(** A printed number below 100, padded: still digits, with the same
    value. *)
Lemma padStart2_digits (z : Z) :
  (0 <= z)%Z ->
  takeDigits (padStart2 (toString z)) = (padStart2 (toString z), String.EmptyString) /\
  parseDigits 0 (padStart2 (toString z)) = Z.to_N z /\
  padStart2 (toString z) <> String.EmptyString.
Proof.
  intros Hz. rewrite toString_nonneg by exact Hz.
  pose proof (digitsOf_digits (S (Z.to_nat z)) (Z.to_N z)) as Hd.
  pose proof (digitsOf_value (S (Z.to_nat z)) (Z.to_N z) ltac:(lia)) as Hv.
  pose proof (digitsOf_nonempty (Z.to_nat z) (Z.to_N z)) as Hn.
  destruct (digitsOf (S (Z.to_nat z)) (Z.to_N z)) as [|c [|c' s]]; [contradiction| |].
  - cbn [padStart2]. split; [|split; [|discriminate]].
    + cbn in Hd |- *. destruct (isDigit c); [reflexivity | discriminate].
    + cbn in Hv |- *. exact Hv.
  - cbn [padStart2]. split; [exact Hd|]. split; [exact Hv | discriminate].
Qed.

Lemma toString_digits (z : Z) :
  (0 <= z)%Z ->
  takeDigits (toString z) = (toString z, String.EmptyString) /\
  parseDigits 0 (toString z) = Z.to_N z /\
  toString z <> String.EmptyString.
Proof.
  intros Hz. rewrite toString_nonneg by exact Hz.
  split; [apply digitsOf_digits|]. split; [apply digitsOf_value; lia|].
  apply digitsOf_nonempty.
Qed.

(** A group of digits, then its separator. *)
Lemma digitsThen_sep (c : Ascii.ascii) (digits rest : String.string) :
  takeDigits digits = (digits, String.EmptyString) -> digits <> String.EmptyString ->
  isDigit c = false ->
  digitsThen (Some c) (String.append digits (String.String c rest)) = Some (digits, rest).
Proof.
  intros Hd Hn Hc. unfold digitsThen. rewrite (takeDigits_app _ _ Hd).
  cbn [takeDigits]. rewrite Hc. cbn [fst snd].
  assert (E : String.append digits String.EmptyString = digits).
  { clear. induction digits as [|a s IH]; cbn; [reflexivity | now rewrite IH]. }
  rewrite E. destruct digits as [|a s]; [contradiction|].
  now rewrite Ascii.eqb_refl.
Qed.

Lemma digitsThen_end (digits : String.string) :
  takeDigits digits = (digits, String.EmptyString) -> digits <> String.EmptyString ->
  digitsThen None digits = Some (digits, String.EmptyString).
Proof.
  intros Hd Hn. unfold digitsThen. rewrite Hd. cbn [fst snd].
  destruct digits as [|a s]; [contradiction | reflexivity].
Qed.

Lemma matchCut_times (g1 g2 g3 g4 : String.string) :
  takeDigits g1 = (g1, String.EmptyString) -> g1 <> String.EmptyString ->
  takeDigits g2 = (g2, String.EmptyString) -> g2 <> String.EmptyString ->
  takeDigits g3 = (g3, String.EmptyString) -> g3 <> String.EmptyString ->
  takeDigits g4 = (g4, String.EmptyString) -> g4 <> String.EmptyString ->
  matchCut (String.append (String.append g1 (String.String ":"%char g2))
              (String.String "-"%char (String.append g3 (String.String ":"%char g4))))
  = Some (g1, g2, g3, g4).
Proof.
  intros H1 N1 H2 N2 H3 N3 H4 N4. unfold matchCut.
  rewrite append_assoc. cbn [String.append].
  rewrite (digitsThen_sep _ g1 _ H1 N1) by reflexivity.
  rewrite (digitsThen_sep _ g2 _ H2 N2) by reflexivity.
  rewrite (digitsThen_sep _ g3 _ H3 N3) by reflexivity.
  now rewrite (digitsThen_end g4 H4 N4).
Qed.

Lemma whole_seconds (a : Z) :
  (0 <= a)%Z ->
  inject_Z (Z.of_N (Z.to_N (a / 60))) * 60 + inject_Z (Z.of_N (Z.to_N (a mod 60)))
  == inject_Z a.
Proof.
  intros Ha.
  assert (0 <= a / 60)%Z by (apply Z.div_pos; lia).
  assert (0 <= a mod 60)%Z by (apply Z.mod_pos_bound; lia).
  rewrite !Z2N.id by assumption.
  change 60 with (inject_Z 60). rewrite <- inject_Z_mult, <- inject_Z_plus.
  rewrite (Z.mul_comm (a / 60) 60), <- Z.div_mod by lia. reflexivity.
Qed.

(** X17. The trim input reads back what the time display prints.  For
    whole seconds [a < b] inside the source, typing [formatTime(a)], a
    dash and [formatTime(b)] is accepted and selects exactly the range
    from [a] to [b] seconds, as percentages of the duration. *)
Theorem typed_times_select_range (a b : Z) (duration : Q) (st : HomeState) :
  (0 <= a < b)%Z -> inject_Z b <= duration ->
  exists startPct endPct,
    handleCutInputChange
      (String.append (formatTime (inject_Z a))
                     (String.String "-"%char (formatTime (inject_Z b))))
      duration st
    = mkHome (String.append (formatTime (inject_Z a))
                            (String.String "-"%char (formatTime (inject_Z b))))
             (startPct, endPct) /\
    startPct == inject_Z a / duration * 100 /\
    endPct == inject_Z b / duration * 100.
Proof.
  intros Hab Hb.
  assert (Ha0 : (0 <= a)%Z) by lia. assert (Hb0 : (0 <= b)%Z) by lia.
  rewrite !formatTime_whole by assumption.
  assert (Hma : (0 <= a / 60)%Z) by (apply Z.div_pos; lia).
  assert (Hsa : (0 <= a mod 60)%Z) by (apply Z.mod_pos_bound; lia).
  assert (Hmb : (0 <= b / 60)%Z) by (apply Z.div_pos; lia).
  assert (Hsb : (0 <= b mod 60)%Z) by (apply Z.mod_pos_bound; lia).
  destruct (toString_digits _ Hma) as (D1 & V1 & N1).
  destruct (padStart2_digits _ Hsa) as (D2 & V2 & N2).
  destruct (toString_digits _ Hmb) as (D3 & V3 & N3).
  destruct (padStart2_digits _ Hsb) as (D4 & V4 & N4).
  unfold handleCutInputChange. cbv zeta.
  rewrite (matchCut_times _ _ _ _ D1 N1 D2 N2 D3 N3 D4 N4).
  unfold parseInt. rewrite V1, V2, V3, V4.
  pose proof (whole_seconds a Ha0) as Ea. pose proof (whole_seconds b Hb0) as Eb.
  set (startTime := inject_Z (Z.of_N (Z.to_N (a / 60))) * 60
                    + inject_Z (Z.of_N (Z.to_N (a mod 60)))) in *.
  set (endTime := inject_Z (Z.of_N (Z.to_N (b / 60))) * 60
                  + inject_Z (Z.of_N (Z.to_N (b mod 60)))) in *.
  assert (Hlt : inject_Z a < inject_Z b) by (rewrite <- Zlt_Qlt; lia).
  assert (H0 : 0 <= inject_Z a) by (change 0 with (inject_Z 0); rewrite <- Zle_Qle; lia).
  assert (Hd : Qltb 0 duration = true) by (apply Qltb_lt; lra).
  assert (Hs : Qltb startTime endTime = true) by (apply Qltb_lt; lra).
  assert (He : Qle_bool endTime duration = true) by (apply Qle_bool_iff; lra).
  rewrite Hd, Hs, He. cbn [andb cutInput].
  eexists. eexists. split; [reflexivity|].
  split; [now rewrite Ea | now rewrite Eb].
Qed.

Lemma typed_times_select_range_witness :
  (0 <= 75 < 130)%Z /\ inject_Z 130 <= 200 /\
  exists startPct endPct,
    handleCutInputChange
      (String.append (formatTime (inject_Z 75))
                     (String.String "-"%char (formatTime (inject_Z 130))))
      200 (mkHome String.EmptyString (0, 100))
    = mkHome (String.append (formatTime (inject_Z 75))
                            (String.String "-"%char (formatTime (inject_Z 130))))
             (startPct, endPct) /\
    startPct == inject_Z 75 / 200 * 100 /\
    endPct == inject_Z 130 / 200 * 100.
Proof.
  assert (H1 : (0 <= 75 < 130)%Z) by lia.
  assert (H2 : inject_Z 130 <= 200) by (lazy; discriminate).
  split; [exact H1|]. split; [exact H2|].
  exact (typed_times_select_range 75 130 200 (mkHome String.EmptyString (0, 100)) H1 H2).
Defined.

(** What the display prints for 75 and for 130 seconds, and what the
    trim input makes of it in a source of 200 seconds. *)
Example typed_times_run :
  formatTime (inject_Z 75) = "1:15"%string /\
  formatTime (inject_Z 130) = "2:10"%string /\
  formatTime (9 # 2) = "0:04"%string /\
  cutRange (handleCutInputChange "1:15-2:10"%string 200 (mkHome String.EmptyString (0, 100)))
  = (75 / 200 * 100, 130 / 200 * 100) /\
  handleCutInputChange "1:15-2:1x"%string 200 (mkHome String.EmptyString (0, 100))
  = mkHome "1:15-2:1x"%string (0, 100) /\
  handleCutInputChange "0:90-1:45"%string 200 (mkHome String.EmptyString (0, 100))
  = mkHome "0:90-1:45"%string (90 / 200 * 100, 105 / 200 * 100).
Proof. repeat split; vm_compute; reflexivity. Qed.

(** ** The export button *)





(** ** The pitch input *)

(** X19. A typed pitch stays on the slider's scale, and the detune it
    asks for within one octave.  Whatever [parseInt] made of the text,
    [handlePitchInputChange] hands on a pitch in [[0, 100]] -- the number
    itself when it was there already -- and leaves the other controls
    alone; the ramp that [updateParams] then schedules on the reader ends
    between -1200 and 1200 cents. *)
Theorem typed_pitch_stays_in_range (parsed : option Q) (values : AudioProcessorControls)
    (now : Q) (h : Hook) (p : nat) :
  0 <= now -> is_Some (audioContextRef h) ->
  sourceNodeRef h = Some p -> (p < length (sources h))%nat ->
  0 <= pitch (handlePitchInputChange parsed values) /\
  pitch (handlePitchInputChange parsed values) <= 100 /\
  (forall v, parsed = Some v -> 0 <= v -> v <= 100 ->
     pitch (handlePitchInputChange parsed values) = v) /\
  handlePitchInputChange parsed values
  = mkControls (pitch (handlePitchInputChange parsed values)) (booster values)
               (roomSize values) (fullRoom values) (bass values) (treble values)
               (beautify values) (mastered values) (eqBands values)
               (cutStart values) (cutEnd values) /\
  exists h' s',
    updateParams (handlePitchInputChange parsed values) now h = Ok h' /\
    sources h' !! p = Some s' /\
    -1200 <= settled (detune s') /\ settled (detune s') <= 1200.
Proof.
  intros Hnow [ctx Hctx] Hp Hlt.
  destruct (lookup_lt_is_Some_2 _ _ Hlt) as [s Hs].
  assert (Hrange : 0 <= pitch (handlePitchInputChange parsed values)
                   /\ pitch (handlePitchInputChange parsed values) <= 100).
  { unfold handlePitchInputChange. cbv zeta. cbn [pitch].
    set (val := match parsed with Some v => v | None => 0 end).
    destruct (Qltb val 0) eqn:H0.
    - destruct (Qltb 100 0) eqn:H1; [apply Qltb_lt in H1; lra | lra].
    - apply Qltb_ge in H0. destruct (Qltb 100 val) eqn:H1; [lra|].
      apply Qltb_ge in H1. lra. }
  destruct Hrange as [Hlo Hhi].
  split; [exact Hlo|]. split; [exact Hhi|]. split; [|split; [reflexivity|]].
  - intros v -> Hv0 Hv100. unfold handlePitchInputChange. cbv zeta. cbn [pitch].
    rewrite (proj2 (Qltb_ge v 0) Hv0). now rewrite (proj2 (Qltb_ge 100 v) Hv100).
  - exists (paramsAfter (handlePitchInputChange parsed values) now h).
    set (controls := handlePitchInputChange parsed values) in *. clearbody controls.
    eexists. split; [now apply updateParams_ok|].
    unfold paramsAfter. rewrite Hctx, Hp. cbn [with_compressorNodeRef sources].
    unfold updateSource. rewrite Hs.
    split; [apply list_lookup_insert_eq; now apply lookup_lt_Some with s|].
    cbn. lra.
Qed.

Lemma typed_pitch_stays_in_range_witness :
  0 <= 2 /\ is_Some (audioContextRef exPlaying) /\
  sourceNodeRef exPlaying = Some 0%nat /\
  (0 < length (sources exPlaying))%nat /\
  0 <= pitch (handlePitchInputChange (Some 250) exNeutral) /\
  pitch (handlePitchInputChange (Some 250) exNeutral) <= 100 /\
  (forall v, Some 250 = Some v -> 0 <= v -> v <= 100 ->
     pitch (handlePitchInputChange (Some 250) exNeutral) = v) /\
  handlePitchInputChange (Some 250) exNeutral
  = mkControls (pitch (handlePitchInputChange (Some 250) exNeutral)) (booster exNeutral)
               (roomSize exNeutral) (fullRoom exNeutral) (bass exNeutral) (treble exNeutral)
               (beautify exNeutral) (mastered exNeutral) (eqBands exNeutral)
               (cutStart exNeutral) (cutEnd exNeutral) /\
  exists h' s',
    updateParams (handlePitchInputChange (Some 250) exNeutral) 2 exPlaying = Ok h' /\
    sources h' !! 0%nat = Some s' /\
    -1200 <= settled (detune s') /\ settled (detune s') <= 1200.
Proof.
  assert (H1 : 0 <= 2) by (lazy; discriminate).
  assert (H2 : is_Some (audioContextRef exPlaying))
    by exact (init_context _ (sane_initialised _ exPlaying_sane)).
  assert (H3 : sourceNodeRef exPlaying = Some 0%nat) by (lazy; reflexivity).
  assert (H4 : (0 < length (sources exPlaying))%nat) by (lazy; lia).
  split; [exact H1|]. split; [exact H2|]. split; [exact H3|]. split; [exact H4|].
  exact (typed_pitch_stays_in_range (Some 250) exNeutral 2 exPlaying 0 H1 H2 H3 H4).
Defined.

(** * The visualizers *)

(** ** The frequency waterfall *)

Lemma pushFrame_drop (frame : list Z) (frames : list (list Z)) :
  pushFrame frame (drop (length frames - maxHistory) frames)
  = drop (length (frames ++ [frame]) - maxHistory) (frames ++ [frame]).
Proof.
  unfold pushFrame. cbv zeta. rewrite !length_app, length_drop. cbn [length].
  unfold maxHistory.
  destruct (Nat.ltb_spec 100 (length frames - (length frames - 100) + 1)) as [Hfull|Hroom].
  - assert (Hn : (100 <= length frames)%nat) by lia.
    assert (Htail : forall l : list (list Z), tail l = drop 1 l) by (now intros [|x l]).
    rewrite Htail, <- drop_app_le by lia. rewrite drop_drop. f_equal. lia.
  - replace (length frames - 100)%nat with 0%nat by lia.
    replace (length frames + 1 - 100)%nat with 0%nat by lia. reflexivity.
Qed.

(** X20. The history of the waterfall is the last hundred frames.
    Starting from an empty history, after any number of frames the
    buffer holds the frames pushed, oldest first, without those before
    the last [maxHistory]; so it never grows past 100. *)
Theorem history_keeps_last_frames (frames : list (list Z)) :
  foldl (fun historyBuffer frame => pushFrame frame historyBuffer) [] frames
  = drop (length frames - maxHistory) frames /\
  (length (foldl (fun historyBuffer frame => pushFrame frame historyBuffer) [] frames)
   <= maxHistory)%nat.
Proof.
  assert (E : foldl (fun historyBuffer frame => pushFrame frame historyBuffer) [] frames
              = drop (length frames - maxHistory) frames).
  { induction frames as [|frame frames IH] using rev_ind; [reflexivity|].
    rewrite foldl_app. cbn [foldl]. rewrite IH. apply pushFrame_drop. }
  split; [exact E|]. rewrite E, length_drop. unfold maxHistory. lia.
Qed.

Lemma fraction_start (k n : nat) (extent : Q) :
  (k < n)%nat -> 0 < extent ->
  0 <= inject_Z (Z.of_nat k) / inject_Z (Z.of_nat n) * extent /\
  inject_Z (Z.of_nat k) / inject_Z (Z.of_nat n) * extent < extent /\
  0 < extent / inject_Z (Z.of_nat n).
Proof.
  intros Hk He.
  assert (Hk0 : 0 <= inject_Z (Z.of_nat k)).
  { change 0 with (inject_Z 0). rewrite <- Zle_Qle. lia. }
  assert (Hkn : inject_Z (Z.of_nat k) + 1 <= inject_Z (Z.of_nat n)).
  { change 1 with (inject_Z 1). rewrite <- inject_Z_plus, <- Zle_Qle. lia. }
  set (a := inject_Z (Z.of_nat k)) in *. set (m := inject_Z (Z.of_nat n)) in *.
  assert (Hm : 0 < m) by lra.
  assert (Hi : 0 < / m) by now apply Qinv_lt_0_compat.
  assert (Hone : m * / m == 1) by (apply Qmult_inv_r; lra).
  unfold Qdiv. set (i := / m) in *.
  assert (H1 : 0 <= a * i) by nra.
  assert (H2 : a * i + i <= 1) by nra.
  repeat split; nra.
Qed.

(** X21. The cells of the waterfall.  For a history of byte values on a
    canvas that is not empty, [draw] fills one cell for every bin of
    every frame; each cell starts on the canvas, left of its right edge
    and above its bottom edge, is as wide as the canvas divided by the
    number of frames, and has a height that is positive; and its colour
    runs from hue 200 and lightness 40 for silence to hue 280 and
    lightness 70 for a full bin, fully saturated and opaque. *)
Theorem waterfall_cells (width height : Q) (historyBuffer : list (list Z)) :
  0 < width -> 0 < height ->
  Forall (Forall (fun v => (0 <= v <= 255)%Z)) historyBuffer ->
  length (waterfall width height historyBuffer) = length (concat historyBuffer) /\
  Forall (fun r =>
            0 <= rectX r /\ rectX r < width /\ rectY r < height /\
            rectWidth r = width / inject_Z (Z.of_nat (length historyBuffer)) /\
            0 < rectWidth r /\ 0 < rectHeight r /\
            200 <= fillHue r /\ fillHue r <= 280 /\
            40 <= fillLightness r /\ fillLightness r <= 70 /\
            fillSaturation r = 100 /\ fillAlpha r = 1)
         (waterfall width height historyBuffer).
Proof.
  intros Hw Hh Hbytes. unfold waterfall. cbv zeta. split.
  { rewrite !length_concat. f_equal. rewrite fmap_imap.
    apply list_eq. intros i. rewrite list_lookup_imap, list_lookup_fmap.
    destruct (historyBuffer !! i); [|reflexivity]. cbn. now rewrite length_imap. }
  apply Forall_concat. apply Forall_lookup. intros historyIdx cells.
  rewrite list_lookup_imap. destruct (historyBuffer !! historyIdx) as [frame|] eqn:Hframe;
    [|discriminate].
  intros [= <-].
  pose proof (lookup_lt_Some _ _ _ Hframe) as Hidx.
  pose proof (proj1 (Forall_lookup _ _) Hbytes _ _ Hframe) as Hvals.
  apply Forall_lookup. intros freqIdx r.
  rewrite list_lookup_imap. destruct (frame !! freqIdx) as [v|] eqn:Hv; [|discriminate].
  intros [= <-].
  pose proof (lookup_lt_Some _ _ _ Hv) as Hfreq.
  pose proof (proj1 (Forall_lookup _ _) Hvals _ _ Hv) as [Hv0 Hv255].
  cbn [rectX rectY rectWidth rectHeight fillHue fillLightness fillSaturation fillAlpha].
  destruct (fraction_start historyIdx (length historyBuffer) width Hidx Hw) as (Hx0 & Hx1 & Hcw).
  destruct (fraction_start freqIdx (length frame) height Hfreq Hh) as (Hy0 & Hy1 & Hch).
  assert (Hq0 : 0 <= inject_Z v) by (change 0 with (inject_Z 0); rewrite <- Zle_Qle; lia).
  assert (Hq1 : inject_Z v <= 255) by (change 255 with (inject_Z 255); rewrite <- Zle_Qle; lia).
  assert (Hi0 : 0 <= inject_Z v / 255) by (apply Qle_shift_div_l; lra).
  assert (Hi1 : inject_Z v / 255 <= 1) by (apply Qle_shift_div_r; lra).
  repeat split; try reflexivity; lra.
Qed.

Lemma waterfall_cells_witness :
  0 < 600 /\ 0 < 200 /\
  Forall (Forall (fun v => (0 <= v <= 255)%Z)) [[0; 128; 255]%Z; [17; 3; 200]%Z] /\
  length (waterfall 600 200 [[0; 128; 255]%Z; [17; 3; 200]%Z]) = 6%nat /\
  Forall (fun r =>
            0 <= rectX r /\ rectX r < 600 /\ rectY r < 200 /\
            rectWidth r = 600 / inject_Z (Z.of_nat 2) /\
            0 < rectWidth r /\ 0 < rectHeight r /\
            200 <= fillHue r /\ fillHue r <= 280 /\
            40 <= fillLightness r /\ fillLightness r <= 70 /\
            fillSaturation r = 100 /\ fillAlpha r = 1)
         (waterfall 600 200 [[0; 128; 255]%Z; [17; 3; 200]%Z]).
Proof.
  assert (H1 : 0 < 600) by (lazy; reflexivity).
  assert (H2 : 0 < 200) by (lazy; reflexivity).
  assert (H4 : Forall (Forall (fun v => (0 <= v <= 255)%Z)) [[0; 128; 255]%Z; [17; 3; 200]%Z])
    by (repeat constructor; lia).
  split; [exact H1|]. split; [exact H2|]. split; [exact H4|].
  exact (waterfall_cells 600 200 _ H1 H2 H4).
Defined.

(** ** The spectrum bars *)

Lemma barsFrom_length (bufferLength barWidth height wobble : Q) (data : list Z) :
  forall i x, length (barsFrom bufferLength barWidth height wobble i x data)
              = (2 * length data)%nat.
Proof.
  induction data as [|v rest IH]; intros i x; [reflexivity|].
  cbn [barsFrom length]. rewrite IH. lia.
Qed.

Lemma barsFrom_lookup (bufferLength barWidth height wobble : Q) (data : list Z) :
  forall i x k v, data !! k = Some v ->
    exists xk,
      xk == x + inject_Z (Z.of_nat k) * (barWidth + 1) /\
      barsFrom bufferLength barWidth height wobble i x data !! (2 * k)%nat
      = Some (mkFillRect (210 + (inject_Z (Z.of_nat (i + k)) / bufferLength) * 60 + wobble)
                         90 60 1 xk
                         (height / 2 - (inject_Z v / 255) * (height / 2))
                         barWidth ((inject_Z v / 255) * (height / 2))) /\
      barsFrom bufferLength barWidth height wobble i x data !! (2 * k + 1)%nat
      = Some (mkFillRect (210 + (inject_Z (Z.of_nat (i + k)) / bufferLength) * 60 + wobble)
                         90 60 (1 # 2) xk (height / 2)
                         barWidth ((inject_Z v / 255) * (height / 2))).
Proof.
  induction data as [|v0 rest IH]; intros i x k v Hk; [discriminate|].
  destruct k as [|k].
  - injection Hk as <-. exists x. rewrite Nat.add_0_r. cbn [barsFrom].
    split; [cbn; ring|]. split; reflexivity.
  - cbn [lookup list_lookup] in Hk.
    destruct (IH (S i) (x + (barWidth + 1)) k v Hk) as (xk & Exk & Hup & Hlow).
    exists xk. split.
    + rewrite Exk, Nat2Z.inj_succ. unfold Z.succ. rewrite inject_Z_plus. cbn. ring.
    + replace (i + S k)%nat with (S i + k)%nat by lia.
      replace (2 * S k)%nat with (S (S (2 * k))) by lia.
      replace (S (S (2 * k)) + 1)%nat with (S (S (2 * k + 1))) by lia.
      cbn [barsFrom]. split; [exact Hup | exact Hlow].
Qed.

(** X22. The geometry of the spectrum bars.  For a canvas and byte
    values, bin [i] is drawn as two calls, a bar that ends at the centre
    line and its half-transparent reflection that starts there, both
    [barWidth] wide at [x = i * (barWidth + 1)], at most half the canvas
    high, in a hue between 190 and 290.  As [barWidth] is 2.5 times the
    width of a bin, every bin from [0.4 * bufferLength] on starts at or
    past the right edge of the canvas and is not seen. *)
Theorem drawBars_geometry (sin : Q -> Q) (width height hueOffset : Q) (dataArray : list Z) :
  (forall x, -1 <= sin x /\ sin x <= 1) -> 0 <= width -> 0 <= height ->
  Forall (fun v => (0 <= v <= 255)%Z) dataArray ->
  let barWidth := (width / inject_Z (Z.of_nat (length dataArray))) * (5 # 2) in
  length (drawBars sin width height hueOffset dataArray).1 = (2 * length dataArray)%nat /\
  (drawBars sin width height hueOffset dataArray).2 = hueOffset + (1 # 2) /\
  forall i v, dataArray !! i = Some v ->
    exists upper lower,
      (drawBars sin width height hueOffset dataArray).1 !! (2 * i)%nat = Some upper /\
      (drawBars sin width height hueOffset dataArray).1 !! (2 * i + 1)%nat = Some lower /\
      rectX upper == inject_Z (Z.of_nat i) * (barWidth + 1) /\ rectX lower = rectX upper /\
      rectWidth upper = barWidth /\ rectWidth lower = barWidth /\
      rectHeight upper = (inject_Z v / 255) * (height / 2) /\
      rectHeight lower = rectHeight upper /\
      rectY upper + rectHeight upper == height / 2 /\ rectY lower = height / 2 /\
      0 <= rectY upper /\ rectY lower + rectHeight lower <= height /\
      190 <= fillHue upper /\ fillHue upper < 290 /\ fillHue lower = fillHue upper /\
      fillAlpha upper = 1 /\ fillAlpha lower = 1 # 2 /\
      (inject_Z (Z.of_nat (length dataArray)) * (2 # 5) <= inject_Z (Z.of_nat i) ->
       width <= rectX upper).
Proof.
  intros Hsin Hw Hh Hbytes barWidth. unfold drawBars. cbv zeta. cbn [fst snd].
  fold barWidth.
  split; [apply barsFrom_length|]. split; [reflexivity|].
  intros i v Hv.
  set (n := inject_Z (Z.of_nat (length dataArray))) in *.
  set (wobble := sin ((hueOffset + (1 # 2)) * (1 # 100)) * 20).
  destruct (barsFrom_lookup n barWidth height wobble dataArray 0 0 i v Hv)
    as (xi & Exi & Hup & Hlow).
  rewrite Hup, Hlow. eexists. eexists. split; [reflexivity|]. split; [reflexivity|].
  cbn [rectX rectY rectWidth rectHeight fillHue fillAlpha Nat.add].
  pose proof (lookup_lt_Some _ _ _ Hv) as Hi.
  pose proof (proj1 (Forall_lookup _ _) Hbytes _ _ Hv) as [Hv0 Hv255].
  assert (Hq0 : 0 <= inject_Z v) by (change 0 with (inject_Z 0); rewrite <- Zle_Qle; lia).
  assert (Hq1 : inject_Z v <= 255) by (change 255 with (inject_Z 255); rewrite <- Zle_Qle; lia).
  assert (Hi0 : 0 <= inject_Z v / 255) by (apply Qle_shift_div_l; lra).
  assert (Hi1 : inject_Z v / 255 <= 1) by (apply Qle_shift_div_r; lra).
  assert (Hk0 : 0 <= inject_Z (Z.of_nat i)).
  { change 0 with (inject_Z 0). rewrite <- Zle_Qle. lia. }
  assert (Hkn : inject_Z (Z.of_nat i) + 1 <= n).
  { subst n. change 1 with (inject_Z 1). rewrite <- inject_Z_plus, <- Zle_Qle. lia. }
  assert (Hn : 0 < n) by lra.
  assert (Hinv : 0 < / n) by now apply Qinv_lt_0_compat.
  assert (Hone : n * / n == 1) by (apply Qmult_inv_r; lra).
  assert (Hf0 : 0 <= inject_Z (Z.of_nat i) / n) by (apply Qle_shift_div_l; lra).
  assert (Hf1 : inject_Z (Z.of_nat i) / n < 1) by (apply Qlt_shift_div_r; lra).
  destruct (Hsin ((hueOffset + (1 # 2)) * (1 # 100))) as [Hs0 Hs1].
  assert (Hbw : barWidth == width * / n * (5 # 2)) by reflexivity.
  assert (Hbw0 : 0 <= width * / n) by nra.
  assert (Hhalf0 : 0 <= height / 2) by (apply Qle_shift_div_l; lra).
  assert (Hhalf : height / 2 + height / 2 == height) by field.
  split; [rewrite Exi; ring|]. split; [reflexivity|].
  split; [reflexivity|]. split; [reflexivity|]. split; [reflexivity|]. split; [reflexivity|].
  split; [ring|]. split; [reflexivity|].
  subst wobble.
  set (t := inject_Z v / 255) in *. set (half := height / 2) in *.
  set (f := inject_Z (Z.of_nat i) / n) in *.
  set (s := sin ((hueOffset + (1 # 2)) * (1 # 100))) in *.
  split; [nra|]. split; [nra|]. split; [lra|]. split; [lra|].
  split; [reflexivity|]. split; [reflexivity|]. split; [reflexivity|].
  intros Hfar. rewrite Exi, Hbw.
  set (a := inject_Z (Z.of_nat i)) in *. set (u := / n) in *.
  assert (H1 : 1 <= a * u * (5 # 2)) by nra.
  nra.
Qed.

Lemma drawBars_geometry_witness :
  (forall x : Q, -1 <= (fun _ : Q => 1 # 2) x /\ (fun _ : Q => 1 # 2) x <= 1) /\
  0 <= 300 /\ 0 <= 150 /\
  Forall (fun v => (0 <= v <= 255)%Z) [0; 51; 255; 102; 7]%Z /\
  let barWidth := (300 / inject_Z (Z.of_nat (length [0; 51; 255; 102; 7]%Z))) * (5 # 2) in
  length (drawBars (fun _ => 1 # 2) 300 150 0 [0; 51; 255; 102; 7]%Z).1
  = (2 * length [0; 51; 255; 102; 7]%Z)%nat /\
  (drawBars (fun _ => 1 # 2) 300 150 0 [0; 51; 255; 102; 7]%Z).2 = 0 + (1 # 2) /\
  forall i v, [0; 51; 255; 102; 7]%Z !! i = Some v ->
    exists upper lower,
      (drawBars (fun _ => 1 # 2) 300 150 0 [0; 51; 255; 102; 7]%Z).1 !! (2 * i)%nat
      = Some upper /\
      (drawBars (fun _ => 1 # 2) 300 150 0 [0; 51; 255; 102; 7]%Z).1 !! (2 * i + 1)%nat
      = Some lower /\
      rectX upper == inject_Z (Z.of_nat i) * (barWidth + 1) /\ rectX lower = rectX upper /\
      rectWidth upper = barWidth /\ rectWidth lower = barWidth /\
      rectHeight upper = (inject_Z v / 255) * (150 / 2) /\
      rectHeight lower = rectHeight upper /\
      rectY upper + rectHeight upper == 150 / 2 /\ rectY lower = 150 / 2 /\
      0 <= rectY upper /\ rectY lower + rectHeight lower <= 150 /\
      190 <= fillHue upper /\ fillHue upper < 290 /\ fillHue lower = fillHue upper /\
      fillAlpha upper = 1 /\ fillAlpha lower = 1 # 2 /\
      (inject_Z (Z.of_nat (length [0; 51; 255; 102; 7]%Z)) * (2 # 5)
       <= inject_Z (Z.of_nat i) ->
       300 <= rectX upper).
Proof.
  assert (H1 : forall x : Q, -1 <= (fun _ : Q => 1 # 2) x /\ (fun _ : Q => 1 # 2) x <= 1)
    by (intros x; split; lazy; discriminate).
  assert (H2 : 0 <= 300) by (lazy; discriminate).
  assert (H3 : 0 <= 150) by (lazy; discriminate).
  assert (H4 : Forall (fun v => (0 <= v <= 255)%Z) [0; 51; 255; 102; 7]%Z)
    by (repeat constructor; lia).
  split; [exact H1|]. split; [exact H2|]. split; [exact H3|]. split; [exact H4|].
  exact (drawBars_geometry (fun _ => 1 # 2) 300 150 0 [0; 51; 255; 102; 7]%Z H1 H2 H3 H4).
Defined.
